(** * Finance (nubank-manual): monthly budget summary and fixed-item recurrence

    A shallow embedding of [src/financas/nubank-manual/src/App.js]: the
    record store behind [execSql], the budget calculator [monthSummary],
    the recurrence generator [generateMonth] and the three writers of the
    transactions table.

    Numbers.  The program computes with IEEE doubles.  Here a JavaScript
    number is an exact rational, [NaN] or one of the two infinities.  A
    numeric literal is read as its exact value: rounding is outside the
    model, and so is the range of doubles, beyond which JavaScript reads
    an infinity or zero.  The statements that depend on a number being
    read as zero or not, or on its being finite, ask for a value inside
    the range ([double_range]).  The store and the summary hold rationals: a
    column declared [REAL NOT NULL] refuses [NaN], which SQLite binds as
    [NULL], and in the model an infinity as well; an infinite Y is
    carried as 0.

    Strings are in UTF-8, as SQLite holds them.

    Time.  A date carries the offset of its own instant and the zone of
    the device, which gives the offset of any local midnight; the
    offsets need not agree where clocks change for daylight saving. *)

From Stdlib Require Import ZArith QArith Qabs Qminmax Qpower.
From Stdlib Require Import List String Ascii Bool.
From Stdlib Require Import DecimalString.
From Stdlib Require Import Sorted.
From Stdlib Require Import Lia Lqa.
Import ListNotations.

Local Open Scope list_scope.
Local Open Scope string_scope.

(* ================================================================== *)
(** * The JavaScript built-ins the program calls *)
(* ================================================================== *)

Module JS.

(** ** Numbers *)

Inductive number : Type :=
| Num (q : Q)
| NaN
| Inf (negative : bool).

(** [ToBoolean] on a number: zero and [NaN] are falsy. *)
Definition truthy (n : number) : bool :=
  match n with
  | Num q => negb (Qeq_bool q 0)
  | NaN => false
  | Inf _ => true
  end.

(** [x || 0] on a number, as the rational the summary keeps.  An
    infinity is truthy and stays itself in JavaScript; the summary of
    the model has no place for it and carries 0 there. *)
Definition or_zero (n : number) : Q :=
  match n with
  | Num q => if Qeq_bool q 0 then 0%Q else q
  | NaN => 0%Q
  | Inf _ => 0%Q
  end.

(** [Math.abs], and unary minus. *)
Definition abs (n : number) : number :=
  match n with Num q => Num (Qabs q) | NaN => NaN | Inf _ => Inf false end.

Definition neg (n : number) : number :=
  match n with Num q => Num (- q) | NaN => NaN | Inf b => Inf (negb b) end.

(** [x <= 0]: every comparison with [NaN] is false. *)
Definition le_zero (n : number) : bool :=
  match n with Num q => Qle_bool q 0 | NaN => false | Inf b => b end.

(** [Math.max(0, x)] on finite operands. *)
Definition max0 (x : Q) : Q := Qmax 0 x.

(** ** Characters and strings

    A string is the sequence of the bytes of its UTF-8 encoding.  The
    white space that [trim] and the numeric conversions skip is the
    [WhiteSpace] and [LineTerminator] of ECMAScript:
    U+0009 to U+000D and U+0020, of one byte each; U+00A0, of two; and
    U+1680, U+2000 to U+200A, U+2028, U+2029, U+202F, U+205F, U+3000 and
    U+FEFF, of three. *)

(** The white space of one byte. *)
Definition is_space (c : ascii) : bool :=
  let n := nat_of_ascii c in
  ((9 <=? n) && (n <=? 13) || (n =? 32))%nat.

(** U+00A0 is C2 A0. *)
Definition is_space2 (a b : ascii) : bool :=
  ((nat_of_ascii a =? 194) && (nat_of_ascii b =? 160))%nat.

(** U+1680 is E1 9A 80; U+2000 to U+200A are E2 80 80 to E2 80 8A;
    U+2028, U+2029 and U+202F are E2 80 A8, E2 80 A9 and E2 80 AF;
    U+205F is E2 81 9F; U+3000 is E3 80 80; U+FEFF is EF BB BF. *)
Definition is_space3 (a b c : ascii) : bool :=
  let x := nat_of_ascii a in
  let y := nat_of_ascii b in
  let z := nat_of_ascii c in
  ((x =? 225) && (y =? 154) && (z =? 128)
   || (x =? 226) && (y =? 128)
      && ((128 <=? z) && (z <=? 138) || (z =? 168) || (z =? 169) || (z =? 175))
   || (x =? 226) && (y =? 129) && (z =? 159)
   || (x =? 227) && (y =? 128) && (z =? 128)
   || (x =? 239) && (y =? 187) && (z =? 191))%nat.

Definition is_digit (c : ascii) : bool :=
  let n := nat_of_ascii c in
  ((48 <=? n) && (n <=? 57))%nat.

Definition digit_val (c : ascii) : Z := Z.of_nat (nat_of_ascii c) - 48.

(** [ToBoolean] on a string: only the empty string is falsy. *)
Definition nonempty (s : string) : bool :=
  match s with EmptyString => false | String _ _ => true end.

Fixpoint trimStart (s : string) : string :=
  match s with
  | String a s1 =>
      if is_space a then trimStart s1
      else
        match s1 with
        | String b s2 =>
            if is_space2 a b then trimStart s2
            else
              match s2 with
              | String c s3 => if is_space3 a b c then trimStart s3 else s
              | EmptyString => s
              end
        | EmptyString => s
        end
  | EmptyString => EmptyString
  end.

(** The string is white space from end to end. *)
Fixpoint blank (s : string) : bool :=
  match s with
  | String a s1 =>
      if is_space a then blank s1
      else
        match s1 with
        | String b s2 =>
            if is_space2 a b then blank s2
            else
              match s2 with
              | String c s3 => is_space3 a b c && blank s3
              | EmptyString => false
              end
        | EmptyString => false
        end
  | EmptyString => true
  end.

(** [trimEnd]: the string up to the first place from which on all is
    white space. *)
Fixpoint trimEnd (s : string) : string :=
  match s with
  | String c s' => if blank s then EmptyString else String c (trimEnd s')
  | EmptyString => EmptyString
  end.

Definition trim (s : string) : string := trimEnd (trimStart s).

(** [s.replace(",", ".")]: a string pattern replaces its first
    occurrence only. *)
Fixpoint replace_comma (s : string) : string :=
  match s with
  | String c s' =>
      if Ascii.eqb c "," then String "." s' else String c (replace_comma s')
  | EmptyString => EmptyString
  end.

(** [String(n)] for an integer [n]. *)
Definition String_of (n : Z) : string := NilZero.string_of_int (Z.to_int n).

Fixpoint repeat0 (n : nat) : string :=
  match n with O => EmptyString | S n' => String "0" (repeat0 n') end.

(** [s.padStart(w, "0")]. *)
Definition padStart0 (w : nat) (s : string) : string :=
  repeat0 (w - String.length s) ++ s.

(** [s.slice(0, n)]. *)
Definition slice0 (n : nat) (s : string) : string := substring 0 n s.

(** ** Numeric literals *)

(** The longest run of characters satisfying [p], and what follows. *)
Fixpoint span (p : ascii -> bool) (s : string) : string * string :=
  match s with
  | String c s' =>
      if p c then let (a, b) := span p s' in (String c a, b)
      else (EmptyString, s)
  | EmptyString => (EmptyString, EmptyString)
  end.

(** Value of a run of digits in base [b], most significant first. *)
Fixpoint value_from (b : Z) (dv : ascii -> Z) (acc : Z) (s : string) : Z :=
  match s with
  | String c s' => value_from b dv (b * acc + dv c) s'
  | EmptyString => acc
  end.

Definition digits_value (s : string) : Z := value_from 10 digit_val 0 s.

(** An optional sign: [(negative, rest)]. *)
Definition take_sign (s : string) : bool * string :=
  match s with
  | String "-" s' => (true, s')
  | String "+" s' => (false, s')
  | _ => (false, s)
  end.

(** [ExponentPart]: [e] or [E], an optional sign and at least one digit.
    When no digit follows, nothing is consumed. *)
Definition take_exponent (s : string) : Z * string :=
  match s with
  | String c s' =>
      if Ascii.eqb c "e" || Ascii.eqb c "E" then
        let (ng, s1) := take_sign s' in
        let (ds, s2) := span is_digit s1 in
        if nonempty ds
        then ((if ng then - digits_value ds else digits_value ds)%Z, s2)
        else (0%Z, s)
      else (0%Z, s)
  | EmptyString => (0%Z, s)
  end.

Definition pow10 (e : Z) : Q := Qpower 10 e.

(** [StrUnsignedDecimalLiteral] but for [Infinity]: the value of the
    longest literal that starts [s], and what follows it. *)
Definition take_decimal (s : string) : option (Q * string) :=
  let (ip, r1) := span is_digit s in
  let '(fp, r2, ok) :=
    match r1 with
    | String "." r =>
        let (fp, r2) := span is_digit r in
        if nonempty ip || nonempty fp then (fp, r2, true)
        else (EmptyString, r1, false)
    | _ => (EmptyString, r1, nonempty ip)
    end in
  if ok then
    let (e, r3) := take_exponent r2 in
    let mant :=
      (inject_Z (digits_value ip)
       + inject_Z (digits_value fp) * pow10 (- Z.of_nat (String.length fp)))%Q in
    Some ((mant * pow10 e)%Q, r3)
  else None.

Definition signed (ng : bool) (q : Q) : Q := if ng then (- q)%Q else q.

(** [parseFloat(s)]: leading white space is skipped and the longest
    prefix that is a decimal literal is read, [Infinity] being one; no
    such prefix gives [NaN]. *)
Definition parseFloat (s : string) : number :=
  let (ng, t) := take_sign (trimStart s) in
  if String.prefix "Infinity" t then Inf ng
  else
    match take_decimal t with
    | Some (q, _) => Num (signed ng q)
    | None => NaN
    end.

Definition is_hex (c : ascii) : bool :=
  let n := nat_of_ascii c in
  (is_digit c || (65 <=? n) && (n <=? 70) || (97 <=? n) && (n <=? 102))%nat.

Definition hex_val (c : ascii) : Z :=
  let n := nat_of_ascii c in
  if is_digit c then digit_val c
  else if (n <=? 70)%nat then Z.of_nat n - 55 else Z.of_nat n - 87.

Definition is_octal (c : ascii) : bool :=
  let n := nat_of_ascii c in ((48 <=? n) && (n <=? 55))%nat.

Definition is_binary (c : ascii) : bool :=
  let n := nat_of_ascii c in ((48 <=? n) && (n <=? 49))%nat.

(** [NonDecimalIntegerLiteral]: [0x], [0o] or [0b] and at least one
    digit of that base, up to the end of the string. *)
Definition radix_literal (s : string) : option Z :=
  match s with
  | String "0" (String c ds) =>
      let whole (b : Z) (p : ascii -> bool) (dv : ascii -> Z) :=
        let (run, rest) := span p ds in
        if nonempty run && negb (nonempty rest)
        then Some (value_from b dv 0 run) else None in
      if Ascii.eqb c "x" || Ascii.eqb c "X" then whole 16%Z is_hex hex_val
      else if Ascii.eqb c "o" || Ascii.eqb c "O" then whole 8%Z is_octal digit_val
      else if Ascii.eqb c "b" || Ascii.eqb c "B" then whole 2%Z is_binary digit_val
      else None
  | _ => None
  end.

(** [Number(s)] on a string: white space is trimmed at both ends, the
    empty string is [0], and anything but one whole numeric literal is
    [NaN]. *)
Definition Number_of_string (s : string) : number :=
  let t := trim s in
  if negb (nonempty t) then Num 0
  else
    match radix_literal t with
    | Some z => Num (inject_Z z)
    | None =>
        let (ng, u) := take_sign t in
        if u =? "Infinity" then Inf ng
        else
          match take_decimal u with
          | Some (q, EmptyString) => Num (signed ng q)
          | _ => NaN
          end
    end.

(** [parseInt(s)]: leading white space, an optional sign, then decimal
    digits, or hexadecimal digits after [0x]. *)
Definition parseInt (s : string) : option Z :=
  let (ng, t) := take_sign (trimStart s) in
  let sgn (z : Z) := if ng then (- z)%Z else z in
  let decimal :=
    let (ds, _) := span is_digit t in
    if nonempty ds then Some (sgn (digits_value ds)) else None in
  match t with
  | String "0" (String c r) =>
      if Ascii.eqb c "x" || Ascii.eqb c "X" then
        let (hs, _) := span is_hex r in
        if nonempty hs then Some (sgn (value_from 16 hex_val 0 hs)) else None
      else decimal
  | _ => decimal
  end.

(** ** Dates

    A [Date] is read through its local-time getters.  [tzOffset] is
    [getTimezoneOffset()] at its instant: UTC minus local time, in
    minutes, positive west of Greenwich.  [zone] is the time zone of the
    device, as far as the program consults it: [zone c] is the offset
    with which [new Date(y, m, d)] reads local midnight of the calendar
    day [c].  Where clocks change for daylight saving, the offsets
    differ along the year.  Months count from 0. *)

(** Calendar days as [(year, month, day)]. *)
Definition civil : Type := (Z * Z * Z)%type.

Record Date : Type := makeDate {
  year : Z;
  month : Z;
  day : Z;
  minutes : Z;
  tzOffset : Z;
  zone : civil -> Z
}.

(** A date on a device whose zone keeps the offset [tz] all year. *)
Definition mkDate (y m d mi tz : Z) : Date :=
  makeDate y m d mi tz (fun _ => tz).

Definition getFullYear (d : Date) : Z := year d.
Definition getMonth (d : Date) : Z := month d.

Definition leap (y : Z) : bool :=
  ((y mod 4 =? 0) && negb (y mod 100 =? 0) || (y mod 400 =? 0))%Z.

Definition days_in_month (y m : Z) : Z :=
  (if m =? 1 then (if leap y then 29 else 28)
   else if (m =? 3) || (m =? 5) || (m =? 8) || (m =? 10) then 30
   else 31)%Z.

Definition next_day (c : civil) : civil :=
  let '(y, m, d) := c in
  (if d <? days_in_month y m then (y, m, d + 1)
   else if m <? 11 then (y, m + 1, 1)
   else (y + 1, 0, 1))%Z.

Definition prev_day (c : civil) : civil :=
  let '(y, m, d) := c in
  (if 1 <? d then (y, m, d - 1)
   else if 0 <? m then (y, m - 1, days_in_month y (m - 1))
   else (y - 1, 11, 31))%Z.

Definition add_days (k : Z) (c : civil) : civil :=
  match k with
  | Z0 => c
  | Zpos p => Pos.iter next_day c p
  | Zneg p => Pos.iter prev_day c p
  end.

(** [new Date(y, m, dt)]: local midnight of day [dt] of month [m] of
    year [y]; a year from 0 to 99 means 1900 to 1999, a month outside
    0..11 carries into the year and a day outside the month carries into
    the neighbouring months ([MakeDay]). *)
Definition newDate (zn : civil -> Z) (y m dt : Z) : Date :=
  let yr := (if (0 <=? y) && (y <=? 99) then 1900 + y else y)%Z in
  let c := add_days (dt - 1) ((yr + m / 12)%Z, (m mod 12)%Z, 1%Z) in
  let '(y', m', d') := c in
  makeDate y' m' d' 0 (zn c) zn.

(** The UTC calendar day of the instant. *)
Definition utc_day (d : Date) : civil :=
  add_days ((minutes d + tzOffset d) / 1440) (year d, month d, day d).

Definition iso_year (y : Z) : string :=
  (if (0 <=? y) && (y <=? 9999) then padStart0 4 (String_of y)
   else (if y <? 0 then "-" else "+") ++ padStart0 6 (String_of (Z.abs y)))%Z.

Definition iso_date (c : civil) : string :=
  let '(y, m, d) := c in
  iso_year y ++ "-" ++ padStart0 2 (String_of (m + 1)) ++ "-"
    ++ padStart0 2 (String_of d).

(** [d.toISOString().slice(0, 10)]: the date part of the UTC
    rendering; the time part starts at index 10 or later. *)
Definition toISOString_slice10 (d : Date) : string :=
  slice0 10 (iso_date (utc_day d) ++ "T").

End JS.

(* ================================================================== *)
(** * The record store *)
(* ================================================================== *)

Module Store.

(** The five tables of [initDb].  A nullable column the program can
    leave [NULL] is an [option]. *)

Record Account : Type := mkAccount {
  acc_id : Z;
  acc_name : string;
  acc_institution : string;
  acc_type : string
}.

Record Category : Type := mkCategory {
  cat_id : Z;
  cat_name : string;
  cat_kind : string;
  is_fixed : option Z
}.

Record Transaction : Type := mkTransaction {
  id : Z;
  tdate : string;
  description : string;
  amount : Q;
  kind : string;
  account_id : Z;
  category_id : option Z;
  note : string
}.

(** A row of [fixed_items]; the program calls one [it]. *)
Record FixedItem : Type := mkFixedItem {
  it_id : Z;
  it_name : string;
  it_amount : Q;
  it_day : Z;
  it_category_id : option Z
}.

Record DB : Type := mkDB {
  accounts : list Account;
  categories : list Category;
  transactions : list Transaction;
  fixed_items : list FixedItem;
  settings : list (string * string);
  (** [sqlite_sequence]: the largest row id each AUTOINCREMENT table
      has handed out. *)
  seq_transactions : Z;
  seq_fixed_items : Z
}.

Definition with_transactions (d : DB) (l : list Transaction) (sq : Z) : DB :=
  mkDB (accounts d) (categories d) l (fixed_items d) (settings d)
       sq (seq_fixed_items d).

Definition with_fixed_items (d : DB) (l : list FixedItem) (sq : Z) : DB :=
  mkDB (accounts d) (categories d) (transactions d) l (settings d)
       (seq_transactions d) sq.

(** What one statement does: its rows and the store after it, or a
    constraint violation, which leaves the store as it was. *)
Inductive outcome (A : Type) : Type :=
| Done (a : A) (d : DB)
| Violation.
Arguments Done {A} a d.
Arguments Violation {A}.

Definition statement (A : Type) : Type := DB -> outcome A.

(** AUTOINCREMENT: one more than the largest row id ever used. *)
Definition fresh_id (ids : list Z) (sq : Z) : Z :=
  (fold_left Z.max ids sq + 1)%Z.

(** [CHECK(kind IN ('expense','income','transfer'))]. *)
Definition kind_ok (k : string) : bool :=
  (k =? "expense") || (k =? "income") || (k =? "transfer").

(** [SELECT id FROM accounts WHERE name=?] *)
Definition select_account_id (name : string) : statement (list Z) :=
  fun d =>
    Done (map acc_id (filter (fun a => acc_name a =? name) (accounts d))) d.

(** [SELECT id FROM categories WHERE name=?] *)
Definition select_category_id (name : string) : statement (list Z) :=
  fun d =>
    Done (map cat_id (filter (fun c => cat_name c =? name) (categories d))) d.

(** [SELECT svalue FROM settings WHERE skey=?] *)
Definition select_setting (key : string) : statement (list string) :=
  fun d =>
    Done (map snd (filter (fun kv => fst kv =? key) (settings d))) d.

(** [INSERT INTO settings(skey,svalue) VALUES(?,?)
     ON CONFLICT(skey) DO UPDATE SET svalue=excluded.svalue] *)
Definition upsert_setting (key value : string) : statement unit :=
  fun d =>
    let l := settings d in
    let l' :=
      if existsb (fun kv => fst kv =? key) l
      then map (fun kv => if fst kv =? key then (key, value) else kv) l
      else (l ++ [(key, value)])%list in
    Done tt (mkDB (accounts d) (categories d) (transactions d) (fixed_items d) l'
                  (seq_transactions d) (seq_fixed_items d)).

(** A row of the summary query: [t.*] and [c.is_fixed as cat_fixed]. *)
Record SummaryRow : Type := mkRow {
  row : Transaction;
  cat_fixed : option Z
}.

Definition opt_Z_eqb (a : option Z) (b : Z) : bool :=
  match a with Some x => (x =? b)%Z | None => false end.

(** [LEFT JOIN categories c ON c.id = t.category_id]: one row for each
    matching category, and one with [NULL]s when none matches. *)
Definition left_join (cs : list Category) (t : Transaction) : list SummaryRow :=
  match filter (fun c => opt_Z_eqb (category_id t) (cat_id c)) cs with
  | [] => [mkRow t None]
  | ms => map (fun c => mkRow t (is_fixed c)) ms
  end.

(** [WHERE tdate >= ? AND tdate <= ?]: TEXT compares byte by byte. *)
Definition in_range (start end_ : string) (t : Transaction) : bool :=
  (start <=? tdate t) && (tdate t <=? end_).

(** [SELECT t.*, c.is_fixed as cat_fixed FROM transactions t
     LEFT JOIN categories c ON c.id=t.category_id
     WHERE tdate >= ? AND tdate <= ?] *)
Definition select_month_rows (start end_ : string) : statement (list SummaryRow) :=
  fun d =>
    Done (flat_map (left_join (categories d))
                   (filter (in_range start end_) (transactions d))) d.

(** [INSERT INTO transactions(tdate,description,amount,kind,account_id,
     category_id,note) VALUES (?,?,?,?,?,?,?)].  [amount REAL NOT NULL]
    refuses [NaN], which is bound as [NULL].  The column of the model
    holds rationals: an infinity, which SQLite would store, is refused
    here as well. *)
Definition insert_transaction (tdate description : string) (amount : JS.number)
    (kind : string) (account_id : Z) (category_id : option Z) (note : string)
  : statement unit :=
  fun d =>
    match amount with
    | JS.Num a =>
        if kind_ok kind then
          let i := fresh_id (map id (transactions d)) (seq_transactions d) in
          Done tt (with_transactions d
                     (transactions d ++
                        [mkTransaction i tdate description a kind
                                       account_id category_id note])%list
                     i)
        else Violation
    | JS.NaN | JS.Inf _ => Violation
    end.

(** [UPDATE transactions SET tdate=?, description=?, amount=?, kind=?,
     account_id=?, category_id=? WHERE id=?].  The constraints are
    checked on the rows the statement touches. *)
Definition update_transaction (tdate description : string) (amount : JS.number)
    (kind : string) (account_id : Z) (category_id : option Z) (i : Z)
  : statement unit :=
  fun d =>
    if existsb (fun t => (id t =? i)%Z) (transactions d) then
      match amount with
      | JS.Num a =>
          if kind_ok kind then
            Done tt (with_transactions d
                       (map (fun t =>
                               if (id t =? i)%Z
                               then mkTransaction (id t) tdate description a kind
                                                  account_id category_id (note t)
                               else t)
                            (transactions d))
                       (seq_transactions d))
          else Violation
      | JS.NaN | JS.Inf _ => Violation
      end
    else Done tt d.

(** [DELETE FROM transactions WHERE id = ?] *)
Definition delete_transaction (i : Z) : statement unit :=
  fun d =>
    Done tt (with_transactions d
               (filter (fun t => negb (id t =? i)%Z) (transactions d))
               (seq_transactions d)).

(** [INSERT INTO fixed_items(name,amount,day,category_id) VALUES (?,?,?,?)]
    with [amount REAL NOT NULL] and [day INTEGER NOT NULL]. *)
Definition insert_fixed_item (name : string) (amount : JS.number)
    (day : option Z) (category_id : option Z) : statement unit :=
  fun d =>
    match amount, day with
    | JS.Num a, Some dy =>
        let i := fresh_id (map it_id (fixed_items d)) (seq_fixed_items d) in
        Done tt (with_fixed_items d
                   (fixed_items d ++ [mkFixedItem i name a dy category_id])%list
                   i)
    | _, _ => Violation
    end.

(** A [SELECT] whose rows only feed what a screen renders. *)
Definition select_for_display : statement unit := fun d => Done tt d.

(** ** The rest of the statements

    The store record carries the AUTOINCREMENT sequence of the two
    tables above only.  The statements that insert into accounts and
    categories take the sequence of their table as an argument [sq] and
    return the sequence after them.  SQLite draws the row id before it
    checks the constraints, and records it in [sqlite_sequence] also when
    the row is then ignored: an ignored insert uses up an id. *)

(** [CREATE TABLE IF NOT EXISTS ...]: the five tables are always there. *)
Definition create_table_if_not_exists : statement unit := fun d => Done tt d.

Definition with_accounts (d : DB) (l : list Account) : DB :=
  mkDB l (categories d) (transactions d) (fixed_items d) (settings d)
       (seq_transactions d) (seq_fixed_items d).

Definition with_categories (d : DB) (l : list Category) : DB :=
  mkDB (accounts d) l (transactions d) (fixed_items d) (settings d)
       (seq_transactions d) (seq_fixed_items d).

(** [INSERT OR IGNORE INTO accounts(name,institution,type) VALUES (?,?,?)]:
    a row whose name is taken is skipped in silence, its id spent. *)
Definition insert_or_ignore_account (sq : Z) (name institution type : string)
  : statement Z :=
  fun d =>
    let i := fresh_id (map acc_id (accounts d)) sq in
    if existsb (fun a => acc_name a =? name) (accounts d) then Done i d
    else
      Done i (with_accounts d (accounts d ++ [mkAccount i name institution type])%list).

(** [INSERT OR IGNORE INTO categories(name,kind,is_fixed) VALUES (?,?,?)] *)
Definition insert_or_ignore_category (sq : Z) (name kind : string) (fixed : Z)
  : statement Z :=
  fun d =>
    let i := fresh_id (map cat_id (categories d)) sq in
    if existsb (fun c => cat_name c =? name) (categories d) || negb (kind_ok kind)
    then Done i d
    else
      Done i (with_categories d
                (categories d ++ [mkCategory i name kind (Some fixed)])%list).

(** [INSERT OR REPLACE INTO categories(name,kind,is_fixed) VALUES (?,?,?)]:
    the rows that hold the name are deleted and the new row is inserted
    under a fresh id. *)
Definition insert_or_replace_category (sq : Z) (name kind : string) (fixed : Z)
  : statement Z :=
  fun d =>
    if kind_ok kind then
      let rest := filter (fun c => negb (cat_name c =? name)) (categories d) in
      let i := fresh_id (map cat_id rest) sq in
      Done i (with_categories d (rest ++ [mkCategory i name kind (Some fixed)])%list)
    else Violation.

(** A row of the history query. *)
Record HistoryRow : Type := mkHistoryRow {
  h_id : Z;
  h_tdate : string;
  h_description : string;
  h_amount : Q;
  h_kind : string;
  h_account : option string;
  h_category : option string;
  h_cat_fixed : option Z
}.

(** The two [LEFT JOIN]s of the history query, for one transaction. *)
Definition history_join (d : DB) (t : Transaction) : list HistoryRow :=
  let accs :=
    match filter (fun a => (acc_id a =? account_id t)%Z) (accounts d) with
    | [] => [None]
    | ms => map (fun a => Some (acc_name a)) ms
    end in
  let cats :=
    match filter (fun c => opt_Z_eqb (category_id t) (cat_id c)) (categories d) with
    | [] => [(None, None)]
    | ms => map (fun c => (Some (cat_name c), is_fixed c)) ms
    end in
  flat_map (fun a =>
              map (fun c => mkHistoryRow (id t) (tdate t) (description t) (amount t)
                                          (kind t) a (fst c) (snd c))
                  cats)
           accs.

(** [r] goes before [x] under [ORDER BY t.tdate DESC, t.id DESC]. *)
Definition goes_before (r x : HistoryRow) : bool :=
  match String.compare (h_tdate r) (h_tdate x) with
  | Gt => true
  | Lt => false
  | Eq => (h_id x <=? h_id r)%Z
  end.

Fixpoint place (r : HistoryRow) (l : list HistoryRow) : list HistoryRow :=
  match l with
  | [] => [r]
  | x :: l' => if goes_before r x then r :: l else x :: place r l'
  end.

Definition order_by_tdate_id_desc (l : list HistoryRow) : list HistoryRow :=
  fold_right place [] l.

(** [SELECT t.id, t.tdate, t.description, t.amount, t.kind,
            a.name AS account, c.name AS category, c.is_fixed AS cat_fixed
     FROM transactions t
     LEFT JOIN accounts a ON a.id = t.account_id
     LEFT JOIN categories c ON c.id = t.category_id
     WHERE t.tdate >= ? AND t.tdate <= ?
     ORDER BY t.tdate DESC, t.id DESC] *)
Definition select_history (start end_ : string) : statement (list HistoryRow) :=
  fun d =>
    Done (order_by_tdate_id_desc
            (flat_map (history_join d)
                      (filter (in_range start end_) (transactions d)))) d.

End Store.

(* ================================================================== *)
(** * The program *)
(* ================================================================== *)

Module App.

Import Store.

(** ** Effects

    The program runs one awaited statement after the other against the
    module-global [db], raises notices with [Alert.alert] and reads the
    clock with [new Date()].  [faults] schedules the failures of the
    store itself: each executed statement consumes the head, and [true]
    makes that statement fail as an I/O error would.  The clock stands
    still while a handler runs. *)

Record World : Type := mkWorld {
  db : DB;
  faults : list bool;
  alerts : list (string * string);
  clock : JS.Date
}.

Inductive exn : Type :=
| SqlError      (* the promise of [execSql] rejects *)
| TypeError.    (* a property of [undefined] is read *)

Inductive result (A : Type) : Type :=
| Ok (a : A)
| Throw (e : exn).
Arguments Ok {A} a.
Arguments Throw {A} e.

Definition M (A : Type) : Type := World -> result A * World.

Definition ret {A} (a : A) : M A := fun w => (Ok a, w).

Definition bind {A B} (m : M A) (k : A -> M B) : M B :=
  fun w =>
    match m w with
    | (Ok a, w') => k a w'
    | (Throw e, w') => (Throw e, w')
    end.

Definition throw {A} (e : exn) : M A := fun w => (Throw e, w).

Notation "x <- m ;; k" := (bind m (fun x => k))
  (at level 61, m at next level, right associativity).
Notation "' pat <- m ;; k" :=
  (bind m (fun x => match x with pat => k end))
  (at level 61, pat pattern, m at next level, right associativity).
Notation "m ;;; k" := (bind m (fun _ => k))
  (at level 61, right associativity).

(** [execSql(sql, params)]: one statement in a transaction of its own.
    A failure rejects and leaves the store as it was. *)
Definition execSql {A} (q : statement A) : M A :=
  fun w =>
    let w1 := mkWorld (db w) (tl (faults w)) (alerts w) (clock w) in
    match faults w with
    | true :: _ => (Throw SqlError, w1)
    | _ =>
        match q (db w) with
        | Done a d' => (Ok a, mkWorld d' (faults w1) (alerts w1) (clock w1))
        | Violation => (Throw SqlError, w1)
        end
    end.

(** [Alert.alert(title, message)] *)
Definition alert (title message : string) : M unit :=
  fun w =>
    (Ok tt, mkWorld (db w) (faults w) (alerts w ++ [(title, message)])%list (clock w)).

(** [new Date()] *)
Definition new_Date : M JS.Date := fun w => (Ok (clock w), w).

(** [r.rows.item(0).f]: reading a field of the first row throws when
    there is none. *)
Definition item0 {A} (rows : list A) : M A :=
  match rows with
  | a :: _ => ret a
  | [] => throw TypeError
  end.

(** [for (const x of l) { await body(x) }] *)
Fixpoint for_of {A} (l : list A) (body : A -> M unit) : M unit :=
  match l with
  | [] => ret tt
  | x :: l' => body x ;;; for_of l' body
  end.

(** ** Settings helpers *)

Definition getSetting (key def : string) : M string :=
  r <- execSql (select_setting key) ;;
  ret (match r with v :: _ => v | [] => def end).

(** [String(val)] of a string is the string. *)
Definition setSetting (key val : string) : M unit :=
  execSql (upsert_setting key val).

(** ** Month ranges and summary *)

(** The pair [{ start, end }] that [getMonthRangeISO(d)] resolves to. *)
Definition month_range (d : JS.Date) : string * string :=
  let y := JS.getFullYear d in
  let m := JS.getMonth d in
  let start := JS.newDate (JS.zone d) y m 1 in
  let end_ := JS.newDate (JS.zone d) y (m + 1) 0 in
  let toISO := JS.toISOString_slice10 in
  (toISO start, toISO end_).

Definition getMonthRangeISO (d : JS.Date) : M (string * string) :=
  ret (month_range d).

Record Totals : Type := mkTotals {
  t_income : Q;
  t_expense : Q;
  t_fixedSpent : Q;
  t_variableSpent : Q
}.

(** The body of the loop over [r.rows]. *)
Definition add_row (a : Totals) (r : SummaryRow) : Totals :=
  let a1 :=
    if kind (row r) =? "income"
    then mkTotals (t_income a + amount (row r)) (t_expense a)
                  (t_fixedSpent a) (t_variableSpent a)
    else a in
  if kind (row r) =? "expense" then
    let v := Qabs (amount (row r)) in
    if opt_Z_eqb (cat_fixed r) 1
    then mkTotals (t_income a1) (t_expense a1 + v)
                  (t_fixedSpent a1 + v) (t_variableSpent a1)
    else mkTotals (t_income a1) (t_expense a1 + v)
                  (t_fixedSpent a1) (t_variableSpent a1 + v)
  else a1.

Definition totals (rows : list SummaryRow) : Totals :=
  fold_left add_row rows (mkTotals 0 0 0 0).

Record Summary : Type := mkSummary {
  income : Q;
  expense : Q;
  savings : Q;
  Y : Q;
  fixedSpent : Q;
  variableSpent : Q;
  variableBudget : Q;
  variableRemaining : Q
}.

(** The statements of [monthSummary] that follow the loop, from the
    totals and the stored setting. *)
Definition finish (a : Totals) (Y : Q) : Summary :=
  let variableBudget := JS.max0 (t_income a - Y) in
  let variableRemaining := (variableBudget - t_variableSpent a)%Q in
  mkSummary (t_income a) (t_expense a) (t_income a - t_expense a) Y
            (t_fixedSpent a) (t_variableSpent a)
            variableBudget variableRemaining.

Definition budget_key : string := "fixed_monthly_budget".

(** [parseFloat(setting) || 0] *)
Definition Y_of_setting (setting : string) : Q :=
  JS.or_zero (JS.parseFloat setting).

Definition monthSummary : M Summary :=
  d <- new_Date ;;
  '(start, end_) <- getMonthRangeISO d ;;
  r <- execSql (select_month_rows start end_) ;;
  sv <- getSetting budget_key "0" ;;
  ret (finish (totals r) (Y_of_setting sv)).

(** [const amount = Number(String(val).replace(",", ".") || 0)] *)
Definition amount_of_input (val : string) : JS.number :=
  let s := JS.replace_comma val in
  if JS.nonempty s then JS.Number_of_string s else JS.Num 0.

(** [kind === "expense" ? -Math.abs(x) : Math.abs(x)] *)
Definition signed_amount (kind : string) (x : JS.number) : JS.number :=
  if kind =? "expense" then JS.neg (JS.abs x) else JS.abs x.

Definition default_account : string := "Conta Padrão".

(** ** Quick add *)

Record QuickAddState : Type := mkQuickAdd {
  qa_desc : string;
  qa_val : string;
  qa_kind : string;
  qa_cat : string
}.

Definition QuickAdd_submit (st : QuickAddState) : M unit :=
  let amount := amount_of_input (qa_val st) in
  if negb (JS.truthy amount) || negb (JS.nonempty (JS.trim (qa_desc st))) then
    alert "Atenção" "Preencha descrição e valor."
  else
    acc <- execSql (select_account_id default_account) ;;
    accId <- item0 acc ;;
    catId <- (if JS.nonempty (qa_cat st) then
                r <- execSql (select_category_id (qa_cat st)) ;;
                ret (match r with c :: _ => Some c | [] => None end)
              else ret None) ;;
    now <- new_Date ;;
    let today := JS.toISOString_slice10 now in
    execSql (insert_transaction today (JS.trim (qa_desc st))
               (signed_amount (qa_kind st) amount)
               (qa_kind st) accId catId "") ;;;
    alert "OK" "Lançamento adicionado.".

(** ** Fixed items *)

Record FixosForm : Type := mkFixosForm {
  fx_name : string;
  fx_val : string;
  fx_day : string;
  fx_cat : string
}.

(** [load]: two queries that refresh what the screen shows. *)
Definition Fixos_load : M unit :=
  execSql select_for_display ;;; execSql select_for_display.

Definition Fixos_add (st : FixosForm) : M unit :=
  if negb (JS.nonempty (JS.trim (fx_name st)))
     || negb (JS.nonempty (fx_val st)) || negb (JS.nonempty (fx_day st)) then
    alert "Atenção" "Preencha nome, valor e dia."
  else
    let amount := amount_of_input (fx_val st) in
    if JS.le_zero amount then
      alert "Atenção" "Valor deve ser > 0."
    else
      r <- execSql (select_category_id (fx_cat st)) ;;
      let catId := match r with c :: _ => Some c | [] => None end in
      execSql (insert_fixed_item (JS.trim (fx_name st)) amount
                 (JS.parseInt (fx_day st)) catId) ;;;
      Fixos_load.

(** The date string of a generated transaction:
    [`${y}-${String(m).padStart(2, "0")}-${d}`]. *)
Definition fixed_tdate (y m : Z) (it_day : Z) : string :=
  let d := JS.padStart0 2 (JS.String_of it_day) in
  JS.String_of y ++ "-" ++ JS.padStart0 2 (JS.String_of m) ++ "-" ++ d.

Definition generateMonth (items : list FixedItem) : M unit :=
  acc <- execSql (select_account_id default_account) ;;
  accId <- item0 acc ;;
  now <- new_Date ;;
  let y := JS.getFullYear now in
  let m := (JS.getMonth now + 1)%Z in
  for_of items (fun it =>
    execSql (insert_transaction (fixed_tdate y m (it_day it)) (it_name it)
               (JS.neg (JS.abs (JS.Num (it_amount it))))
               "expense" accId (it_category_id it) "fixo")) ;;;
  alert "OK" "Fixos gerados para o mês atual.".

(** ** History: edit *)

(** A form field that holds a number until the user types in it. *)
Inductive field : Type :=
| FNum (n : JS.number)
| FStr (s : string).

Record Editing : Type := mkEditing {
  e_id : Z;
  e_tdate : string;
  e_description : string;
  e_amount : field;
  e_kind : string;
  e_category : string
}.

(** [Number(e.amount || 0)] *)
Definition amount_of_field (f : field) : JS.number :=
  match f with
  | FNum n => if JS.truthy n then n else JS.Num 0
  | FStr s => if JS.nonempty s then JS.Number_of_string s else JS.Num 0
  end.

Definition updateTransaction (i : Z) (tdate description : string)
    (amount : JS.number) (kind : string) (categoryName : option string)
  : M unit :=
  acc <- execSql (select_account_id default_account) ;;
  accId <- item0 acc ;;
  catId <- (match categoryName with
            | Some n =>
                if JS.nonempty n then
                  r <- execSql (select_category_id n) ;;
                  ret (match r with c :: _ => Some c | [] => None end)
                else ret None
            | None => ret None
            end) ;;
  execSql (update_transaction tdate description amount kind accId catId i).

(** [load] of the history screen: [listMonthTransactions]. *)
Definition Historico_load : M unit := execSql select_for_display.

Definition Historico_saveEdit (e : Editing) : M unit :=
  if negb (JS.nonempty (e_description e)) || negb (JS.nonempty (e_tdate e)) then
    alert "Atenção" "Preencha data e descrição."
  else
    let amt := signed_amount (e_kind e) (amount_of_field (e_amount e)) in
    updateTransaction (e_id e) (e_tdate e) (JS.trim (e_description e)) amt
      (e_kind e)
      (if JS.nonempty (e_category e) then Some (e_category e) else None) ;;;
    Historico_load.

(** ** Settings screen *)

(** [save], with the text [y] of the field. *)
Definition Config_save (y : string) : M unit :=
  setSetting "fixed_monthly_budget" (if JS.nonempty y then y else "0") ;;;
  alert "OK" "Orçamento fixo salvo.".

(** ** Database set-up *)

Definition seeds : list (string * string * Z) :=
  [("Aluguel/Condomínio", "expense", 1%Z);
   ("Internet", "expense", 1%Z);
   ("Energia", "expense", 1%Z);
   ("Mercado", "expense", 0%Z);
   ("Transporte", "expense", 0%Z);
   ("Lazer", "expense", 0%Z);
   ("Salário", "income", 0%Z);
   ("Outros", "expense", 0%Z)].

(** The loop over [seeds], threading the sequence of the categories
    table. *)
Fixpoint seed_categories_from (sc : Z) (l : list (string * string * Z)) : M Z :=
  match l with
  | [] => ret sc
  | (n, k, f) :: l' =>
      sc' <- execSql (insert_or_ignore_category sc n k f) ;;
      seed_categories_from sc' l'
  end.

(** [initDb], given the sequences of the accounts and categories
    tables; it returns them as it leaves them. *)
Definition initDb (sa sc : Z) : M (Z * Z) :=
  execSql create_table_if_not_exists ;;;
  execSql create_table_if_not_exists ;;;
  execSql create_table_if_not_exists ;;;
  execSql create_table_if_not_exists ;;;
  execSql create_table_if_not_exists ;;;
  sa' <- execSql (insert_or_ignore_account sa "Conta Padrão" "Manual" "other") ;;
  sc' <- seed_categories_from sc seeds ;;
  ret (sa', sc').

(** ** History helpers *)

Definition monthRange : M (string * string) :=
  d <- new_Date ;;
  let y := JS.getFullYear d in
  let m := JS.getMonth d in
  let start := JS.toISOString_slice10 (JS.newDate (JS.zone d) y m 1) in
  let end_ := JS.toISOString_slice10 (JS.newDate (JS.zone d) y (m + 1) 0) in
  ret (start, end_).

Definition listMonthTransactions : M (list HistoryRow) :=
  '(start, end_) <- monthRange ;;
  execSql (select_history start end_).

Definition deleteTransaction (i : Z) : M unit :=
  execSql (delete_transaction i).

(** [startEdit(it)]: the form opened on a listed row. *)
Definition startEdit (it : HistoryRow) : Editing :=
  mkEditing (h_id it) (h_tdate it) (h_description it)
            (FNum (JS.Num (h_amount it))) (h_kind it)
            (match h_category it with Some c => c | None => "" end).

(** ** Categories screen *)

Record CategoryForm : Type := mkCategoryForm {
  cf_name : string;
  cf_kind : string;
  cf_isFixed : bool
}.

(** [load] of the categories screen. *)
Definition Categories_load : M unit := execSql select_for_display.

(** [save], given the sequence of the categories table. *)
Definition Categories_save (sc : Z) (st : CategoryForm) : M unit :=
  if negb (JS.nonempty (JS.trim (cf_name st))) then ret tt
  else
    execSql (insert_or_replace_category sc (JS.trim (cf_name st)) (cf_kind st)
               (if cf_isFixed st then 1 else 0)%Z) ;;;
    Categories_load.

(** Run a handler and keep the world it leaves. *)
Definition exec {A} (m : M A) (w : World) : World := snd (m w).

End App.

(* ================================================================== *)
(** * Vocabulary of the statements *)
(* ================================================================== *)

Import Store App.

(** The first [n] statements the world will execute meet no store
    failure. *)
Definition calm (n : nat) (w : World) : bool :=
  forallb negb (firstn n (faults w)).

(** The world after [n] statements that left the tables alone. *)
Definition after_reads (n : nat) (w : World) : World :=
  mkWorld (db w) (skipn n (faults w)) (alerts w) (clock w).

(** The offsets of the device at the two local midnights that
    [getMonthRangeISO] builds: the one that opens the first day of the
    month of [now] and the one that opens its last day. *)
Definition first_midnight (now : JS.Date) : Z :=
  JS.zone now (JS.year now, JS.month now, 1%Z).

Definition last_midnight (now : JS.Date) : Z :=
  JS.zone now (JS.year now, JS.month now,
               JS.days_in_month (JS.year now) (JS.month now)).

(** The rows the summary query selects in world [w]. *)
Definition month_rows (w : World) : list SummaryRow :=
  flat_map (left_join (categories (db w)))
    (filter (in_range (fst (month_range (clock w))) (snd (month_range (clock w))))
            (transactions (db w))).

(** The transactions the summary query selects in world [w]. *)
Definition month_transactions (w : World) : list Transaction :=
  filter (in_range (fst (month_range (clock w))) (snd (month_range (clock w))))
         (transactions (db w)).

(** The category a transaction is recorded under: the row of the
    categories table that has its [category_id], when there is one. *)
Definition category_of (d : DB) (t : Transaction) : option Category :=
  match category_id t with
  | Some c => find (fun k => (cat_id k =? c)%Z) (categories d)
  | None => None
  end.

(** The [is_fixed] of that category; [NULL] without one. *)
Definition flag_of (d : DB) (t : Transaction) : option Z :=
  match category_of d t with
  | Some k => is_fixed k
  | None => None
  end.

(** The flag of the row [r] of the summary query is the [is_fixed] of a
    category that has the [category_id] of its transaction, and [NULL]
    when there is no such category. *)
Definition joined_to (d : DB) (r : SummaryRow) : Prop :=
  match category_id (row r) with
  | Some c =>
      (exists k, In k (categories d) /\ cat_id k = c /\ cat_fixed r = is_fixed k)
      \/ ((forall k, In k (categories d) -> cat_id k <> c) /\ cat_fixed r = None)
  | None => cat_fixed r = None
  end.

Definition is_income (t : Transaction) : bool := kind t =? "income".
Definition is_expense (t : Transaction) : bool := kind t =? "expense".

(** An expense under a category whose [is_fixed] is 1, and an expense
    of the other sort: under no category, or under one not so flagged. *)
Definition fixed_expense (d : DB) (t : Transaction) : bool :=
  is_expense t && opt_Z_eqb (flag_of d t) 1.

Definition variable_expense (d : DB) (t : Transaction) : bool :=
  is_expense t && negb (opt_Z_eqb (flag_of d t) 1).

Definition magnitude (t : Transaction) : Q := Qabs (amount t).

(** The stored value of a setting, when the table has the key. *)
Definition stored (key : string) (d : DB) : option string :=
  match filter (fun kv => fst kv =? key) (settings d) with
  | kv :: _ => Some (snd kv)
  | [] => None
  end.

Definition sumQ (l : list Q) : Q := fold_right Qplus 0 l.

Definition is_kind (k : string) (r : SummaryRow) : bool := kind (row r) =? k.

(** The joined category is flagged fixed. *)
Definition in_fixed_category (r : SummaryRow) : bool := opt_Z_eqb (cat_fixed r) 1.

Definition amount_of (r : SummaryRow) : Q := amount (row r).
Definition abs_amount (r : SummaryRow) : Q := Qabs (amount (row r)).

(** The store with one more transaction, anywhere in the table. *)
Definition with_extra (w : World) (l1 : list Transaction) (t : Transaction)
    (l2 : list Transaction) : World :=
  mkWorld (with_transactions (db w) (l1 ++ t :: l2)%list (seq_transactions (db w)))
          (faults w) (alerts w) (clock w).

(** The world after a notice and nothing else. *)
Definition noticed (w : World) (title message : string) : World :=
  mkWorld (db w) (faults w) (alerts w ++ [(title, message)])%list (clock w).

(** No notice was raised between [w] and [w'], and [k] statements went
    to the store. *)
Definition quiet (k : nat) (w w' : World) : Prop :=
  alerts w' = alerts w /\ faults w' = skipn k (faults w).

(** A handler that raises no notice. *)
Definition stays_quiet {A} (m : M A) : Prop :=
  forall w, exists k, quiet k w (snd (m w)).

(** ** Generated transactions *)

(** The id of the default account, when the accounts table has it. *)
Definition account_of (d : DB) : option Z :=
  match filter (fun a => acc_name a =? default_account) (accounts d) with
  | a :: _ => Some (acc_id a)
  | [] => None
  end.

(** The row [generateMonth] writes for template [it], under row id [i]. *)
Definition generated (accId y m : Z) (it : FixedItem) (i : Z) : Transaction :=
  mkTransaction i (fixed_tdate y m (it_day it)) (it_name it)
                (- Qabs (it_amount it)) "expense" accId (it_category_id it) "fixo".

(** The store after that row is appended under the next free id. *)
Definition insert_generated (accId y m : Z) (d : DB) (it : FixedItem) : DB :=
  let i := fresh_id (map id (transactions d)) (seq_transactions d) in
  with_transactions d (transactions d ++ [generated accId y m it i])%list i.

Definition append_generated (accId y m : Z) (items : list FixedItem) (d : DB) : DB :=
  fold_left (insert_generated accId y m) items d.

(** Row [t] is what the generator derives from template [it] at time
    [now] for account [accId]: the fields of the contract, one by one. *)
Definition generated_from (accId : Z) (now : JS.Date) (it : FixedItem)
    (t : Transaction) : Prop :=
  amount t = - Qabs (it_amount it) /\
  kind t = "expense" /\
  category_id t = it_category_id it /\
  description t = it_name it /\
  note t = "fixo" /\
  tdate t = JS.String_of (JS.year now) ++ "-"
            ++ JS.padStart0 2 (JS.String_of (JS.month now + 1)) ++ "-"
            ++ JS.padStart0 2 (JS.String_of (it_day it)) /\
  account_id t = accId.

(** Two rows that differ in their row id at most. *)
Definition duplicate (t u : Transaction) : Prop :=
  tdate t = tdate u /\ description t = description u /\ amount t = amount u /\
  kind t = kind u /\ account_id t = account_id u /\
  category_id t = category_id u /\ note t = note u.

Definition count_generated (d : DB) : nat :=
  List.length (filter (fun t => note t =? "fixo") (transactions d)).

Definition at_time (w : World) (c : JS.Date) : World :=
  mkWorld (db w) (faults w) (alerts w) c.

(** ** The sign convention *)

Definition sign_ok (t : Transaction) : Prop :=
  (kind t = "expense" -> amount t <= 0) /\
  (kind t = "income" -> 0 <= amount t).

(** Every row of [d'] was in [d] already, or keeps the sign convention. *)
Definition writes_signed (d d' : DB) : Prop :=
  forall t, In t (transactions d') ->
            In t (transactions d) \/ sign_ok t.

(** ** Calendar days and their rendering *)

(** The character of a decimal digit. *)
Definition digit_char (d : Z) : ascii := ascii_of_nat (48 + Z.to_nat d).

(** The last [w] decimal digits of [n], most significant first. *)
Fixpoint fixed (w : nat) (n : Z) : string :=
  match w with
  | O => ""
  | S w' => fixed w' (n / 10) ++ String (digit_char (n mod 10)) ""
  end.

(** [String(k).padStart(w, "0")] is the [w]-digit rendering of [k]. *)
Definition pads_as_fixed (w : nat) (k : nat) : bool :=
  JS.padStart0 w (JS.String_of (Z.of_nat k)) =? fixed w (Z.of_nat k).

(** Lexicographic combination of two comparisons. *)
Definition lex (c1 c2 : comparison) : comparison :=
  match c1 with Eq => c2 | _ => c1 end.

(** A day of the calendar, in a year that prints with four digits. *)
Definition valid_day (y m d : Z) : Prop :=
  (0 <= y <= 9999 /\ 0 <= m <= 11 /\ 1 <= d <= JS.days_in_month y m)%Z.

(** ** Decimal numerals

    What a user types for an amount of money: an optional minus sign,
    digits, and optionally a point and more digits. *)

Record Numeral : Type := mkNumeral {
  n_negative : bool;
  n_integer : string;
  n_fraction : option string
}.

Fixpoint all_digits (s : string) : bool :=
  match s with
  | String c s' => JS.is_digit c && all_digits s'
  | EmptyString => true
  end.

Definition well_formed (n : Numeral) : bool :=
  JS.nonempty (n_integer n) && all_digits (n_integer n)
  && match n_fraction n with Some f => all_digits f | None => true end.

Definition render (n : Numeral) : string :=
  (if n_negative n then "-" else "") ++ n_integer n
  ++ match n_fraction n with Some f => "." ++ f | None => "" end.

(** The number a numeral denotes: integer part plus fraction over the
    power of ten of its length. *)
Definition numeral_value (n : Numeral) : Q :=
  let f := match n_fraction n with Some f => f | None => "" end in
  let v := inject_Z (JS.digits_value (n_integer n))
           + inject_Z (JS.digits_value f)
             / inject_Z (10 ^ Z.of_nat (String.length f)) in
  if n_negative n then - v else v.

(** The range of doubles.  A literal whose magnitude is 2^1024 - 2^970
    or more is read as an infinity, and one whose magnitude is 2^-1075
    or less as zero; the model, which reads every literal as its exact
    value, follows the program on the literals in between. *)
Definition double_huge : Q := inject_Z (2 ^ 1024 - 2 ^ 970).
Definition double_tiny : Q := Qmake 1 (2 ^ 1075).

(** A literal of value [q] is read as a finite double, and as zero only
    when [q] is zero. *)
Definition double_range (q : Q) : Prop :=
  Qabs q < double_huge /\ (q == 0 \/ double_tiny < Qabs q).

(** Nothing at the head of [rest] continues a numeral written before
    it: no digit, no point and no exponent mark. *)
Definition ends_numeral (rest : string) : bool :=
  match rest with
  | String c _ =>
      negb (JS.is_digit c || Ascii.eqb c "." || Ascii.eqb c "e" || Ascii.eqb c "E")
  | EmptyString => true
  end.

(** No numeric literal starts the string: after leading white space and
    an optional sign there is neither a digit, nor a point followed by a
    digit, nor the word Infinity. *)
Definition no_leading_numeral (s : string) : bool :=
  let t := snd (JS.take_sign (JS.trimStart s)) in
  negb (String.prefix "Infinity" t)
  && match t with
     | String c r =>
         negb (JS.is_digit c)
         && negb (Ascii.eqb c "." &&
                  match r with String c' _ => JS.is_digit c' | EmptyString => false end)
     | EmptyString => true
     end.

(** ** The rest of the program *)

(** [d'] holds the transactions of [d], then possibly more, and the
    other tables as they were. *)
Definition only_appends (d d' : DB) : Prop :=
  (exists rows, transactions d' = (transactions d ++ rows)%list) /\
  accounts d' = accounts d /\ categories d' = categories d /\
  fixed_items d' = fixed_items d /\ settings d' = settings d.

(** A date string of fixed width: four digits, two and two. *)
Definition fixed_date (y a b : Z) : string :=
  fixed 4 y ++ "-" ++ fixed 2 a ++ "-" ++ fixed 2 b.

(** The id a category name resolves to: the first row of
    [SELECT id FROM categories WHERE name=?], when there is one. *)
Definition category_named (n : string) (d : DB) : option Z :=
  match filter (fun c => cat_name c =? n) (categories d) with
  | c :: _ => Some (cat_id c)
  | [] => None
  end.

(** The row [updateTransaction] leaves in place of [t]. *)
Definition rewritten (td de : string) (a : Q) (k : string) (acc : Z)
    (cat : option Z) (t : Transaction) : Transaction :=
  mkTransaction (id t) td de a k acc cat (note t).

(** A fixed item that the form may have written: a positive amount
    under a name that is not empty. *)
Definition sound_item (f : FixedItem) : Prop :=
  0 < it_amount f /\ it_name f <> "".

Definition adds_sound_items (d d' : DB) : Prop :=
  transactions d' = transactions d /\
  forall f, In f (fixed_items d') -> In f (fixed_items d) \/ sound_item f.

(** The categories table has a row of that name. *)
Definition has_category (n : string) (d : DB) : bool :=
  existsb (fun c => cat_name c =? n) (categories d).

(** The store holds what [initDb] seeds: the default account and the
    eight categories, by name. *)
Definition seeded (d : DB) : Prop :=
  existsb (fun a => acc_name a =? default_account) (accounts d) = true /\
  forall n k f, In (n, k, f) seeds -> has_category n d = true.

(** [d'] extends the accounts and categories of [d] and leaves the
    other tables as they were. *)
Definition only_seeds (d d' : DB) : Prop :=
  (exists la, accounts d' = (accounts d ++ la)%list) /\
  (exists lc, categories d' = (categories d ++ lc)%list) /\
  transactions d' = transactions d /\ fixed_items d' = fixed_items d /\
  settings d' = settings d /\
  seq_transactions d' = seq_transactions d /\ seq_fixed_items d' = seq_fixed_items d.

Definition unchanged_if_seeded (d d' : DB) : Prop := seeded d -> d' = d.



(** The [is_fixed] flag the summary joins to a row recorded under the
    category name [cat]. *)
Definition joined_flag (cat : string) (d : DB) : option Z :=
  if JS.nonempty cat then
    match filter (fun c => cat_name c =? cat) (categories d) with
    | c :: _ => is_fixed c
    | [] => None
    end
  else None.

(** The row quick add writes in world [w] for amount [q]. *)
Definition quick_row (st : QuickAddState) (w : World) (accId : Z) (q : Q) : Transaction :=
  mkTransaction
    (fresh_id (map id (transactions (db w))) (seq_transactions (db w)))
    (JS.toISOString_slice10 (clock w))
    (JS.trim (qa_desc st))
    (if qa_kind st =? "expense" then - Qabs q else Qabs q)
    (qa_kind st) accId
    (if JS.nonempty (qa_cat st) then category_named (qa_cat st) (db w) else None)
    "".

(** ** Sample data

    The store after [initDb] on a device in Brazil (UTC-3), holding the
    month of the specification's example: income 5000.00, a fixed
    expense of 1200.00, a variable one of 300.00 and Y = 1200.00. *)

Definition seed_accounts : list Account :=
  [mkAccount 1 default_account "Manual" "other"].

Definition seed_categories : list Category :=
  [mkCategory 1 "Aluguel/Condomínio" "expense" (Some 1%Z);
   mkCategory 2 "Internet" "expense" (Some 1%Z);
   mkCategory 3 "Energia" "expense" (Some 1%Z);
   mkCategory 4 "Mercado" "expense" (Some 0%Z);
   mkCategory 5 "Transporte" "expense" (Some 0%Z);
   mkCategory 6 "Lazer" "expense" (Some 0%Z);
   mkCategory 7 "Salário" "income" (Some 0%Z);
   mkCategory 8 "Outros" "expense" (Some 0%Z)].

Definition march_transactions : list Transaction :=
  [mkTransaction 1 "2024-03-01" "Salário" 5000 "income" 1 (Some 7%Z) "";
   mkTransaction 2 "2024-03-05" "Aluguel" (-1200) "expense" 1 (Some 1%Z) "";
   mkTransaction 3 "2024-03-31" "Mercado" (-300) "expense" 1 (Some 4%Z) ""].

Definition sample_db (setting : list (string * string)) : DB :=
  mkDB seed_accounts seed_categories march_transactions [] setting 3 0.

(** Noon of 15 March 2024, local time, [tz] minutes behind UTC. *)
Definition mid_march (tz : Z) : JS.Date := JS.mkDate 2024 2 15 720 tz.

(** Europe/London in 2024: Greenwich time, and one hour ahead of it
    at the local midnights from 1 April to 27 October. *)
Definition london_2024 (c : JS.civil) : Z :=
  let '(_, m, d) := c in
  (if (3 <=? m) && (m <=? 8) || (m =? 9) && (d <=? 27) then -60 else 0)%Z.

(** Noon of 28 October 2024 in London: the clocks went back the day
    before. *)
Definition late_october_in_london : JS.Date :=
  JS.makeDate 2024 9 28 720 0 london_2024.

Definition sample_items : list FixedItem :=
  [mkFixedItem 1 "Aluguel" 1200 5 (Some 1%Z);
   mkFixedItem 2 "Internet" 99.90 10 (Some 2%Z)].

Definition five_items : list FixedItem :=
  [mkFixedItem 1 "Aluguel" 1200 5 (Some 1%Z);
   mkFixedItem 2 "Internet" 99.90 10 (Some 2%Z);
   mkFixedItem 3 "Energia" 180 12 (Some 3%Z);
   mkFixedItem 4 "Academia" 89 15 None;
   mkFixedItem 5 "Seguro" 210.5 20 (Some 8%Z)].

(** The example store, about to fail on its [n]-th statement from now. *)
Definition failing_at (n : nat) : World :=
  mkWorld (sample_db []) (repeat false (n - 1) ++ [true])%list [] (mid_march 180).

(** The rent of the example month, opened in the edit form, its amount
    retyped as [amount]. *)
Definition edit_rent (amount : string) : Editing :=
  mkEditing 2 "2024-03-05" "Aluguel" (FStr amount) "expense" "Aluguel/Condomínio".

(** The example month seen from a device one hour ahead of UTC, with a
    purchase on the last day of February besides. *)
Definition leap_day_purchase : Transaction :=
  mkTransaction 4 "2024-02-29" "Farmácia" (-80) "expense" 1 (Some 8%Z) "".

Definition world_east_of_utc : World :=
  mkWorld (mkDB seed_accounts seed_categories
                (march_transactions ++ [leap_day_purchase])%list [] [] 4 0)
          [] [] (mid_march (-60)).

Definition sample_world (setting : list (string * string)) : World :=
  mkWorld (sample_db setting) [] [] (mid_march 180).

(** The example month with two more expenses: the internet bill, under
    category 2, which is flagged fixed, and bread bought under no
    category. *)
Definition busy_march : World :=
  mkWorld (mkDB seed_accounts seed_categories
             (march_transactions ++
                [mkTransaction 4 "2024-03-10" "Internet" (-99.90) "expense" 1 (Some 2%Z) "";
                 mkTransaction 5 "2024-03-12" "Padaria" (-20) "expense" 1 None ""])%list
             [] [(budget_key, "1200")] 5 0)
          [] [] (mid_march 180).

(** A device on first launch: no table has a row. *)
Definition blank_world : World :=
  mkWorld (mkDB [] [] [] [] [] 0 0) [] [] (mid_march 180).

(** Quick add filled in for a purchase of 45,90. *)
Definition quick_market : QuickAddState :=
  mkQuickAdd "Mercado" "45,90" "expense" "Mercado".

(** The fixed-item form filled in for a gym fee on day 15. *)
Definition gym_form : FixosForm := mkFixosForm "Academia" "89,00" "15" "Lazer".

(** The rent of the example month, and its line in the history list. *)
Definition rent : Transaction :=
  mkTransaction 2 "2024-03-05" "Aluguel" (-1200) "expense" 1 (Some 1%Z) "".

Definition rent_listed : HistoryRow :=
  mkHistoryRow 2 "2024-03-05" "Aluguel" (-1200) "expense"
    (Some default_account) (Some "Aluguel/Condomínio") (Some 1%Z).

(** The categories form saving "Mercado" again, now as a fixed expense. *)
Definition market_form : CategoryForm := mkCategoryForm "Mercado" "expense" true.

(* ================================================================== *)
(** * The budget calculator *)
(* ================================================================== *)

Section Summary.

Lemma monthSummary_calm (w : World) :
  calm 2 w = true ->
  monthSummary w =
    (Ok (finish (totals (month_rows w))
                (Y_of_setting (match stored budget_key (db w) with
                               | Some v => v
                               | None => "0"
                               end))),
     after_reads 2 w).
Proof.
  unfold calm, monthSummary, getMonthRangeISO, getSetting, month_rows, stored,
    after_reads, bind, ret, new_Date, execSql, select_month_rows, select_setting.
  destruct w as [d fs al ck]; cbn [faults db alerts clock].
  destruct (month_range ck) as [start end_]; cbn [fst snd].
  destruct fs as [|[|] [|[|] fs]]; cbn; intros H; try discriminate H;
    destruct (filter _ (settings d)); reflexivity.
Qed.

(** A store failure on either statement is all that keeps the summary
    from being returned. *)
Lemma monthSummary_throws (w : World) :
  calm 2 w = false -> fst (monthSummary w) = Throw SqlError.
Proof.
  unfold calm, monthSummary, getMonthRangeISO, getSetting,
    bind, ret, new_Date, execSql, select_month_rows, select_setting.
  destruct w as [d fs al ck]; cbn [faults db alerts clock].
  destruct (month_range ck) as [start end_].
  destruct fs as [|[|] [|[|] fs]]; cbn; intros H; try discriminate H;
    reflexivity.
Qed.

Lemma kind_income_not_expense (r : SummaryRow) :
  is_kind "income" r = true -> is_kind "expense" r = false.
Proof.
  unfold is_kind. intros H. apply String.eqb_eq in H. rewrite H. reflexivity.
Qed.

(** The loop invariant: each total is what it was plus the sum over
    the rows of its own class. *)
Lemma fold_add_row (rows : list SummaryRow) (a : Totals) :
  let b := fold_left add_row rows a in
  t_income b == t_income a + sumQ (map amount_of (filter (is_kind "income") rows)) /\
  t_expense b == t_expense a + sumQ (map abs_amount (filter (is_kind "expense") rows)) /\
  t_fixedSpent b ==
    t_fixedSpent a
    + sumQ (map abs_amount
              (filter (fun r => is_kind "expense" r && in_fixed_category r) rows)) /\
  t_variableSpent b ==
    t_variableSpent a
    + sumQ (map abs_amount
              (filter (fun r => is_kind "expense" r && negb (in_fixed_category r)) rows)).
Proof.
  revert a. induction rows as [|r rows IH]; intros a; cbn zeta.
  - unfold sumQ; cbn [fold_left filter map fold_right]. repeat split; ring.
  - cbn [fold_left filter]. specialize (IH (add_row a r)). cbn zeta in IH.
    destruct IH as (Hi & He & Hf & Hv).
    rewrite Hi, He, Hf, Hv. clear Hi He Hf Hv.
    unfold add_row.
    fold (is_kind "income" r) (is_kind "expense" r) (in_fixed_category r).
    destruct (is_kind "income" r) eqn:Ki.
    + rewrite (kind_income_not_expense r Ki).
      unfold sumQ, amount_of;
        cbn [andb negb map fold_right t_income t_expense t_fixedSpent t_variableSpent].
      repeat split; ring.
    + destruct (is_kind "expense" r) eqn:Ke;
        [destruct (in_fixed_category r) eqn:Kf|];
        unfold sumQ, abs_amount;
        cbn [andb negb map fold_right t_income t_expense t_fixedSpent t_variableSpent];
        repeat split; ring.
Qed.

Corollary totals_sums (rows : list SummaryRow) :
  t_income (totals rows) == sumQ (map amount_of (filter (is_kind "income") rows)) /\
  t_expense (totals rows) == sumQ (map abs_amount (filter (is_kind "expense") rows)) /\
  t_fixedSpent (totals rows) ==
    sumQ (map abs_amount
            (filter (fun r => is_kind "expense" r && in_fixed_category r) rows)) /\
  t_variableSpent (totals rows) ==
    sumQ (map abs_amount
            (filter (fun r => is_kind "expense" r && negb (in_fixed_category r)) rows)).
Proof.
  destruct (fold_add_row rows (mkTotals 0 0 0 0)) as (Hi & He & Hf & Hv).
  unfold totals. cbn [t_income t_expense t_fixedSpent t_variableSpent] in *.
  rewrite Hi, He, Hf, Hv. repeat split; ring.
Qed.

(** The two spending totals split the expense total, whatever the
    accumulators held before the loop. *)
Lemma fold_add_row_split (rows : list SummaryRow) (a : Totals) :
  t_fixedSpent a + t_variableSpent a == t_expense a ->
  let b := fold_left add_row rows a in
  t_fixedSpent b + t_variableSpent b == t_expense b.
Proof.
  revert a. induction rows as [|r rows IH]; intros a Ha; cbn zeta.
  - exact Ha.
  - cbn [fold_left]. apply IH. unfold add_row.
    destruct (kind (row r) =? "income"), (kind (row r) =? "expense");
      try destruct (opt_Z_eqb (cat_fixed r) 1);
      cbn [t_income t_expense t_fixedSpent t_variableSpent]; lra.
Qed.

Lemma no_category_joins (l : list Category) (i : Z) :
  (forall c, In c l -> cat_id c <> i) ->
  filter (fun c => opt_Z_eqb (Some i) (cat_id c)) l = [].
Proof.
  induction l as [|c l IH]; intros H; [reflexivity|].
  cbn [filter opt_Z_eqb].
  replace (i =? cat_id c)%Z with false.
  - apply IH. intros c' Hc'. apply H. right. exact Hc'.
  - symmetry. apply Z.eqb_neq. intros E. apply (H c (or_introl eq_refl)).
    symmetry. exact E.
Qed.

Lemma single_match (l : list Category) (c0 : Category) :
  NoDup (map cat_id l) -> In c0 l ->
  filter (fun c => opt_Z_eqb (Some (cat_id c0)) (cat_id c)) l = [c0].
Proof.
  induction l as [|c l IH]; intros Hn Hin; [destruct Hin|].
  cbn [map] in Hn. inversion Hn as [|? ? Hx Hn']; subst.
  cbn [filter opt_Z_eqb]. destruct Hin as [->|Hin].
  - rewrite Z.eqb_refl. f_equal.
    apply no_category_joins. intros c Hc E. apply Hx. rewrite <- E. apply in_map, Hc.
  - replace (cat_id c0 =? cat_id c)%Z with false; [apply IH; assumption|].
    symmetry. apply Z.eqb_neq. intros E. apply Hx. rewrite <- E. apply in_map, Hin.
Qed.

Lemma null_category_joins_none (l : list Category) :
  filter (fun c => opt_Z_eqb None (cat_id c)) l = [].
Proof. induction l as [|c l IH]; [reflexivity | exact IH]. Qed.

(** With ids that are unique (the PRIMARY KEY of the categories table)
    the join gives each transaction one row, flagged as its category is
    in the table. *)
Lemma left_join_unique (d : DB) (t : Transaction) :
  NoDup (map cat_id (categories d)) ->
  left_join (categories d) t = [mkRow t (flag_of d t)].
Proof.
  intros Hn. unfold left_join, flag_of, category_of.
  destruct (category_id t) as [c|]; [|rewrite null_category_joins_none; reflexivity].
  destruct (find (fun k => (cat_id k =? c)%Z) (categories d)) as [k|] eqn:E.
  - apply find_some in E. destruct E as [Hin Hk]. apply Z.eqb_eq in Hk. subst c.
    rewrite (single_match (categories d) k Hn Hin). reflexivity.
  - rewrite no_category_joins; [reflexivity|].
    intros k Hin Hk. pose proof (find_none _ _ E k Hin) as Hf. cbn beta in Hf.
    rewrite Hk, Z.eqb_refl in Hf. discriminate Hf.
Qed.

Lemma left_join_row (cs : list Category) (t : Transaction) (r : SummaryRow) :
  In r (left_join cs t) -> row r = t.
Proof.
  unfold left_join. destruct (filter _ cs) as [|c ms] eqn:E.
  - intros [<-|[]]. reflexivity.
  - rewrite <- E. intros H. apply in_map_iff in H.
    destruct H as (c' & <- & _). reflexivity.
Qed.

(** Whatever the ids, a row of the join carries the flag of a category
    of its transaction, or none. *)
Lemma left_join_joined (d : DB) (t : Transaction) (r : SummaryRow) :
  In r (left_join (categories d) t) -> row r = t /\ joined_to d r.
Proof.
  intros Hr. pose proof (left_join_row _ _ _ Hr) as Er. split; [exact Er|].
  unfold joined_to. rewrite Er. unfold left_join in Hr.
  destruct (filter (fun c => opt_Z_eqb (category_id t) (cat_id c)) (categories d))
    as [|k0 ms] eqn:E.
  - destruct Hr as [<-|[]]. cbn [cat_fixed].
    destruct (category_id t) as [c|]; [|reflexivity].
    right. split; [|reflexivity]. intros k Hk Ek.
    assert (Hin : In k []).
    { rewrite <- E. apply filter_In. split; [exact Hk|].
      cbn [opt_Z_eqb]. rewrite Ek. apply Z.eqb_refl. }
    destruct Hin.
  - rewrite <- E in Hr. apply in_map_iff in Hr. destruct Hr as (k & <- & Hk).
    apply filter_In in Hk. destruct Hk as [Hin Hm]. cbn [cat_fixed].
    destruct (category_id t) as [c|]; [|discriminate Hm].
    cbn [opt_Z_eqb] in Hm. apply Z.eqb_eq in Hm.
    left. exists k. repeat split; [exact Hin | symmetry; exact Hm].
Qed.

Lemma month_rows_joined (w : World) (r : SummaryRow) :
  In r (month_rows w) -> In (row r) (month_transactions w) /\ joined_to (db w) r.
Proof.
  unfold month_rows. intros Hr. apply in_flat_map in Hr. destruct Hr as (t & Ht & Hr).
  destruct (left_join_joined (db w) t r Hr) as [Er Hj].
  split; [rewrite Er; exact Ht | exact Hj].
Qed.

Lemma month_rows_unique (w : World) :
  NoDup (map cat_id (categories (db w))) ->
  month_rows w = map (fun t => mkRow t (flag_of (db w) t)) (month_transactions w).
Proof.
  intros Hn. unfold month_rows, month_transactions.
  induction (filter _ (transactions (db w))) as [|t l IH]; [reflexivity|].
  cbn [flat_map map]. rewrite IH, (left_join_unique (db w) t Hn). reflexivity.
Qed.

(** A sum over the rows of a class is the sum over the transactions of
    that class. *)
Lemma sum_over_rows (f : Transaction -> option Z) (g : SummaryRow -> Q)
    (p : SummaryRow -> bool) (l : list Transaction) :
  sumQ (map g (filter p (map (fun t => mkRow t (f t)) l)))
  = sumQ (map (fun t => g (mkRow t (f t)))
              (filter (fun t => p (mkRow t (f t))) l)).
Proof.
  induction l as [|t l IH]; [reflexivity|]. cbn [map filter].
  destruct (p (mkRow t (f t))); cbn [map]; unfold sumQ in *; cbn [fold_right];
    rewrite ?IH; reflexivity.
Qed.

End Summary.

(** C1 (budget identity).  With the store answering, [monthSummary]
    returns a summary in which income is the sum of the amounts of the
    income rows of the month, expense the sum of the absolute amounts of
    the expense rows, fixedSpent the part of it whose joined category is
    flagged fixed and variableSpent the rest (no category, or one not
    flagged); savings = income - expense and
    fixedSpent + variableSpent = expense.  The rows are those of the
    query: each is a transaction of the month, flagged with the is_fixed
    of a category that has its category_id, or not flagged when no
    category has.  With the ids of the categories unique, as their
    PRIMARY KEY has them, each transaction of the month is one row, and
    the four sums run over the transactions: fixedSpent over the expenses whose
    category, looked up in the categories table, has is_fixed = 1, and
    variableSpent over the expenses with no category, with a
    category_id that no category has, or with a category whose is_fixed
    is not 1. *)
Theorem monthSummary_budget_identity (w : World) :
  calm 2 w = true ->
  exists s : Summary,
    fst (monthSummary w) = Ok s /\
    income s == sumQ (map amount_of (filter (is_kind "income") (month_rows w))) /\
    expense s == sumQ (map abs_amount (filter (is_kind "expense") (month_rows w))) /\
    fixedSpent s ==
      sumQ (map abs_amount
              (filter (fun r => is_kind "expense" r && in_fixed_category r)
                      (month_rows w))) /\
    variableSpent s ==
      sumQ (map abs_amount
              (filter (fun r => is_kind "expense" r && negb (in_fixed_category r))
                      (month_rows w))) /\
    savings s == income s - expense s /\
    fixedSpent s + variableSpent s == expense s /\
    (forall r, In r (month_rows w) ->
               In (row r) (month_transactions w) /\ joined_to (db w) r) /\
    (NoDup (map cat_id (categories (db w))) ->
     income s == sumQ (map amount (filter is_income (month_transactions w))) /\
     expense s == sumQ (map magnitude (filter is_expense (month_transactions w))) /\
     fixedSpent s
     == sumQ (map magnitude (filter (fixed_expense (db w)) (month_transactions w))) /\
     variableSpent s
     == sumQ (map magnitude (filter (variable_expense (db w)) (month_transactions w)))).
Proof.
  intros Hc. rewrite (monthSummary_calm w Hc). eexists; split; [reflexivity|].
  cbn [income expense fixedSpent variableSpent savings finish].
  destruct (totals_sums (month_rows w)) as (Hi & He & Hf & Hv).
  repeat (split; [first [assumption | reflexivity]|]).
  split; [|split].
  - apply (fold_add_row_split (month_rows w) (mkTotals 0 0 0 0)).
    cbn [t_income t_expense t_fixedSpent t_variableSpent]. ring.
  - exact (month_rows_joined w).
  - intros Hn. rewrite Hi, He, Hf, Hv, (month_rows_unique w Hn).
    rewrite !sum_over_rows. repeat split; reflexivity.
Qed.

(** The example month with the internet bill and the bread: the bill,
    under category 2, counts as fixed with the rent, and the bread, under
    no category, as variable with the market. *)
Lemma monthSummary_budget_identity_witness :
  calm 2 busy_march = true /\
  NoDup (map cat_id (categories (db busy_march))) /\
  map (fixed_expense (db busy_march)) (month_transactions busy_march)
  = [false; true; false; true; false] /\
  map (variable_expense (db busy_march)) (month_transactions busy_march)
  = [false; false; true; false; true] /\
  exists s : Summary,
    fst (monthSummary busy_march) = Ok s /\
    income s == 5000 /\ expense s == 1619.90 /\ fixedSpent s == 1299.90 /\
    variableSpent s == 320 /\ savings s == 3380.10 /\
    fixedSpent s + variableSpent s == expense s.
Proof.
  assert (N : NoDup (map cat_id (categories (db busy_march)))).
  { repeat (constructor; [cbn; intuition discriminate|]); constructor. }
  split; [reflexivity|]. split; [exact N|].
  split; [reflexivity|]. split; [reflexivity|].
  destruct (monthSummary_budget_identity busy_march)
    as (s & Hs & _ & _ & _ & _ & Hsav & Hsplit & _ & Hsums); [reflexivity|].
  destruct (Hsums N) as (Hi & He & Hf & Hv).
  exists s. split; [exact Hs|].
  rewrite Hsav, Hi, He, Hf, Hv. vm_compute. repeat split.
Defined.

(** The budget lines of [finish], for any totals and any Y. *)
Lemma finish_budget (a : Totals) (y : Q) :
  variableBudget (finish a y) = Qmax 0 (t_income a - y) /\
  0 <= variableBudget (finish a y) /\
  (t_income a <= y -> variableBudget (finish a y) == 0) /\
  (y <= t_income a -> variableBudget (finish a y) == t_income a - y) /\
  variableRemaining (finish a y) = variableBudget (finish a y) - t_variableSpent a.
Proof.
  cbn [variableBudget variableRemaining finish]. unfold JS.max0.
  repeat split.
  - apply Q.le_max_l.
  - intros H. apply Q.max_l. lra.
  - intros H. apply Q.max_r. lra.
Qed.

(** C2 (variable budget).  With the store answering, the summary has
    variableBudget = max(0, income - Y): never negative, 0 when Y is at
    least the income, income - Y otherwise (so above the income when Y is
    negative); and variableRemaining = variableBudget - variableSpent,
    which is negative as soon as the spending exceeds the budget. *)
Theorem monthSummary_variable_budget (w : World) :
  calm 2 w = true ->
  exists s : Summary,
    fst (monthSummary w) = Ok s /\
    variableBudget s = Qmax 0 (income s - Y s) /\
    0 <= variableBudget s /\
    (income s <= Y s -> variableBudget s == 0) /\
    (Y s <= income s -> variableBudget s == income s - Y s) /\
    variableRemaining s = variableBudget s - variableSpent s /\
    (variableBudget s < variableSpent s -> variableRemaining s < 0).
Proof.
  intros Hc. rewrite (monthSummary_calm w Hc). eexists; split; [reflexivity|].
  match goal with |- context [finish ?a ?y] =>
    destruct (finish_budget a y) as (Hb & H0 & Hz & Hd & Hr) end.
  cbn [income Y variableSpent finish] in *.
  repeat split; try assumption.
  intros Hlt. cbn [variableRemaining variableBudget finish] in *. lra.
Qed.

(** The example month with Y = 9000, above the income: the budget is 0
    and the remainder -300. *)
Lemma monthSummary_variable_budget_witness :
  calm 2 (sample_world [(budget_key, "9000")]) = true /\
  exists s : Summary,
    fst (monthSummary (sample_world [(budget_key, "9000")])) = Ok s /\
    income s == 5000 /\ Y s == 9000 /\
    variableBudget s == 0 /\ variableRemaining s == - (300) /\
    variableRemaining s < 0.
Proof.
  split; [reflexivity|].
  destruct (monthSummary_variable_budget (sample_world [(budget_key, "9000")]))
    as (s & Hs & Hb & H0 & Hz & Hd & Hr & Hneg); [reflexivity|].
  exists s. split; [exact Hs|].
  injection Hs as <-. vm_compute. repeat split.
Defined.

(** A negative Y raises the budget above the income. *)
Example negative_Y_raises_budget :
  exists s : Summary,
    fst (monthSummary (sample_world [(budget_key, "-100")])) = Ok s /\
    Y s == - (100) /\ variableBudget s == 5100.
Proof. eexists; split; [reflexivity|]. vm_compute. split; reflexivity. Qed.

(** Rows of kind transfer leave the accumulators as they are. *)
Lemma add_row_transfer (a : Totals) (r : SummaryRow) :
  kind (row r) = "transfer" -> add_row a r = a.
Proof. intros H. unfold add_row. rewrite H. reflexivity. Qed.

Lemma fold_add_row_transfers (rows : list SummaryRow) (a : Totals) :
  (forall r, In r rows -> kind (row r) = "transfer") ->
  fold_left add_row rows a = a.
Proof.
  revert a. induction rows as [|r rows IH]; intros a H; [reflexivity|].
  cbn [fold_left]. rewrite (add_row_transfer a r) by (apply H; left; reflexivity).
  apply IH. intros r' Hr'. apply H. right. exact Hr'.
Qed.

Lemma totals_extra_transfer (cs : list Category) (p : Transaction -> bool)
    (l1 l2 : list Transaction) (t : Transaction) :
  kind t = "transfer" ->
  totals (flat_map (left_join cs) (filter p (l1 ++ t :: l2)%list)) =
  totals (flat_map (left_join cs) (filter p (l1 ++ l2)%list)).
Proof.
  intros Hk. unfold totals.
  rewrite !filter_app, !flat_map_app, !fold_left_app. cbn [filter].
  destruct (p t); [|reflexivity].
  cbn [flat_map]. rewrite fold_left_app. f_equal.
  apply fold_add_row_transfers. intros r Hr.
  rewrite (left_join_row _ _ _ Hr). exact Hk.
Qed.

(** C10 (transfers).  Adding a transaction of kind transfer to the
    table, at any position and with any date, inside the month or not,
    leaves what [monthSummary] returns unchanged: every field of the
    summary, and a failure when the store fails. *)
Theorem monthSummary_ignores_transfer
    (w : World) (l1 l2 : list Transaction) (t : Transaction) :
  transactions (db w) = (l1 ++ l2)%list ->
  kind t = "transfer" ->
  fst (monthSummary (with_extra w l1 t l2)) = fst (monthSummary w).
Proof.
  intros Hl Hk. destruct (calm 2 w) eqn:Hc.
  - rewrite (monthSummary_calm w Hc).
    rewrite (monthSummary_calm (with_extra w l1 t l2)) by exact Hc.
    cbn [fst]. do 2 f_equal.
    unfold month_rows, with_extra. cbn [db clock transactions categories with_transactions].
    rewrite Hl. apply totals_extra_transfer. exact Hk.
  - rewrite (monthSummary_throws w Hc).
    apply (monthSummary_throws (with_extra w l1 t l2)). exact Hc.
Qed.

(** A transfer of 750.00 dated 10 March joins the example month. *)
Lemma monthSummary_ignores_transfer_witness :
  let t := mkTransaction 4 "2024-03-10" "Poupança" (-750) "transfer" 1 None "" in
  let w := sample_world [(budget_key, "1200")] in
  in_range "2024-03-01" "2024-03-31" t = true /\
  fst (monthSummary (with_extra w march_transactions t [])) = fst (monthSummary w).
Proof.
  split; [reflexivity|].
  apply (monthSummary_ignores_transfer
           (sample_world [(budget_key, "1200")]) march_transactions []
           (mkTransaction 4 "2024-03-10" "Poupança" (-750) "transfer" 1 None ""));
    reflexivity.
Defined.

(* ================================================================== *)
(** * Reading the budget setting *)
(* ================================================================== *)

Section Numerals.

Lemma digit_not_space (c : ascii) : JS.is_digit c = true -> JS.is_space c = false.
Proof.
  destruct c as [[] [] [] [] [] [] [] []]; cbv; intros H;
    first [reflexivity | discriminate H].
Qed.

Lemma digit_not_sign (c : ascii) (s : string) :
  JS.is_digit c = true -> JS.take_sign (String c s) = (false, String c s).
Proof.
  destruct c as [[] [] [] [] [] [] [] []]; cbv; intros H;
    first [reflexivity | discriminate H].
Qed.

Lemma digit_not_point (c : ascii) : JS.is_digit c = true -> Ascii.eqb c "." = false.
Proof.
  destruct c as [[] [] [] [] [] [] [] []]; cbv; intros H;
    first [reflexivity | discriminate H].
Qed.

(** The word Infinity does not start with a digit. *)
Lemma digit_not_Infinity (c : ascii) (s : string) :
  JS.is_digit c = true ->
  String.prefix "Infinity" (String c s) = false /\ (String c s =? "Infinity") = false.
Proof.
  destruct c as [[] [] [] [] [] [] [] []]; cbv [JS.is_digit nat_of_ascii]; intros H;
    first [discriminate H | split; reflexivity].
Qed.

Lemma span_digits_end (ds : string) :
  all_digits ds = true -> JS.span JS.is_digit ds = (ds, "").
Proof.
  induction ds as [|c ds IH]; cbn [all_digits JS.span]; [reflexivity|].
  intros H. apply andb_true_iff in H. destruct H as [Hc Hd].
  rewrite Hc, (IH Hd). reflexivity.
Qed.

Lemma span_digits_point (ds rest : string) :
  all_digits ds = true ->
  JS.span JS.is_digit (ds ++ String "." rest) = (ds, String "." rest).
Proof.
  induction ds as [|c ds IH]; cbn [all_digits JS.span String.append].
  - reflexivity.
  - intros H. apply andb_true_iff in H. destruct H as [Hc Hd].
    rewrite Hc, (IH Hd). reflexivity.
Qed.

Lemma append_empty (s : string) : s ++ "" = s.
Proof. induction s as [|c s IH]; cbn; [reflexivity | now rewrite IH]. Qed.

Lemma pow10_neg (n : nat) (z : Z) :
  inject_Z z * JS.pow10 (- Z.of_nat n) == inject_Z z / inject_Z (10 ^ Z.of_nat n).
Proof.
  unfold JS.pow10. rewrite Qpower_opp.
  change 10%Q with (inject_Z 10). rewrite <- Zpower_Qpower by lia.
  reflexivity.
Qed.

(** What [take_decimal] reads from the unsigned part of a numeral. *)
Lemma take_decimal_numeral (ip : string) (fr : option string) :
  JS.nonempty ip = true -> all_digits ip = true ->
  match fr with Some f => all_digits f | None => true end = true ->
  exists q,
    JS.take_decimal (ip ++ match fr with Some f => "." ++ f | None => "" end)
      = Some (q, "") /\
    q == numeral_value (mkNumeral false ip fr).
Proof.
  intros Hne Hip Hfr. unfold JS.take_decimal, numeral_value.
  cbn [n_negative n_integer n_fraction].
  destruct fr as [f|].
  - cbn [String.append]. rewrite (span_digits_point ip f Hip).
    rewrite (span_digits_end f Hfr), Hne. cbn [orb JS.take_exponent].
    eexists; split; [reflexivity|].
    rewrite pow10_neg. unfold JS.pow10. cbn [Qpower]. ring.
  - rewrite append_empty, (span_digits_end ip Hip), Hne.
    cbn [JS.take_exponent].
    eexists; split; [reflexivity|].
    change (JS.digits_value "") with 0%Z.
    unfold JS.pow10. cbn [String.length Z.of_nat Z.opp Qpower].
    change (inject_Z 0) with 0. change (inject_Z (10 ^ 0)) with 1.
    field.
Qed.

(** No white space of two or three bytes starts with a byte of ASCII. *)
Lemma ascii_not_space2 (a b : ascii) :
  (nat_of_ascii a <? 128)%nat = true -> JS.is_space2 a b = false.
Proof.
  intros H. apply Nat.ltb_lt in H. unfold JS.is_space2.
  replace (nat_of_ascii a =? 194)%nat with false
    by (symmetry; apply Nat.eqb_neq; lia).
  reflexivity.
Qed.

Lemma ascii_not_space3 (a b c : ascii) :
  (nat_of_ascii a <? 128)%nat = true -> JS.is_space3 a b c = false.
Proof.
  intros H. apply Nat.ltb_lt in H. unfold JS.is_space3. cbv zeta.
  repeat match goal with
         | |- context [(nat_of_ascii a =? ?k)%nat] =>
             replace (nat_of_ascii a =? k)%nat with false
               by (symmetry; apply Nat.eqb_neq; lia)
         end.
  reflexivity.
Qed.

Lemma digit_ascii (c : ascii) :
  JS.is_digit c = true -> (nat_of_ascii c <? 128)%nat = true.
Proof.
  destruct c as [[] [] [] [] [] [] [] []]; cbv; intros H;
    first [reflexivity | discriminate H].
Qed.

Lemma trimStart_nonspace (c : ascii) (s : string) :
  JS.is_space c = false -> (nat_of_ascii c <? 128)%nat = true ->
  JS.trimStart (String c s) = String c s.
Proof.
  intros H A. cbn [JS.trimStart]. rewrite H.
  destruct s as [|b [|d s]]; [reflexivity | |].
  - rewrite (ascii_not_space2 c b A). reflexivity.
  - rewrite (ascii_not_space2 c b A), (ascii_not_space3 c b d A). reflexivity.
Qed.

Lemma take_sign_minus (s : string) : JS.take_sign (String "-" s) = (true, s).
Proof. reflexivity. Qed.

(** [parseFloat] reads a well-formed numeral whole. *)
Lemma parseFloat_numeral (n : Numeral) :
  well_formed n = true ->
  exists q, JS.parseFloat (render n) = JS.Num q /\ q == numeral_value n.
Proof.
  destruct n as [ng ip fr]. unfold well_formed, render.
  cbn [n_negative n_integer n_fraction]. intros H.
  apply andb_true_iff in H. destruct H as [H Hfr].
  apply andb_true_iff in H. destruct H as [Hne Hip].
  destruct (take_decimal_numeral ip fr Hne Hip Hfr) as (q & Hq & Hv).
  destruct ip as [|c ip]; [discriminate Hne|].
  cbn [all_digits] in Hip. apply andb_true_iff in Hip. destruct Hip as [Hc _].
  unfold JS.parseFloat. destruct ng.
  - cbn [String.append] in Hq |- *.
    rewrite trimStart_nonspace by reflexivity.
    rewrite take_sign_minus, (proj1 (digit_not_Infinity c _ Hc)), Hq.
    exists (- q). split; [reflexivity|].
    unfold numeral_value in *. cbn [n_negative n_integer n_fraction] in *.
    rewrite Hv. reflexivity.
  - cbn [String.append] in Hq |- *.
    rewrite (trimStart_nonspace c _ (digit_not_space c Hc) (digit_ascii c Hc)).
    rewrite (digit_not_sign c _ Hc), (proj1 (digit_not_Infinity c _ Hc)), Hq.
    exists q. split; [reflexivity|]. exact Hv.
Qed.

Lemma take_decimal_none (t : string) :
  match t with
  | String c r =>
      negb (JS.is_digit c)
      && negb (Ascii.eqb c "." &&
               match r with String c' _ => JS.is_digit c' | EmptyString => false end)
  | EmptyString => true
  end = true ->
  JS.take_decimal t = None.
Proof.
  destruct t as [|c r]; [reflexivity|].
  intros H. apply andb_true_iff in H. destruct H as [Hc Hp].
  apply negb_true_iff in Hc, Hp.
  unfold JS.take_decimal. cbn [JS.span]. rewrite Hc.
  destruct (Ascii.eqb c ".") eqn:E.
  - apply Ascii.eqb_eq in E. subst c. cbn [andb] in Hp.
    destruct r as [|c' r]; [reflexivity|].
    cbn [JS.span]. rewrite Hp. reflexivity.
  - destruct c as [[] [] [] [] [] [] [] []];
      first [discriminate E | reflexivity].
Qed.

(** [parseFloat] finds nothing to read when no numeral starts the
    string. *)
Lemma parseFloat_no_numeral (s : string) :
  no_leading_numeral s = true -> JS.parseFloat s = JS.NaN.
Proof.
  unfold no_leading_numeral, JS.parseFloat.
  destruct (JS.take_sign (JS.trimStart s)) as [ng t]. cbn [snd].
  intros H. apply andb_true_iff in H. destruct H as [Hi H].
  apply negb_true_iff in Hi. rewrite Hi, (take_decimal_none t H). reflexivity.
Qed.

Lemma append_assoc (a b c : string) : (a ++ b) ++ c = a ++ (b ++ c).
Proof. induction a as [|x a IH]; cbn; [reflexivity | now rewrite IH]. Qed.

(** Leading white space is skipped, whatever its width. *)
Lemma blank_trimStart (lead s : string) :
  JS.blank lead = true -> JS.trimStart (lead ++ s) = JS.trimStart s.
Proof.
  assert (H : forall n lead, (String.length lead <= n)%nat -> JS.blank lead = true ->
                             JS.trimStart (lead ++ s) = JS.trimStart s).
  { induction n as [|n IH]; intros l Hl Hb.
    - destruct l; [reflexivity | cbn in Hl; lia].
    - destruct l as [|a l1]; [reflexivity|].
      cbn [String.length] in Hl. cbn [JS.blank] in Hb.
      cbn [String.append JS.trimStart].
      destruct (JS.is_space a); [apply IH; [lia | exact Hb]|].
      destruct l1 as [|b l2]; [discriminate Hb|].
      cbn [String.length] in Hl. cbn [String.append].
      destruct (JS.is_space2 a b); [apply IH; [lia | exact Hb]|].
      destruct l2 as [|c l3]; [discriminate Hb|].
      cbn [String.length] in Hl. cbn [String.append].
      apply andb_true_iff in Hb. destruct Hb as [H3 Hb]. rewrite H3.
      apply IH; [lia | exact Hb]. }
  apply (H (String.length lead)). lia.
Qed.

Lemma span_digits_rest (ds rest : string) :
  all_digits ds = true ->
  match rest with String c _ => JS.is_digit c = false | EmptyString => True end ->
  JS.span JS.is_digit (ds ++ rest) = (ds, rest).
Proof.
  intros Hd Hr. induction ds as [|c ds IH]; cbn [all_digits String.append] in *.
  - destruct rest as [|c r]; [reflexivity|]. cbn [JS.span]. rewrite Hr. reflexivity.
  - apply andb_true_iff in Hd. destruct Hd as [Hc Hd].
    cbn [JS.span]. rewrite Hc, (IH Hd). reflexivity.
Qed.

Lemma ends_numeral_facts (rest : string) :
  ends_numeral rest = true ->
  match rest with String c _ => JS.is_digit c = false | EmptyString => True end /\
  JS.take_exponent rest = (0%Z, rest) /\
  forall (A : Type) (f : string -> A) (b : A),
    match rest with String "." r => f r | _ => b end = b.
Proof.
  destruct rest as [|c r]; [repeat split|].
  cbn [ends_numeral]. intros H. apply negb_true_iff in H.
  apply orb_false_iff in H. destruct H as [H HE].
  apply orb_false_iff in H. destruct H as [H He].
  apply orb_false_iff in H. destruct H as [Hd Hp].
  split; [exact Hd|]. split.
  - unfold JS.take_exponent. rewrite He, HE. reflexivity.
  - intros A f b.
    destruct c as [[] [] [] [] [] [] [] []]; first [discriminate Hp | reflexivity].
Qed.

(** What [take_decimal] reads at the head of a string: the numeral, up
    to where nothing continues it. *)
Lemma take_decimal_head (ip : string) (fr : option string) (rest : string) :
  JS.nonempty ip = true -> all_digits ip = true ->
  match fr with Some f => all_digits f | None => true end = true ->
  ends_numeral rest = true ->
  exists q,
    JS.take_decimal ((ip ++ match fr with Some f => "." ++ f | None => "" end) ++ rest)
      = Some (q, rest) /\
    q == numeral_value (mkNumeral false ip fr).
Proof.
  intros Hne Hip Hfr Hr.
  destruct (ends_numeral_facts rest Hr) as (Hd & Hx & Hp).
  unfold JS.take_decimal, numeral_value.
  cbn [n_negative n_integer n_fraction].
  destruct fr as [f|].
  - rewrite append_assoc. cbn [String.append].
    rewrite (span_digits_point ip (f ++ rest) Hip).
    rewrite (span_digits_rest f rest Hfr Hd), Hne. cbn [orb]. rewrite Hx.
    eexists; split; [reflexivity|].
    rewrite pow10_neg. unfold JS.pow10. cbn [Qpower]. ring.
  - rewrite append_empty, (span_digits_rest ip rest Hip Hd).
    rewrite (Hp _ (fun r => let (fp, r2) := JS.span JS.is_digit r in
                             if JS.nonempty ip || JS.nonempty fp then (fp, r2, true)
                             else ("", rest, false))
                ("", rest, JS.nonempty ip)).
    rewrite Hne, Hx.
    eexists; split; [reflexivity|].
    change (JS.digits_value "") with 0%Z.
    unfold JS.pow10. cbn [String.length Z.of_nat Z.opp Qpower].
    change (inject_Z 0) with 0. change (inject_Z (10 ^ 0)) with 1.
    field.
Qed.

(** [parseFloat] reads the numeral at the head of the string, after any
    white space, and stops where it ends. *)
Lemma parseFloat_head (lead : string) (n : Numeral) (rest : string) :
  JS.blank lead = true -> well_formed n = true -> ends_numeral rest = true ->
  exists q, JS.parseFloat (lead ++ render n ++ rest) = JS.Num q /\ q == numeral_value n.
Proof.
  destruct n as [ng ip fr]. unfold well_formed, render.
  cbn [n_negative n_integer n_fraction]. intros Hl H Hr.
  apply andb_true_iff in H. destruct H as [H Hfr].
  apply andb_true_iff in H. destruct H as [Hne Hip].
  destruct (take_decimal_head ip fr rest Hne Hip Hfr Hr) as (q & Hq & Hv).
  unfold JS.parseFloat. rewrite (blank_trimStart lead _ Hl).
  rewrite !append_assoc. rewrite <- (append_assoc ip).
  destruct ip as [|c ip]; [discriminate Hne|].
  cbn [all_digits] in Hip. apply andb_true_iff in Hip. destruct Hip as [Hc _].
  destruct ng.
  - cbn [String.append] in Hq |- *.
    rewrite trimStart_nonspace by reflexivity.
    rewrite take_sign_minus, (proj1 (digit_not_Infinity c _ Hc)), Hq.
    exists (- q). split; [reflexivity|].
    unfold numeral_value in *. cbn [n_negative n_integer n_fraction] in *.
    rewrite Hv. reflexivity.
  - cbn [String.append] in Hq |- *.
    rewrite (trimStart_nonspace c _ (digit_not_space c Hc) (digit_ascii c Hc)).
    rewrite (digit_not_sign c _ Hc), (proj1 (digit_not_Infinity c _ Hc)), Hq.
    exists q. split; [reflexivity|]. exact Hv.
Qed.

End Numerals.

Lemma or_zero_Num (q : Q) : JS.or_zero (JS.Num q) == q.
Proof.
  unfold JS.or_zero. destruct (Qeq_bool q 0) eqn:E; [|reflexivity].
  apply Qeq_bool_iff in E. symmetry. exact E.
Qed.

Lemma Y_of_setting_head (lead : string) (n : Numeral) (rest : string) :
  JS.blank lead = true -> well_formed n = true -> ends_numeral rest = true ->
  Y_of_setting (lead ++ render n ++ rest) == numeral_value n.
Proof.
  intros Hl Hn Hr. unfold Y_of_setting.
  destruct (parseFloat_head lead n rest Hl Hn Hr) as (q & -> & Hq).
  rewrite or_zero_Num. exact Hq.
Qed.

Lemma Y_of_setting_none (sv : string) :
  no_leading_numeral sv = true -> Y_of_setting sv == 0.
Proof.
  intros H. unfold Y_of_setting. rewrite (parseFloat_no_numeral sv H). reflexivity.
Qed.

(** X28.  What Y is, from the stored string.  With the store answering,
    [monthSummary] returns a summary, setting or no setting.  Its Y is 0
    when the settings table has no fixed-monthly-budget row, and 0 when
    the stored string starts with no numeral.  When the stored string
    starts, after any white space, with a decimal numeral (optional
    minus sign, digits, optional point and digits) in the range of
    doubles, Y is the number the numeral denotes, whatever follows it
    that does not continue it. *)
Theorem monthSummary_Y_of_setting (w : World) :
  calm 2 w = true ->
  exists s : Summary,
    fst (monthSummary w) = Ok s /\
    match stored budget_key (db w) with
    | None => Y s == 0
    | Some sv =>
        (no_leading_numeral sv = true -> Y s == 0) /\
        (forall (lead : string) (n : Numeral) (rest : string),
            JS.blank lead = true -> well_formed n = true ->
            ends_numeral rest = true -> double_range (numeral_value n) ->
            sv = lead ++ render n ++ rest -> Y s == numeral_value n)
    end.
Proof.
  intros Hc. rewrite (monthSummary_calm w Hc). eexists; split; [reflexivity|].
  cbn [Y finish]. destruct (stored budget_key (db w)) as [sv|].
  - split.
    + apply Y_of_setting_none.
    + intros lead n rest Hl Hn Hr _ ->. apply Y_of_setting_head; assumption.
  - reflexivity.
Qed.

(** The setting " 1200.50 reais" gives Y = 1200.5. *)
Lemma monthSummary_Y_of_setting_witness :
  calm 2 (sample_world [(budget_key, " 1200.50 reais")]) = true /\
  JS.blank " " = true /\
  well_formed (mkNumeral false "1200" (Some "50")) = true /\
  ends_numeral " reais" = true /\
  double_range (numeral_value (mkNumeral false "1200" (Some "50"))) /\
  exists s : Summary,
    fst (monthSummary (sample_world [(budget_key, " 1200.50 reais")])) = Ok s /\
    Y s == 1200.5.
Proof.
  assert (R : double_range (numeral_value (mkNumeral false "1200" (Some "50")))).
  { split; [|right]; vm_compute; reflexivity. }
  split; [reflexivity|]. split; [reflexivity|]. split; [reflexivity|].
  split; [reflexivity|]. split; [exact R|].
  destruct (monthSummary_Y_of_setting (sample_world [(budget_key, " 1200.50 reais")]))
    as (s & Hs & Hy); [reflexivity|].
  exists s. split; [exact Hs|].
  cbn in Hy. destruct Hy as [_ Hy].
  rewrite (Hy " " (mkNumeral false "1200" (Some "50")) " reais"
              eq_refl eq_refl eq_refl R eq_refl).
  reflexivity.
Defined.

(** C5 (the budget setting), where the program departs from it.  The
    settings screen, whose placeholder is "0,00", stores "1200,50" as it
    is typed.  The forms that take an amount read such a text as 1200.5:
    they replace the comma before they convert.  [monthSummary] does
    not: [parseFloat] stops at the comma and Y is 1200, which is neither
    the value the program itself gives the text elsewhere nor the 0 of a
    string that is not a number as a whole. *)
Theorem monthSummary_Y_stops_at_comma :
  stored budget_key (db (exec (Config_save "1200,50") (sample_world [])))
  = Some "1200,50" /\
  (exists q, amount_of_input "1200,50" = JS.Num q /\ q == 1200.5) /\
  JS.Number_of_string "1200,50" = JS.NaN /\
  exists s : Summary,
    fst (monthSummary (exec (Config_save "1200,50") (sample_world []))) = Ok s /\
    Y s == 1200 /\ ~ Y s == 1200.5 /\ ~ Y s == 0.
Proof.
  split; [reflexivity|]. split; [eexists; split; reflexivity|]. split; [reflexivity|].
  eexists. split; [reflexivity|]. split; [reflexivity|].
  split; intros H; discriminate H.
Qed.

(** What the settings screen saves is what the summary reads next. *)
Lemma stored_after_upsert (key value : string) (d d' : DB) :
  upsert_setting key value d = Done tt d' -> stored key d' = Some value.
Proof.
  unfold upsert_setting, stored. intros H. injection H as <-. cbn [settings].
  induction (settings d) as [|kv l IH].
  - cbn. rewrite String.eqb_refl. reflexivity.
  - cbn [existsb]. destruct (fst kv =? key) eqn:E.
    + cbn [orb map filter]. rewrite E. cbn [fst filter]. rewrite String.eqb_refl.
      reflexivity.
    + cbn [orb]. destruct (existsb _ l) eqn:Ex.
      * cbn [map filter]. rewrite E. cbn [filter]. rewrite E. exact IH.
      * cbn [app filter]. rewrite E. exact IH.
Qed.

(** Without the setting the summary is still returned, with Y = 0. *)
Example missing_setting_is_no_error :
  exists s : Summary,
    fst (monthSummary (sample_world [])) = Ok s /\ Y s == 0 /\
    variableBudget s == 5000.
Proof. eexists. split; [reflexivity|]. split; reflexivity. Qed.

(* ================================================================== *)
(** * The recurrence generator *)
(* ================================================================== *)

Section Generator.

Variables accId y m : Z.

(** The body of the loop of [generateMonth]. *)
Let body (it : FixedItem) : M unit :=
  execSql (insert_transaction (fixed_tdate y m (it_day it)) (it_name it)
             (JS.neg (JS.abs (JS.Num (it_amount it))))
             "expense" accId (it_category_id it) "fixo").

Lemma insert_generated_done (it : FixedItem) (d : DB) :
  insert_transaction (fixed_tdate y m (it_day it)) (it_name it)
    (JS.neg (JS.abs (JS.Num (it_amount it))))
    "expense" accId (it_category_id it) "fixo" d
  = Done tt (insert_generated accId y m d it).
Proof. reflexivity. Qed.

Lemma for_of_app {A} (l1 l2 : list A) (f : A -> M unit) (w : World) :
  for_of (l1 ++ l2)%list f w =
  match for_of l1 f w with
  | (Ok _, w') => for_of l2 f w'
  | (Throw e, w') => (Throw e, w')
  end.
Proof.
  revert w. induction l1 as [|x l1 IH]; intros w; [reflexivity|].
  cbn [for_of app]. unfold bind.
  destruct (f x w) as [[[]|e] w1]; [apply IH | reflexivity].
Qed.

(** While the store answers, the loop appends one row per template. *)
Lemma loop_calm (items : list FixedItem) (w : World) :
  calm (List.length items) w = true ->
  for_of items body w =
    (Ok tt, mkWorld (append_generated accId y m items (db w))
                    (skipn (List.length items) (faults w)) (alerts w) (clock w)).
Proof.
  revert w. induction items as [|it items IH]; intros w Hc.
  - destruct w; reflexivity.
  - cbn [for_of]. unfold bind, body at 1, execSql.
    rewrite insert_generated_done.
    destruct w as [d fs al ck]. cbn [faults db alerts clock] in *.
    unfold calm in Hc. cbn [faults List.length firstn] in Hc.
    destruct fs as [|[|] fs]; cbn [forallb negb andb firstn] in Hc;
      try discriminate Hc.
    + rewrite IH by (unfold calm; cbn; destruct (List.length items); reflexivity).
      cbn. destruct (List.length items); reflexivity.
    + rewrite IH by exact Hc. reflexivity.
Qed.

(** A failure of the store at one template stops the loop there. *)
Lemma loop_fault (items1 items2 : list FixedItem) (it : FixedItem)
    (fs : list bool) (w : World) :
  faults w = (repeat false (List.length items1) ++ true :: fs)%list ->
  for_of (items1 ++ it :: items2)%list body w =
    (Throw SqlError,
     mkWorld (append_generated accId y m items1 (db w)) fs (alerts w) (clock w)).
Proof.
  intros Hf. rewrite for_of_app, loop_calm.
  - cbn [for_of]. unfold bind, body at 1, execSql.
    cbn [faults db alerts clock]. rewrite Hf.
    rewrite skipn_app, repeat_length, Nat.sub_diag, skipn_all2
      by (rewrite repeat_length; reflexivity).
    reflexivity.
  - unfold calm. rewrite Hf, firstn_app, repeat_length, Nat.sub_diag.
    rewrite firstn_all2 by (rewrite repeat_length; reflexivity).
    cbn [firstn]. rewrite app_nil_r. clear Hf.
    induction (List.length items1); auto.
Qed.

(** The generator writes to the transactions table only. *)
Lemma append_generated_accounts (items : list FixedItem) (d : DB) :
  accounts (append_generated accId y m items d) = accounts d.
Proof.
  revert d. induction items as [|it items IH]; intros d; [reflexivity|].
  unfold append_generated in *. cbn [fold_left]. rewrite IH. reflexivity.
Qed.

(** The rows it leaves: the old ones, then one per template, in the
    order of the templates. *)
Lemma append_generated_rows (items : list FixedItem) (d : DB) :
  exists rows : list Transaction,
    transactions (append_generated accId y m items d)
      = (transactions d ++ rows)%list /\
    Forall2 (fun it t => t = generated accId y m it (id t)) items rows.
Proof.
  revert d. induction items as [|it items IH]; intros d.
  - exists []. split; [symmetry; apply app_nil_r | constructor].
  - unfold append_generated in *. cbn [fold_left].
    destruct (IH (insert_generated accId y m d it)) as (rows & Hr & Hall).
    eexists (_ :: rows). split.
    + rewrite Hr. unfold insert_generated.
      cbn [transactions with_transactions]. rewrite <- app_assoc. reflexivity.
    + constructor; [reflexivity | exact Hall].
Qed.

End Generator.

Lemma calm_S (n : nat) (w : World) :
  calm (S n) w = true ->
  hd false (faults w) = false /\
  calm n (mkWorld (db w) (tl (faults w)) (alerts w) (clock w)) = true.
Proof.
  unfold calm. cbn [faults]. destruct (faults w) as [|[|] fs]; cbn; intros H.
  - split; [reflexivity|]. destruct n; reflexivity.
  - discriminate H.
  - split; [reflexivity | exact H].
Qed.

Lemma item0_account (d : DB) (accId : Z) :
  account_of d = Some accId ->
  item0 (map acc_id (filter (fun a => acc_name a =? default_account) (accounts d)))
  = ret accId.
Proof.
  unfold account_of. destruct (filter _ (accounts d)) as [|a l]; intros H.
  - discriminate H.
  - injection H as <-. reflexivity.
Qed.

(** Looking up the default account, when it is there and the store
    answers. *)
Lemma account_lookup {B} (k : Z -> M B) (w : World) (accId : Z) :
  account_of (db w) = Some accId ->
  hd false (faults w) = false ->
  (acc <- execSql (select_account_id default_account) ;;
   a <- item0 acc ;; k a) w
  = k accId (mkWorld (db w) (tl (faults w)) (alerts w) (clock w)).
Proof.
  intros Ha Hh. unfold bind at 1, execSql, select_account_id.
  assert (E : forall w', (a <- item0 (map acc_id
                 (filter (fun a => acc_name a =? default_account) (accounts (db w)))) ;;
               k a) w' = k accId w').
  { intros w'. rewrite (item0_account (db w) accId Ha). reflexivity. }
  destruct (faults w) as [|[|] fs]; try discriminate Hh; apply E.
Qed.

(** One pass of the generator while the store answers. *)
Lemma generateMonth_calm (items : list FixedItem) (w : World) (accId : Z) :
  account_of (db w) = Some accId ->
  calm (S (List.length items)) w = true ->
  generateMonth items w =
    (Ok tt,
     mkWorld (append_generated accId (JS.year (clock w)) (JS.month (clock w) + 1)
                               items (db w))
             (skipn (S (List.length items)) (faults w))
             (alerts w ++ [("OK", "Fixos gerados para o mês atual.")])%list
             (clock w)).
Proof.
  intros Ha Hc. apply calm_S in Hc. destruct Hc as [Hh Hc].
  unfold generateMonth. rewrite (account_lookup _ w accId Ha Hh).
  unfold bind at 1, new_Date at 1. cbn [clock].
  unfold bind at 1, JS.getFullYear, JS.getMonth.
  rewrite (loop_calm accId _ _ items _ Hc).
  cbn [faults db alerts clock]. unfold alert. cbn [faults db alerts clock].
  destruct (faults w); [|reflexivity].
  cbn [tl]. rewrite !skipn_nil. reflexivity.
Qed.

(** One pass in which the store fails at the template after [items1]. *)
Lemma generateMonth_fault (items1 items2 : list FixedItem) (it : FixedItem)
    (fs : list bool) (w : World) (accId : Z) :
  account_of (db w) = Some accId ->
  faults w = (repeat false (S (List.length items1)) ++ true :: fs)%list ->
  generateMonth (items1 ++ it :: items2)%list w =
    (Throw SqlError,
     mkWorld (append_generated accId (JS.year (clock w)) (JS.month (clock w) + 1)
                               items1 (db w))
             fs (alerts w) (clock w)).
Proof.
  intros Ha Hf.
  unfold generateMonth. rewrite (account_lookup _ w accId Ha) by (rewrite Hf; reflexivity).
  unfold bind at 1, new_Date at 1. cbn [clock].
  unfold bind at 1, JS.getFullYear, JS.getMonth.
  rewrite (loop_fault accId _ _ items1 items2 it fs) by (rewrite Hf; reflexivity).
  reflexivity.
Qed.

Lemma generated_is_generated_from (accId : Z) (now : JS.Date) (it : FixedItem)
    (t : Transaction) :
  t = generated accId (JS.year now) (JS.month now + 1) it (id t) ->
  generated_from accId now it t.
Proof. intros ->. repeat split. Qed.

Lemma Forall2_impl {A B} (P Q : A -> B -> Prop) (l : list A) (l' : list B) :
  (forall a b, P a b -> Q a b) -> Forall2 P l l' -> Forall2 Q l l'.
Proof. intros H F. induction F; constructor; auto. Qed.

(** What a calm pass leaves in the transactions table. *)
Lemma generateMonth_rows (items : list FixedItem) (w : World) (accId : Z) :
  account_of (db w) = Some accId ->
  calm (S (List.length items)) w = true ->
  exists rows : list Transaction,
    transactions (db (exec (generateMonth items) w))
      = (transactions (db w) ++ rows)%list /\
    Forall2 (generated_from accId (clock w)) items rows.
Proof.
  intros Ha Hc. unfold exec. rewrite (generateMonth_calm items w accId Ha Hc).
  cbn [snd db].
  destruct (append_generated_rows accId (JS.year (clock w)) (JS.month (clock w) + 1)
              items (db w)) as (rows & Hr & Hall).
  exists rows. split; [exact Hr|].
  revert Hall. apply Forall2_impl. intros it t. apply generated_is_generated_from.
Qed.

(** C3 (recurrence expansion), as the program has it.  With the default
    account in place and the store answering, one pass over N templates
    returns normally and appends exactly N rows to the transactions
    table, one per template and in their order, each with
    amount = -abs(template amount), kind expense, the template's category
    and name, the note "fixo", the date string made of the current year,
    the current month and the template's day, and the id of the default
    account. *)
Theorem generateMonth_inserts_one_per_item
    (items : list FixedItem) (w : World) (accId : Z) :
  account_of (db w) = Some accId ->
  calm (S (List.length items)) w = true ->
  exists rows : list Transaction,
    fst (generateMonth items w) = Ok tt /\
    transactions (db (exec (generateMonth items) w))
      = (transactions (db w) ++ rows)%list /\
    List.length rows = List.length items /\
    Forall2 (generated_from accId (clock w)) items rows.
Proof.
  intros Ha Hc.
  destruct (generateMonth_rows items w accId Ha Hc) as (rows & Hr & Hall).
  exists rows. split; [|split; [exact Hr|split; [|exact Hall]]].
  - rewrite (generateMonth_calm items w accId Ha Hc). reflexivity.
  - symmetry. exact (Forall2_length Hall).
Qed.

(** Two templates, generated in March 2024 on top of the example month. *)
Lemma generateMonth_inserts_one_per_item_witness :
  account_of (db (sample_world [])) = Some 1%Z /\
  calm 3 (sample_world []) = true /\
  (exists rows : list Transaction,
      fst (generateMonth sample_items (sample_world [])) = Ok tt /\
      transactions (db (exec (generateMonth sample_items) (sample_world [])))
        = (march_transactions ++ rows)%list /\
      List.length rows = 2%nat /\
      Forall2 (generated_from 1 (mid_march 180)) sample_items rows) /\
  transactions (db (exec (generateMonth sample_items) (sample_world [])))
  = (march_transactions ++
     [mkTransaction 4 "2024-03-05" "Aluguel" (- Qabs 1200) "expense" 1 (Some 1%Z) "fixo";
      mkTransaction 5 "2024-03-10" "Internet" (- Qabs 99.90) "expense" 1 (Some 2%Z) "fixo"])%list.
Proof.
  split; [reflexivity|]. split; [reflexivity|]. split; [|reflexivity].
  apply (generateMonth_inserts_one_per_item sample_items (sample_world []) 1);
    reflexivity.
Defined.

(** C3 as the specification words it asks for the note "fixed"; the
    program writes "fixo". *)
Lemma generateMonth_note_is_fixo :
  exists t : Transaction,
    transactions (db (exec (generateMonth [mkFixedItem 1 "Aluguel" 1200 5 (Some 1%Z)])
                           (sample_world [])))
    = (march_transactions ++ [t])%list /\
    note t = "fixo" /\ note t <> "fixed".
Proof.
  eexists. split; [reflexivity|]. split; [reflexivity | discriminate].
Qed.

Lemma calm_add (a b : nat) (w : World) :
  calm (a + b) w = true ->
  calm a w = true /\
  calm b (mkWorld (db w) (skipn a (faults w)) (alerts w) (clock w)) = true.
Proof.
  unfold calm. cbn [faults]. generalize (faults w) as fs.
  induction a as [|a IH]; intros fs H.
  - split; [reflexivity | exact H].
  - destruct fs as [|f fs].
    + split; [reflexivity|]. destruct b; reflexivity.
    + cbn [Nat.add firstn forallb skipn] in *.
      apply andb_true_iff in H. destruct H as [Hf H].
      destruct (IH fs H) as [H1 H2]. rewrite Hf, H1. split; [reflexivity | exact H2].
Qed.

Lemma generated_from_duplicate (accId : Z) (now now' : JS.Date)
    (items : list FixedItem) (rows rows' : list Transaction) :
  JS.year now' = JS.year now -> JS.month now' = JS.month now ->
  Forall2 (generated_from accId now) items rows ->
  Forall2 (generated_from accId now') items rows' ->
  Forall2 duplicate rows rows'.
Proof.
  intros Hy Hm F. revert rows'.
  induction F as [|it t items rows Ht F IH]; intros rows' F'; inversion F'; subst.
  - constructor.
  - constructor; [|apply IH; assumption].
    destruct Ht as (Ha & Hk & Hc & Hd & Hn & Hdt & Hacc).
    match goal with H : generated_from _ _ it _ |- _ =>
      destruct H as (Ha' & Hk' & Hc' & Hd' & Hn' & Hdt' & Hacc') end.
    unfold duplicate. rewrite Ha, Hk, Hc, Hd, Hn, Hdt, Hacc.
    rewrite Ha', Hk', Hc', Hd', Hn', Hdt', Hacc', Hy, Hm. repeat split.
Qed.

Lemma count_generated_rows (accId : Z) (now : JS.Date)
    (items : list FixedItem) (rows : list Transaction) :
  Forall2 (generated_from accId now) items rows ->
  List.length (filter (fun t => note t =? "fixo") rows) = List.length items.
Proof.
  intros F. induction F as [|it t items rows Ht F IH]; [reflexivity|].
  destruct Ht as (_ & _ & _ & _ & Hn & _). cbn [filter]. rewrite Hn.
  cbn. rewrite IH. reflexivity.
Qed.

(** C4 (generation is not idempotent).  With the default account in
    place and the store answering, two passes over the same N templates
    in the same month, at whatever moments of it, leave the old rows
    followed by N generated rows and N more that duplicate them field by
    field, the row id apart: the count of generated rows grows by 2N. *)
Theorem generateMonth_twice_doubles
    (items : list FixedItem) (w : World) (accId : Z) (later : JS.Date) :
  account_of (db w) = Some accId ->
  calm (S (List.length items) + S (List.length items)) w = true ->
  JS.year later = JS.year (clock w) ->
  JS.month later = JS.month (clock w) ->
  let w1 := exec (generateMonth items) w in
  let w2 := exec (generateMonth items) (at_time w1 later) in
  exists rows1 rows2 : list Transaction,
    transactions (db w2) = (transactions (db w) ++ rows1 ++ rows2)%list /\
    List.length rows1 = List.length items /\
    List.length rows2 = List.length items /\
    Forall2 duplicate rows1 rows2 /\
    count_generated (db w2) = (count_generated (db w) + 2 * List.length items)%nat.
Proof.
  intros Ha Hc Hy Hm w1 w2.
  apply calm_add in Hc. destruct Hc as [Hc1 Hc2].
  destruct (generateMonth_rows items w accId Ha Hc1) as (rows1 & Hr1 & F1).
  fold w1 in Hr1.
  assert (Hw1 : w1 = mkWorld (db w1) (skipn (S (List.length items)) (faults w))
                             (alerts w1) (clock w)).
  { unfold w1, exec. rewrite (generateMonth_calm items w accId Ha Hc1). reflexivity. }
  assert (Ha1 : account_of (db (at_time w1 later)) = Some accId).
  { unfold w1, exec. rewrite (generateMonth_calm items w accId Ha Hc1).
    cbn [snd db at_time]. unfold account_of in *.
    rewrite append_generated_accounts. exact Ha. }
  assert (Hc1' : calm (S (List.length items)) (at_time w1 later) = true).
  { rewrite Hw1. exact Hc2. }
  destruct (generateMonth_rows items (at_time w1 later) accId Ha1 Hc1')
    as (rows2 & Hr2 & F2).
  fold w2 in Hr2. cbn [at_time db clock] in Hr2, F2.
  exists rows1, rows2. repeat split.
  - rewrite Hr2, Hr1, <- app_assoc. reflexivity.
  - symmetry. exact (Forall2_length F1).
  - symmetry. exact (Forall2_length F2).
  - exact (generated_from_duplicate accId (clock w) later items rows1 rows2 Hy Hm F1 F2).
  - unfold count_generated. rewrite Hr2, Hr1, !filter_app, !length_app.
    rewrite (count_generated_rows accId (clock w) items rows1 F1).
    rewrite (count_generated_rows accId later items rows2 F2). lia.
Qed.

(** Two passes over the two sample templates, the second on 20 March:
    four generated rows where there were none. *)
Lemma generateMonth_twice_doubles_witness :
  let later := JS.mkDate 2024 2 20 600 180 in
  let w := sample_world [] in
  let w1 := exec (generateMonth sample_items) w in
  let w2 := exec (generateMonth sample_items) (at_time w1 later) in
  account_of (db w) = Some 1%Z /\ calm 6 w = true /\
  count_generated (db w) = 0%nat /\ count_generated (db w2) = 4%nat /\
  exists rows1 rows2 : list Transaction,
    transactions (db w2) = (transactions (db w) ++ rows1 ++ rows2)%list /\
    List.length rows1 = 2%nat /\ List.length rows2 = 2%nat /\
    Forall2 duplicate rows1 rows2 /\
    count_generated (db w2) = 4%nat.
Proof.
  split; [reflexivity|]. split; [reflexivity|].
  split; [reflexivity|]. split; [reflexivity|].
  apply (generateMonth_twice_doubles sample_items (sample_world []) 1
           (JS.mkDate 2024 2 20 600 180)); reflexivity.
Defined.

(** C9 (no atomicity across the batch).  When the store fails on the
    insert of the k-th template, after the account lookup and the k-1
    inserts before it went through, the pass ends in a rejected promise
    with no closing notice; the table then holds the old rows followed by
    the rows of templates 1 to k-1, and nothing for the k-th and the
    templates after it. *)
Theorem generateMonth_partial_failure
    (before after : list FixedItem) (it : FixedItem)
    (fs : list bool) (w : World) (accId : Z) :
  account_of (db w) = Some accId ->
  faults w = (repeat false (S (List.length before)) ++ true :: fs)%list ->
  fst (generateMonth (before ++ it :: after)%list w) = Throw SqlError /\
  alerts (exec (generateMonth (before ++ it :: after)%list) w) = alerts w /\
  exists rows : list Transaction,
    transactions (db (exec (generateMonth (before ++ it :: after)%list) w))
      = (transactions (db w) ++ rows)%list /\
    List.length rows = List.length before /\
    Forall2 (generated_from accId (clock w)) before rows.
Proof.
  intros Ha Hf. unfold exec.
  rewrite (generateMonth_fault before after it fs w accId Ha Hf).
  cbn [fst snd db alerts]. split; [reflexivity|]. split; [reflexivity|].
  destruct (append_generated_rows accId (JS.year (clock w)) (JS.month (clock w) + 1)
              before (db w)) as (rows & Hr & Hall).
  assert (F : Forall2 (generated_from accId (clock w)) before rows).
  { revert Hall. apply Forall2_impl. intros i t. apply generated_is_generated_from. }
  exists rows. split; [exact Hr|]. split; [|exact F].
  symmetry. exact (Forall2_length F).
Qed.

(** The store fails on item 3 of 5, the fourth statement of the pass:
    items 1 and 2 stay committed. *)
Lemma generateMonth_partial_failure_witness :
  account_of (db (failing_at 4)) = Some 1%Z /\
  faults (failing_at 4) = [false; false; false; true] /\
  fst (generateMonth five_items (failing_at 4)) = Throw SqlError /\
  alerts (exec (generateMonth five_items) (failing_at 4)) = [] /\
  (exists rows : list Transaction,
      transactions (db (exec (generateMonth five_items) (failing_at 4)))
        = (march_transactions ++ rows)%list /\
      List.length rows = 2%nat /\
      Forall2 (generated_from 1 (mid_march 180))
              [mkFixedItem 1 "Aluguel" 1200 5 (Some 1%Z);
               mkFixedItem 2 "Internet" 99.90 10 (Some 2%Z)] rows) /\
  map description (transactions (db (exec (generateMonth five_items) (failing_at 4))))
  = ["Salário"; "Aluguel"; "Mercado"; "Aluguel"; "Internet"].
Proof.
  split; [reflexivity|]. split; [reflexivity|].
  destruct (generateMonth_partial_failure
              [mkFixedItem 1 "Aluguel" 1200 5 (Some 1%Z);
               mkFixedItem 2 "Internet" 99.90 10 (Some 2%Z)]
              [mkFixedItem 4 "Academia" 89 15 None;
               mkFixedItem 5 "Seguro" 210.5 20 (Some 8%Z)]
              (mkFixedItem 3 "Energia" 180 12 (Some 3%Z))
              [] (failing_at 4) 1 eq_refl eq_refl) as (Ht & Hal & Hrows).
  split; [exact Ht|]. split; [exact Hal|]. split; [exact Hrows|]. reflexivity.
Defined.

(* ================================================================== *)
(** * What a handler may do to the store *)
(* ================================================================== *)

Section Keeps.

(** A relation between the store before and the store after, closed
    under composition. *)
Variable R : DB -> DB -> Prop.
Hypothesis R_refl : forall d, R d d.
Hypothesis R_trans : forall a b c, R a b -> R b c -> R a c.

(** Handler [m] relates the store it finds to the store it leaves,
    however it ends. *)
Definition keeps {A} (m : M A) : Prop :=
  forall w, R (db w) (db (snd (m w))).

Lemma keeps_ret {A} (a : A) : keeps (ret a).
Proof. intros w. apply R_refl. Qed.

Lemma keeps_throw {A} (e : exn) : keeps (@throw A e).
Proof. intros w. apply R_refl. Qed.

Lemma keeps_bind {A B} (m : M A) (k : A -> M B) :
  keeps m -> (forall a, keeps (k a)) -> keeps (bind m k).
Proof.
  intros Hm Hk w. unfold bind. specialize (Hm w).
  destruct (m w) as [[a|e] w1]; cbn [snd] in *; [|exact Hm].
  eapply R_trans; [exact Hm | apply Hk].
Qed.

Lemma keeps_alert (t msg : string) : keeps (alert t msg).
Proof. intros w. apply R_refl. Qed.

Lemma keeps_new_Date : keeps new_Date.
Proof. intros w. apply R_refl. Qed.

Lemma keeps_item0 {A} (rows : list A) : keeps (item0 rows).
Proof. destruct rows; [apply keeps_throw | apply keeps_ret]. Qed.

Lemma keeps_execSql {A} (q : statement A) :
  (forall d a d', q d = Done a d' -> R d d') -> keeps (execSql q).
Proof.
  intros Hq w. unfold execSql.
  destruct (faults w) as [|[|] fs]; cbn [snd db]; try apply R_refl;
    destruct (q (db w)) as [a d'|] eqn:E; cbn [snd db];
    first [apply R_refl | eapply Hq; exact E].
Qed.

Lemma keeps_for_of {A} (l : list A) (f : A -> M unit) :
  (forall x, keeps (f x)) -> keeps (for_of l f).
Proof.
  intros Hf. induction l as [|x l IH]; cbn [for_of].
  - apply keeps_ret.
  - apply keeps_bind; [apply Hf | intros _; exact IH].
Qed.

(** The queries leave the store as it is. *)
Lemma keeps_select_account_id (n : string) : keeps (execSql (select_account_id n)).
Proof. apply keeps_execSql. intros d a d' H. injection H as _ <-. apply R_refl. Qed.

Lemma keeps_select_category_id (n : string) : keeps (execSql (select_category_id n)).
Proof. apply keeps_execSql. intros d a d' H. injection H as _ <-. apply R_refl. Qed.

Lemma keeps_select_for_display : keeps (execSql select_for_display).
Proof. apply keeps_execSql. intros d a d' H. injection H as _ <-. apply R_refl. Qed.

End Keeps.

Create HintDb keeps.

#[local] Hint Resolve keeps_ret keeps_throw keeps_alert keeps_new_Date keeps_item0
  keeps_bind keeps_for_of
  keeps_select_account_id keeps_select_category_id keeps_select_for_display : keeps.

(* ================================================================== *)
(** * The sign convention of the writers *)
(* ================================================================== *)

Section Signs.

Lemma writes_signed_refl (d : DB) : writes_signed d d.
Proof. intros t H. left. exact H. Qed.

Lemma writes_signed_trans (a b c : DB) :
  writes_signed a b -> writes_signed b c -> writes_signed a c.
Proof.
  intros Hab Hbc t H. destruct (Hbc t H) as [Hb|Hs]; [apply Hab, Hb | right; exact Hs].
Qed.

(** [kind === "expense" ? -Math.abs(x) : Math.abs(x)] has the sign of
    its kind. *)
Lemma signed_amount_sign (k : string) (x : JS.number) (a : Q) :
  signed_amount k x = JS.Num a ->
  (k = "expense" -> a <= 0) /\ (k = "income" -> 0 <= a).
Proof.
  unfold signed_amount. destruct (k =? "expense") eqn:E; destruct x as [q| |b];
    cbn [JS.abs JS.neg]; intros H; try discriminate H; injection H as <-.
  - split; intros Hk.
    + pose proof (Qabs_nonneg q). lra.
    + apply String.eqb_eq in E. rewrite E in Hk. discriminate Hk.
  - split; intros Hk.
    + rewrite Hk in E. discriminate E.
    + apply Qabs_nonneg.
Qed.

Lemma insert_transaction_signed (td de : string) (x : JS.number) (k : string)
    (acc : Z) (cat : option Z) (nt : string) :
  (forall a, x = JS.Num a -> (k = "expense" -> a <= 0) /\ (k = "income" -> 0 <= a)) ->
  keeps writes_signed (execSql (insert_transaction td de x k acc cat nt)).
Proof.
  intros Hx. apply keeps_execSql; [apply writes_signed_refl|].
  intros d a d'. unfold insert_transaction.
  destruct x as [q| |b]; try discriminate. destruct (kind_ok k); [|discriminate].
  intros H. injection H as _ <-. intros t Ht.
  cbn [transactions with_transactions] in Ht. apply in_app_iff in Ht.
  destruct Ht as [Ht|[<-|[]]]; [left; exact Ht|right].
  exact (Hx q eq_refl).
Qed.

Lemma update_transaction_signed (td de : string) (x : JS.number) (k : string)
    (acc : Z) (cat : option Z) (i : Z) :
  (forall a, x = JS.Num a -> (k = "expense" -> a <= 0) /\ (k = "income" -> 0 <= a)) ->
  keeps writes_signed (execSql (update_transaction td de x k acc cat i)).
Proof.
  intros Hx. apply keeps_execSql; [apply writes_signed_refl|].
  intros d a d'. unfold update_transaction.
  destruct (existsb _ (transactions d)).
  - destruct x as [q| |b]; try discriminate. destruct (kind_ok k); [|discriminate].
    intros H. injection H as _ <-. intros t Ht.
    cbn [transactions with_transactions] in Ht. apply in_map_iff in Ht.
    destruct Ht as (t0 & <- & Ht0). destruct (id t0 =? i)%Z.
    + right. exact (Hx q eq_refl).
    + left. exact Ht0.
  - intros H. injection H as _ <-. apply writes_signed_refl.
Qed.

Lemma insert_signed_amount (td de : string) (x : JS.number) (k : string)
    (acc : Z) (cat : option Z) (nt : string) :
  keeps writes_signed
    (execSql (insert_transaction td de (signed_amount k x) k acc cat nt)).
Proof.
  apply insert_transaction_signed. intros a. apply signed_amount_sign.
Qed.

Lemma update_signed_amount (td de : string) (x : JS.number) (k : string)
    (acc : Z) (cat : option Z) (i : Z) :
  keeps writes_signed
    (execSql (update_transaction td de (signed_amount k x) k acc cat i)).
Proof.
  apply update_transaction_signed. intros a. apply signed_amount_sign.
Qed.

#[local] Hint Resolve writes_signed_refl writes_signed_trans
  insert_signed_amount update_signed_amount : keeps.

(** Walks down a handler, statement by statement. *)
Ltac walk :=
  repeat first
    [ assumption
    | exact writes_signed_refl
    | exact writes_signed_trans
    | apply keeps_bind; [ | | intros ?]
    | apply keeps_for_of; [ | | intros ?]
    | solve [auto with keeps] ].

(** The category lookup of the two forms. *)
Lemma lookup_category_signed (guard : bool) (n : string) :
  keeps writes_signed
    (if guard then
       r <- execSql (select_category_id n) ;;
       ret (match r with c :: _ => Some c | [] => None end)
     else ret None).
Proof. destruct guard; eauto with keeps. Qed.

Lemma QuickAdd_submit_signed (st : QuickAddState) :
  keeps writes_signed (QuickAdd_submit st).
Proof.
  unfold QuickAdd_submit.
  destruct (negb (JS.truthy (amount_of_input (qa_val st)))
            || negb (JS.nonempty (JS.trim (qa_desc st)))).
  - eauto with keeps.
  - pose proof (lookup_category_signed (JS.nonempty (qa_cat st)) (qa_cat st)).
    walk.
Qed.

Lemma updateTransaction_signed (i : Z) (td de : string) (x : JS.number)
    (k : string) (cn : option string) :
  keeps writes_signed (updateTransaction i td de (signed_amount k x) k cn).
Proof.
  unfold updateTransaction.
  assert (keeps writes_signed
            (match cn with
             | Some n =>
                 if JS.nonempty n then
                   r <- execSql (select_category_id n) ;;
                   ret (match r with c :: _ => Some c | [] => None end)
                 else ret None
             | None => ret None
             end)).
  { destruct cn as [n|]; [apply lookup_category_signed | auto with keeps]. }
  walk.
Qed.

Lemma Historico_saveEdit_signed (e : Editing) :
  keeps writes_signed (Historico_saveEdit e).
Proof.
  unfold Historico_saveEdit, Historico_load.
  destruct (negb (JS.nonempty (e_description e)) || negb (JS.nonempty (e_tdate e))).
  - eauto with keeps.
  - pose proof (updateTransaction_signed (e_id e) (e_tdate e)
                  (JS.trim (e_description e)) (amount_of_field (e_amount e))
                  (e_kind e)
                  (if JS.nonempty (e_category e) then Some (e_category e) else None)).
    walk.
Qed.

Lemma generateMonth_signed (items : list FixedItem) :
  keeps writes_signed (generateMonth items).
Proof.
  unfold generateMonth.
  assert (H : forall acc y m it,
             keeps writes_signed
               (execSql (insert_transaction (fixed_tdate y m (it_day it)) (it_name it)
                           (JS.neg (JS.abs (JS.Num (it_amount it))))
                           "expense" acc (it_category_id it) "fixo"))).
  { intros acc y m it. apply insert_transaction_signed.
    intros a Ha. injection Ha as <-. split; intros Hk; [|discriminate Hk].
    pose proof (Qabs_nonneg (it_amount it)). lra. }
  walk.
Qed.

End Signs.

(** C7 (sign invariant).  Whatever the form holds and however the store
    behaves, every row of the transactions table after quick-add, after
    saving an edit and after a generation pass either was in the table
    before, unchanged, or has amount <= 0 when its kind is expense and
    amount >= 0 when its kind is income. *)
Theorem writers_keep_sign_convention :
  (forall (st : QuickAddState) (w : World),
      writes_signed (db w) (db (exec (QuickAdd_submit st) w))) /\
  (forall (e : Editing) (w : World),
      writes_signed (db w) (db (exec (Historico_saveEdit e) w))) /\
  (forall (items : list FixedItem) (w : World),
      writes_signed (db w) (db (exec (generateMonth items) w))).
Proof.
  split; [|split].
  - intros st. exact (QuickAdd_submit_signed st).
  - intros e. exact (Historico_saveEdit_signed e).
  - intros items. exact (generateMonth_signed items).
Qed.

(* ================================================================== *)
(** * Validation of the forms *)
(* ================================================================== *)

Section Validation.

(** X3.  Quick add refuses an empty description, and an amount that is
    zero or not a number: a notice, and no statement reaches the store. *)
Lemma QuickAdd_submit_refuses (st : QuickAddState) (w : World) :
  JS.trim (qa_desc st) = "" \/
  amount_of_input (qa_val st) = JS.NaN \/
  (exists q, amount_of_input (qa_val st) = JS.Num q /\ q == 0) ->
  QuickAdd_submit st w
  = (Ok tt, noticed w "Atenção" "Preencha descrição e valor.").
Proof.
  intros H. unfold QuickAdd_submit.
  replace (negb (JS.truthy (amount_of_input (qa_val st)))
           || negb (JS.nonempty (JS.trim (qa_desc st)))) with true; [reflexivity|].
  symmetry. apply orb_true_iff.
  destruct H as [H|[H|(q & H & Hq)]]; rewrite H.
  - right. reflexivity.
  - left. reflexivity.
  - left. cbn [JS.truthy]. apply Qeq_bool_iff in Hq. rewrite Hq. reflexivity.
Qed.

(** X4.  The fixed-item form refuses an empty name, value or day. *)
Lemma Fixos_add_refuses_missing (st : FixosForm) (w : World) :
  JS.trim (fx_name st) = "" \/ fx_val st = "" \/ fx_day st = "" ->
  Fixos_add st w = (Ok tt, noticed w "Atenção" "Preencha nome, valor e dia.").
Proof.
  intros H. unfold Fixos_add.
  replace (negb (JS.nonempty (JS.trim (fx_name st)))
           || negb (JS.nonempty (fx_val st)) || negb (JS.nonempty (fx_day st)))
    with true; [reflexivity|].
  symmetry. destruct H as [H|[H|H]]; rewrite H; cbn [JS.nonempty negb orb].
  - reflexivity.
  - rewrite orb_true_r. reflexivity.
  - apply orb_true_r.
Qed.

(** It refuses an amount that is zero or negative as well. *)
Lemma Fixos_add_refuses_nonpositive (st : FixosForm) (w : World) (q : Q) :
  JS.trim (fx_name st) <> "" -> fx_val st <> "" -> fx_day st <> "" ->
  amount_of_input (fx_val st) = JS.Num q -> q <= 0 ->
  Fixos_add st w = (Ok tt, noticed w "Atenção" "Valor deve ser > 0.").
Proof.
  intros Hn Hv Hd Ha Hq. unfold Fixos_add.
  destruct (JS.trim (fx_name st)); [contradiction|].
  destruct (fx_val st) eqn:Ev; [contradiction|].
  destruct (fx_day st); [contradiction|].
  cbn [JS.nonempty negb orb]. rewrite Ha. cbn [JS.le_zero].
  apply Qle_bool_iff in Hq. rewrite Hq. reflexivity.
Qed.

Lemma skipn_skipn_tl {A} (k : nat) (l : list A) : skipn k (tl l) = skipn (S k) l.
Proof. destruct l; [destruct k; reflexivity | reflexivity]. Qed.

Lemma skipn_add {A} (a b : nat) (l : list A) : skipn a (skipn b l) = skipn (b + a) l.
Proof.
  revert l. induction b as [|b IH]; intros l; [reflexivity|].
  destruct l as [|x l]; [cbn; apply skipn_nil | apply IH].
Qed.

Lemma quiet_ret {A} (a : A) : stays_quiet (ret a).
Proof. intros w. exists 0%nat. split; reflexivity. Qed.

Lemma quiet_throw {A} (e : exn) : stays_quiet (@throw A e).
Proof. intros w. exists 0%nat. split; reflexivity. Qed.

Lemma quiet_item0 {A} (rows : list A) : stays_quiet (item0 rows).
Proof. destruct rows; [apply quiet_throw | apply quiet_ret]. Qed.

Lemma quiet_execSql {A} (q : statement A) (w : World) : quiet 1 w (snd (execSql q w)).
Proof.
  unfold execSql, quiet.
  destruct (faults w) as [|[|] fs]; destruct (q (db w)); split; reflexivity.
Qed.

Lemma quiet_bind {A B} (m : M A) (k : A -> M B) :
  stays_quiet m -> (forall a, stays_quiet (k a)) -> stays_quiet (bind m k).
Proof.
  intros Hm Hk w. unfold bind. destruct (Hm w) as (n & Ha & Hf).
  destruct (m w) as [[a|e] w1]; cbn [snd] in *.
  - destruct (Hk a w1) as (n' & Ha' & Hf'). exists (n + n')%nat. split.
    + rewrite Ha'. exact Ha.
    + rewrite Hf', Hf. apply skipn_add.
  - exists n. split; assumption.
Qed.

Lemma quiet_statement {A} (q : statement A) : stays_quiet (execSql q).
Proof. intros w. exists 1%nat. apply quiet_execSql. Qed.

(** A handler that starts with a statement has sent one to the store at
    least. *)
Lemma quiet_first {A B} (q : statement A) (k : A -> M B) (w : World) :
  (forall a, stays_quiet (k a)) ->
  exists n, quiet (S n) w (snd (bind (execSql q) k w)).
Proof.
  intros Hk. unfold bind. destruct (quiet_execSql q w) as [Ha Hf].
  destruct (execSql q w) as [[a|e] w1]; cbn [snd] in *.
  - destruct (Hk a w1) as (n & Ha' & Hf'). exists n. split.
    + rewrite Ha'. exact Ha.
    + rewrite Hf', Hf. apply (skipn_add n 1).
  - exists 0%nat. split; assumption.
Qed.

Lemma quiet_then {A B} (m : M A) (k : A -> M B) (w : World) (n : nat) :
  quiet (S n) w (snd (m w)) -> (forall a, stays_quiet (k a)) ->
  exists n', quiet (S n') w (snd (bind m k w)).
Proof.
  intros [Ha Hf] Hk. unfold bind.
  destruct (m w) as [[a|e] w1]; cbn [snd] in *.
  - destruct (Hk a w1) as (n' & Ha' & Hf'). exists (n + n')%nat. split.
    + rewrite Ha'. exact Ha.
    + rewrite Hf', Hf. apply (skipn_add n' (S n)).
  - exists n. split; assumption.
Qed.

(** X5.  The edit form refuses an empty description or date, and looks
    at nothing else: with both filled in it raises no notice and goes to
    the store, whatever the amount, the kind and the category. *)
Lemma Historico_saveEdit_refuses (e : Editing) (w : World) :
  (e_description e = "" \/ e_tdate e = "" ->
   Historico_saveEdit e w
   = (Ok tt, noticed w "Atenção" "Preencha data e descrição.")) /\
  (e_description e <> "" -> e_tdate e <> "" ->
   exists n, quiet (S n) w (exec (Historico_saveEdit e) w)).
Proof.
  split.
  - intros H. unfold Historico_saveEdit.
    replace (negb (JS.nonempty (e_description e)) || negb (JS.nonempty (e_tdate e)))
      with true; [reflexivity|].
    symmetry. destruct H as [H|H]; rewrite H; cbn [JS.nonempty negb orb].
    + reflexivity.
    + apply orb_true_r.
  - intros Hd Ht. unfold exec, Historico_saveEdit.
    destruct (e_description e) as [|c ds]; [contradiction|].
    destruct (e_tdate e) as [|ct dt]; [contradiction|].
    cbn [JS.nonempty negb orb]. unfold updateTransaction.
    destruct (quiet_first (select_account_id default_account)
                (fun acc =>
                   accId <- item0 acc ;;
                   catId <- (match (if JS.nonempty (e_category e)
                                    then Some (e_category e) else None) with
                             | Some n =>
                                 if JS.nonempty n then
                                   r <- execSql (select_category_id n) ;;
                                   ret (match r with c :: _ => Some c | [] => None end)
                                 else ret None
                             | None => ret None
                             end) ;;
                   execSql (update_transaction (String ct dt) (JS.trim (String c ds))
                              (signed_amount (e_kind e) (amount_of_field (e_amount e)))
                              (e_kind e) accId catId (e_id e))) w) as (n & Hq).
    { intros acc. apply quiet_bind; [apply quiet_item0 | intros accId].
      apply quiet_bind; [ | intros catId; apply quiet_statement].
      destruct (JS.nonempty (e_category e)); [|apply quiet_ret].
      destruct (JS.nonempty (e_category e)); [|apply quiet_ret].
      apply quiet_bind; [apply quiet_statement | intros r; apply quiet_ret]. }
    apply (quiet_then _ _ w n Hq). intros _. apply quiet_statement.
Qed.

(** Quick add with the amount "0,00". *)
Lemma QuickAdd_submit_refuses_witness :
  (JS.trim "Mercado" = "" \/
   amount_of_input "0,00" = JS.NaN \/
   (exists q, amount_of_input "0,00" = JS.Num q /\ q == 0)) /\
  QuickAdd_submit (mkQuickAdd "Mercado" "0,00" "expense" "Mercado") (sample_world [])
  = (Ok tt, noticed (sample_world []) "Atenção" "Preencha descrição e valor.").
Proof.
  assert (H : JS.trim "Mercado" = "" \/
              amount_of_input "0,00" = JS.NaN \/
              (exists q, amount_of_input "0,00" = JS.Num q /\ q == 0)).
  { right. right. eexists. split; reflexivity. }
  split; [exact H|].
  exact (QuickAdd_submit_refuses (mkQuickAdd "Mercado" "0,00" "expense" "Mercado")
           (sample_world []) H).
Defined.

(** The fixed-item form with no day. *)
Lemma Fixos_add_refuses_missing_witness :
  (JS.trim "Academia" = "" \/ "89" = "" \/ "" = "") /\
  Fixos_add (mkFixosForm "Academia" "89" "" "Lazer") (sample_world [])
  = (Ok tt, noticed (sample_world []) "Atenção" "Preencha nome, valor e dia.").
Proof.
  split; [right; right; reflexivity|].
  apply (Fixos_add_refuses_missing (mkFixosForm "Academia" "89" "" "Lazer")).
  right. right. reflexivity.
Defined.

(** The edit form with the description erased, and with the amount
    retyped as "0". *)
Lemma Historico_saveEdit_refuses_witness :
  Historico_saveEdit (mkEditing 2 "2024-03-05" "" (FNum (JS.Num (-1200))) "expense" "")
                     (sample_world [])
  = (Ok tt, noticed (sample_world []) "Atenção" "Preencha data e descrição.") /\
  alerts (exec (Historico_saveEdit (edit_rent "0")) (sample_world [])) = [].
Proof.
  split.
  - apply (proj1 (Historico_saveEdit_refuses
                    (mkEditing 2 "2024-03-05" "" (FNum (JS.Num (-1200))) "expense" "")
                    (sample_world []))).
    left. reflexivity.
  - destruct (proj2 (Historico_saveEdit_refuses (edit_rent "0") (sample_world [])))
      as (n & Ha & _); [discriminate | discriminate | exact Ha].
Defined.

End Validation.

(** C6 (validation), where the program departs from it.  Saving an edit
    with the amount retyped as "0" raises no notice and rewrites the row
    with amount 0; and the fixed-item form lets the amount "abc" through
    to the store, whose NOT NULL column rejects it: the promise rejects
    and no notice is raised. *)
Theorem saveEdit_and_Fixos_add_skip_amount_validation :
  JS.Number_of_string "0" = JS.Num 0 /\
  fst (Historico_saveEdit (edit_rent "0") (sample_world [])) = Ok tt /\
  alerts (exec (Historico_saveEdit (edit_rent "0")) (sample_world [])) = [] /\
  transactions (db (exec (Historico_saveEdit (edit_rent "0")) (sample_world [])))
  = [mkTransaction 1 "2024-03-01" "Salário" 5000 "income" 1 (Some 7%Z) "";
     mkTransaction 2 "2024-03-05" "Aluguel" 0 "expense" 1 (Some 1%Z) "";
     mkTransaction 3 "2024-03-31" "Mercado" (-300) "expense" 1 (Some 4%Z) ""] /\
  amount_of_input "abc" = JS.NaN /\
  fst (Fixos_add (mkFixosForm "Academia" "abc" "15" "Lazer") (sample_world []))
  = Throw SqlError /\
  alerts (exec (Fixos_add (mkFixosForm "Academia" "abc" "15" "Lazer")) (sample_world []))
  = [].
Proof. repeat split. Qed.

(** Quick add, for comparison, refuses both inputs with its notice. *)
Example QuickAdd_refuses_zero_and_text :
  QuickAdd_submit (mkQuickAdd "Mercado" "0" "expense" "Mercado") (sample_world [])
  = (Ok tt, noticed (sample_world []) "Atenção" "Preencha descrição e valor.") /\
  QuickAdd_submit (mkQuickAdd "Mercado" "abc" "expense" "Mercado") (sample_world [])
  = (Ok tt, noticed (sample_world []) "Atenção" "Preencha descrição e valor.").
Proof. split; reflexivity. Qed.

(** A valid quick add writes one row, dated by the UTC day. *)
Example QuickAdd_writes :
  transactions (db (exec (QuickAdd_submit (mkQuickAdd " Uber " "12,50" "expense" "Transporte"))
                         (sample_world [])))
  = (march_transactions ++
     [mkTransaction 4 "2024-03-15" "Uber" (-12.50) "expense" 1 (Some 5%Z) ""])%list.
Proof. vm_compute. reflexivity. Qed.

(** Saving an edit with the amount retyped as "1500" stores -1500 for
    an expense. *)
Example Historico_saveEdit_writes :
  map amount (transactions (db (exec (Historico_saveEdit (edit_rent "1500"))
                                     (sample_world []))))
  = [5000; - Qabs 1500; -300].
Proof. reflexivity. Qed.

(** Quick add dates its row by the UTC day: at 22:00 on 31 March in
    Brazil that is 1 April, outside the range of the month. *)
Example QuickAdd_late_evening :
  let w := mkWorld (sample_db []) [] [] (JS.mkDate 2024 2 31 1320 180) in
  map tdate (transactions (db (exec (QuickAdd_submit
                                       (mkQuickAdd "Jantar" "80" "expense" "Lazer")) w)))
  = ["2024-03-01"; "2024-03-05"; "2024-03-31"; "2024-04-01"] /\
  month_range (clock w) = ("2024-03-01", "2024-03-31").
Proof. split; reflexivity. Qed.

(* ================================================================== *)
(** * The month filter *)
(* ================================================================== *)

Section MonthFilter.

Lemma pads_as_fixed_2 : forallb (pads_as_fixed 2) (seq 0 100) = true.
Proof. vm_compute. reflexivity. Qed.

Lemma pads_as_fixed_4 : forallb (pads_as_fixed 4) (seq 0 (100 * 100)) = true.
Proof. vm_compute. reflexivity. Qed.

Lemma padStart0_fixed (w : nat) (bound : nat) (n : Z) :
  forallb (pads_as_fixed w) (seq 0 bound) = true ->
  (0 <= n < Z.of_nat bound)%Z ->
  JS.padStart0 w (JS.String_of n) = fixed w n.
Proof.
  intros Hall Hn. rewrite forallb_forall in Hall.
  specialize (Hall (Z.to_nat n)). unfold pads_as_fixed in Hall.
  rewrite Z2Nat.id in Hall by lia. apply String.eqb_eq, Hall.
  apply in_seq. lia.
Qed.

Lemma compare_append (s1 s2 t1 t2 : string) :
  String.length s1 = String.length s2 ->
  String.compare (s1 ++ t1) (s2 ++ t2)
  = lex (String.compare s1 s2) (String.compare t1 t2).
Proof.
  revert s2. induction s1 as [|c s1 IH]; intros [|d s2] H; try discriminate H.
  - reflexivity.
  - cbn [String.append String.compare]. destruct (Ascii.compare c d); try reflexivity.
    apply IH. injection H as H. exact H.
Qed.

Lemma length_append (s t : string) :
  String.length (s ++ t) = (String.length s + String.length t)%nat.
Proof. induction s as [|c s IH]; cbn; [reflexivity | now rewrite IH]. Qed.

Lemma fixed_length (w : nat) (n : Z) : String.length (fixed w n) = w.
Proof.
  revert n. induction w as [|w IH]; intros n; [reflexivity|].
  cbn [fixed]. rewrite length_append, IH. cbn. lia.
Qed.

Lemma digit_char_compare (a b : Z) :
  (0 <= a < 10)%Z -> (0 <= b < 10)%Z ->
  Ascii.compare (digit_char a) (digit_char b) = (a ?= b)%Z.
Proof.
  intros Ha Hb.
  assert (Ea : In a [0; 1; 2; 3; 4; 5; 6; 7; 8; 9]%Z) by (cbn; lia).
  assert (Eb : In b [0; 1; 2; 3; 4; 5; 6; 7; 8; 9]%Z) by (cbn; lia).
  cbn [In] in Ea, Eb.
  repeat (destruct Ea as [<-|Ea];
          [repeat (destruct Eb as [<-|Eb]; [reflexivity|]); contradiction|]).
  contradiction.
Qed.

Lemma compare_lex_div (a b : Z) :
  (a ?= b)%Z = lex (a / 10 ?= b / 10)%Z (a mod 10 ?= b mod 10)%Z.
Proof.
  pose proof (Z.div_mod a 10 ltac:(lia)) as Da.
  pose proof (Z.div_mod b 10 ltac:(lia)) as Db.
  pose proof (Z.mod_pos_bound a 10 ltac:(lia)).
  pose proof (Z.mod_pos_bound b 10 ltac:(lia)).
  unfold lex.
  destruct (Z.compare_spec (a / 10) (b / 10)) as [E|L|G].
  - rewrite Da, Db at 1. rewrite E.
    destruct (Z.compare_spec (a mod 10) (b mod 10));
      [apply Z.compare_eq_iff | apply Z.compare_lt_iff | apply Z.compare_gt_iff]; lia.
  - apply Z.compare_lt_iff. lia.
  - apply Z.compare_gt_iff. lia.
Qed.



Lemma fixed_compare (w : nat) (a b : Z) :
  (0 <= a < 10 ^ Z.of_nat w)%Z -> (0 <= b < 10 ^ Z.of_nat w)%Z ->
  String.compare (fixed w a) (fixed w b) = (a ?= b)%Z.
Proof.
  revert a b. induction w as [|w IH]; intros a b Ha Hb.
  - cbn in *. assert (a = 0%Z) by lia. assert (b = 0%Z) by lia. subst. reflexivity.
  - cbn [fixed]. rewrite compare_append by (rewrite !fixed_length; reflexivity).
    rewrite Nat2Z.inj_succ, Z.pow_succ_r in Ha, Hb by lia.
    rewrite IH by (split; [apply Z.div_pos; lia | apply Z.div_lt_upper_bound; lia]).
    cbn [String.compare].
    rewrite digit_char_compare by (apply Z.mod_pos_bound; lia).
    rewrite (compare_lex_div a b). unfold lex.
    destruct (a / 10 ?= b / 10)%Z; try reflexivity.
    destruct (a mod 10 ?= b mod 10)%Z; reflexivity.
Qed.

Lemma days_in_month_bounds (y m : Z) : (28 <= JS.days_in_month y m <= 31)%Z.
Proof.
  unfold JS.days_in_month.
  destruct (m =? 1)%Z; [destruct (JS.leap y); lia|].
  destruct ((m =? 3) || (m =? 5) || (m =? 8) || (m =? 10))%Z; lia.
Qed.

Lemma iso_date_fixed (y m d : Z) :
  (0 <= y <= 9999)%Z -> (0 <= m <= 11)%Z -> (0 <= d <= 31)%Z ->
  JS.iso_date (y, m, d)
  = fixed 4 y ++ "-" ++ fixed 2 (m + 1) ++ "-" ++ fixed 2 d.
Proof.
  intros Hy Hm Hd. unfold JS.iso_date, JS.iso_year.
  replace ((0 <=? y) && (y <=? 9999))%Z with true
    by (symmetry; apply andb_true_iff; split; apply Z.leb_le; lia).
  rewrite (padStart0_fixed 4 (100 * 100) y pads_as_fixed_4) by lia.
  rewrite (padStart0_fixed 2 100 (m + 1) pads_as_fixed_2) by lia.
  rewrite (padStart0_fixed 2 100 d pads_as_fixed_2) by lia.
  reflexivity.
Qed.

Lemma iso_date_length (y m d : Z) :
  (0 <= y <= 9999)%Z -> (0 <= m <= 11)%Z -> (0 <= d <= 31)%Z ->
  String.length (JS.iso_date (y, m, d)) = 10%nat.
Proof.
  intros Hy Hm Hd. rewrite iso_date_fixed by assumption.
  rewrite !length_append, !fixed_length. reflexivity.
Qed.

Lemma compare_dash (a b : string) :
  String.compare ("-" ++ a) ("-" ++ b) = String.compare a b.
Proof. reflexivity. Qed.

Lemma iso_date_compare (y m d y' m' d' : Z) :
  (0 <= y <= 9999)%Z -> (0 <= m <= 11)%Z -> (0 <= d <= 31)%Z ->
  (0 <= y' <= 9999)%Z -> (0 <= m' <= 11)%Z -> (0 <= d' <= 31)%Z ->
  String.compare (JS.iso_date (y, m, d)) (JS.iso_date (y', m', d'))
  = lex (y ?= y')%Z (lex (m ?= m')%Z (d ?= d')%Z).
Proof.
  intros Hy Hm Hd Hy' Hm' Hd'. rewrite !iso_date_fixed by assumption.
  rewrite compare_append, compare_dash by (rewrite !fixed_length; reflexivity).
  rewrite compare_append, compare_dash by (rewrite !fixed_length; reflexivity).
  rewrite !fixed_compare by (cbn; lia).
  rewrite (Z.add_comm m 1), (Z.add_comm m' 1), Z.add_compare_mono_l.
  reflexivity.
Qed.

Lemma substring_prefix (s t : string) :
  substring 0 (String.length s) (s ++ t) = s.
Proof. induction s as [|c s IH]; cbn; [destruct t; reflexivity | now rewrite IH]. Qed.

Lemma slice_iso_date (y m d : Z) :
  (0 <= y <= 9999)%Z -> (0 <= m <= 11)%Z -> (0 <= d <= 31)%Z ->
  JS.slice0 10 (JS.iso_date (y, m, d) ++ "T") = JS.iso_date (y, m, d).
Proof.
  intros Hy Hm Hd. unfold JS.slice0.
  rewrite <- (iso_date_length y m d Hy Hm Hd) at 1. apply substring_prefix.
Qed.

Lemma prev_day_first (y m : Z) :
  JS.prev_day (y, m, 1%Z)
  = (if (0 <? m)%Z then (y, (m - 1)%Z, JS.days_in_month y (m - 1))
     else ((y - 1)%Z, 11%Z, 31%Z)).
Proof. reflexivity. Qed.

(** [new Date(y, m, 1)] and [new Date(y, m + 1, 0)]: the first and the
    last day of month [m]. *)
Lemma full_year (y : Z) :
  (100 <= y)%Z -> (if (0 <=? y) && (y <=? 99) then 1900 + y else y)%Z = y.
Proof.
  intros H. replace (y <=? 99)%Z with false by (symmetry; apply Z.leb_gt; lia).
  rewrite andb_false_r. reflexivity.
Qed.

Lemma newDate_first (zn : JS.civil -> Z) (y m : Z) :
  (100 <= y)%Z -> (0 <= m <= 11)%Z ->
  JS.newDate zn y m 1 = JS.makeDate y m 1 0 (zn (y, m, 1%Z)) zn.
Proof.
  intros Hy Hm. unfold JS.newDate. rewrite (full_year y Hy).
  change (1 - 1)%Z with 0%Z. cbn [JS.add_days].
  rewrite Z.div_small, Z.mod_small, Z.add_0_r by lia. reflexivity.
Qed.

Lemma newDate_last (zn : JS.civil -> Z) (y m : Z) :
  (100 <= y)%Z -> (0 <= m <= 11)%Z ->
  JS.newDate zn y (m + 1) 0
  = JS.makeDate y m (JS.days_in_month y m) 0 (zn (y, m, JS.days_in_month y m)) zn.
Proof.
  intros Hy Hm. unfold JS.newDate. rewrite (full_year y Hy).
  change (0 - 1)%Z with (-1)%Z.
  change (JS.add_days (-1) ?c) with (JS.prev_day c).
  destruct (Z.eq_dec m 11) as [E|N].
  - rewrite E. change ((11 + 1) / 12)%Z with 1%Z. change ((11 + 1) mod 12)%Z with 0%Z.
    rewrite prev_day_first. change (0 <? 0)%Z with false. cbv iota.
    replace (y + 1 - 1)%Z with y by lia. reflexivity.
  - rewrite Z.div_small, Z.mod_small, Z.add_0_r by lia.
    rewrite prev_day_first.
    replace (0 <? m + 1)%Z with true by (symmetry; apply Z.ltb_lt; lia).
    replace (m + 1 - 1)%Z with m by lia. reflexivity.
Qed.

Lemma iso_date_leb (y m d y' m' d' : Z) :
  (0 <= y <= 9999)%Z -> (0 <= m <= 11)%Z -> (0 <= d <= 31)%Z ->
  (0 <= y' <= 9999)%Z -> (0 <= m' <= 11)%Z -> (0 <= d' <= 31)%Z ->
  (JS.iso_date (y, m, d) <=? JS.iso_date (y', m', d')) = true <->
  (y < y' \/ (y = y' /\ (m < m' \/ (m = m' /\ d <= d'))))%Z.
Proof.
  intros Hy Hm Hd Hy' Hm' Hd'. unfold String.leb.
  rewrite iso_date_compare by assumption. unfold lex.
  destruct (Z.compare_spec y y'); [|split; [lia | reflexivity] | split; [discriminate | lia]].
  destruct (Z.compare_spec m m'); [|split; [lia | reflexivity] | split; [discriminate | lia]].
  destruct (Z.compare_spec d d'); (split; [intros; try discriminate; lia | intros; try reflexivity; lia]).
Qed.

Lemma prev_day_later (y m d : Z) :
  (1 < d)%Z -> JS.prev_day (y, m, d) = (y, m, (d - 1)%Z).
Proof.
  intros H. unfold JS.prev_day. apply Z.ltb_lt in H. rewrite H. reflexivity.
Qed.

Lemma prev_day_first_valid (y m : Z) :
  (1 <= y <= 9999)%Z -> (0 <= m <= 11)%Z ->
  exists y' m' d',
    JS.prev_day (y, m, 1%Z) = (y', m', d') /\ valid_day y' m' d' /\
    (y' < y \/ (y' = y /\ m' < m))%Z.
Proof.
  intros Hy Hm. rewrite prev_day_first. destruct (0 <? m)%Z eqn:E.
  - apply Z.ltb_lt in E. pose proof (days_in_month_bounds y (m - 1)).
    eexists _, _, _. split; [reflexivity|]. unfold valid_day. lia.
  - eexists _, _, _. split; [reflexivity|]. unfold valid_day.
    change (JS.days_in_month (y - 1) 11) with 31%Z. lia.
Qed.

(** Local midnight of a day falls on that day in UTC at or west of
    Greenwich, and on the day before east of it. *)
Lemma utc_day_of_midnight (y m d tz : Z) (zn : JS.civil -> Z) :
  (-1440 <= tz < 1440)%Z ->
  JS.utc_day (JS.makeDate y m d 0 tz zn)
  = if (tz <? 0)%Z then JS.prev_day (y, m, d) else (y, m, d).
Proof.
  intros Htz. unfold JS.utc_day. cbn [JS.minutes JS.tzOffset JS.year JS.month JS.day].
  rewrite Z.add_0_l. destruct (tz <? 0)%Z eqn:E.
  - apply Z.ltb_lt in E.
    replace (tz / 1440)%Z with (-1)%Z
      by (apply Z.div_unique with (r := (tz + 1440)%Z); lia).
    reflexivity.
  - apply Z.ltb_ge in E. rewrite Z.div_small by lia. reflexivity.
Qed.

(** The range of the month, from the offsets of its two midnights: an
    end of the range moves back one day when the device is east of
    Greenwich at that midnight. *)
Lemma month_range_offsets (now : JS.Date) :
  (-1440 <= first_midnight now < 1440)%Z -> (-1440 <= last_midnight now < 1440)%Z ->
  (100 <= JS.year now <= 9999)%Z -> (0 <= JS.month now <= 11)%Z ->
  month_range now
  = (JS.iso_date (if (first_midnight now <? 0)%Z
                  then JS.prev_day (JS.year now, JS.month now, 1%Z)
                  else (JS.year now, JS.month now, 1%Z)),
     JS.iso_date (JS.year now, JS.month now,
                  if (last_midnight now <? 0)%Z
                  then (JS.days_in_month (JS.year now) (JS.month now) - 1)%Z
                  else JS.days_in_month (JS.year now) (JS.month now))).
Proof.
  intros Hf Hl Hy Hm. unfold first_midnight, last_midnight in *.
  pose proof (days_in_month_bounds (JS.year now) (JS.month now)) as Hd.
  destruct (prev_day_first_valid (JS.year now) (JS.month now) ltac:(lia) Hm)
    as (y' & m' & d' & Ep & (Vy & Vm & Vd) & _).
  pose proof (days_in_month_bounds y' m') as Hd'.
  unfold month_range, JS.getFullYear, JS.getMonth.
  rewrite (newDate_first (JS.zone now) (JS.year now) (JS.month now)) by lia.
  rewrite (newDate_last (JS.zone now) (JS.year now) (JS.month now)) by lia.
  unfold JS.toISOString_slice10.
  rewrite !utc_day_of_midnight by assumption.
  rewrite (prev_day_later _ _ (JS.days_in_month (JS.year now) (JS.month now))) by lia.
  destruct (JS.zone now (JS.year now, JS.month now, 1%Z) <? 0)%Z;
    destruct (JS.zone now (JS.year now, JS.month now,
                           JS.days_in_month (JS.year now) (JS.month now)) <? 0)%Z;
    rewrite ?Ep, !slice_iso_date by lia; reflexivity.
Qed.

(** West of Greenwich, or on it, at both midnights, the range is the
    calendar month. *)
Lemma month_range_west (now : JS.Date) :
  (0 <= first_midnight now < 1440)%Z -> (0 <= last_midnight now < 1440)%Z ->
  (100 <= JS.year now <= 9999)%Z -> (0 <= JS.month now <= 11)%Z ->
  month_range now
  = (JS.iso_date (JS.year now, JS.month now, 1%Z),
     JS.iso_date (JS.year now, JS.month now,
                  JS.days_in_month (JS.year now) (JS.month now))).
Proof.
  intros Hf Hl Hy Hm. rewrite month_range_offsets by lia.
  replace (first_midnight now <? 0)%Z with false by (symmetry; apply Z.ltb_ge; lia).
  replace (last_midnight now <? 0)%Z with false by (symmetry; apply Z.ltb_ge; lia).
  reflexivity.
Qed.

(** X1.  On a device that is at or west of Greenwich at the first and
    at the last midnight of the month, the filter is exact: a row dated
    on a calendar day is selected if and only if the day lies in the
    month of [now]. *)
Theorem month_filter_exact_west (now : JS.Date) (y m d : Z) (t : Transaction) :
  (0 <= first_midnight now < 1440)%Z -> (0 <= last_midnight now < 1440)%Z ->
  (100 <= JS.year now <= 9999)%Z -> (0 <= JS.month now <= 11)%Z ->
  valid_day y m d ->
  tdate t = JS.iso_date (y, m, d) ->
  in_range (fst (month_range now)) (snd (month_range now)) t = true <->
  y = JS.year now /\ m = JS.month now.
Proof.
  intros Hf Hl Hy Hm (Vy & Vm & Vd) Ht.
  pose proof (days_in_month_bounds (JS.year now) (JS.month now)) as Hb.
  pose proof (days_in_month_bounds y m) as Hb'.
  rewrite (month_range_west now Hf Hl Hy Hm). cbn [fst snd].
  unfold in_range. rewrite Ht, andb_true_iff, !iso_date_leb by lia.
  split.
  - intros [H1 H2]. lia.
  - intros [-> ->]. lia.
Qed.

(** X2.  The two ends move apart from the calendar month one by one:
    the last day of the month is selected if and only if the device is
    at or west of Greenwich at the midnight that opens it, and the day
    before the first of the month is selected if and only if the device
    is east of Greenwich at the first midnight of the month. *)
Lemma month_filter_shifted_east (now : JS.Date) (t_last t_before : Transaction) :
  (-1440 <= first_midnight now < 1440)%Z -> (-1440 <= last_midnight now < 1440)%Z ->
  (100 <= JS.year now <= 9999)%Z -> (0 <= JS.month now <= 11)%Z ->
  tdate t_last = JS.iso_date (JS.year now, JS.month now,
                              JS.days_in_month (JS.year now) (JS.month now)) ->
  tdate t_before = JS.iso_date (JS.prev_day (JS.year now, JS.month now, 1%Z)) ->
  (in_range (fst (month_range now)) (snd (month_range now)) t_last = true
   <-> (0 <= last_midnight now)%Z) /\
  (in_range (fst (month_range now)) (snd (month_range now)) t_before = true
   <-> (first_midnight now < 0)%Z).
Proof.
  intros Hf Hl Hy Hm Etl Etb.
  pose proof (days_in_month_bounds (JS.year now) (JS.month now)) as Hd.
  destruct (prev_day_first_valid (JS.year now) (JS.month now) ltac:(lia) Hm)
    as (y' & m' & d' & Ep & (Vy & Vm & Vd) & Hlt).
  pose proof (days_in_month_bounds y' m') as Hd'.
  rewrite (month_range_offsets now Hf Hl Hy Hm). cbn [fst snd].
  unfold in_range. rewrite Etl, Etb, Ep.
  destruct (first_midnight now <? 0)%Z eqn:Ef;
    destruct (last_midnight now <? 0)%Z eqn:El;
    rewrite ?Z.ltb_lt, ?Z.ltb_ge in Ef, El;
    rewrite !andb_true_iff, !iso_date_leb by lia; lia.
Qed.

(** In Brazil, the purchase of 31 March is in the range of mid March and
    the one of 29 February is not. *)
Lemma month_filter_exact_west_witness :
  (0 <= first_midnight (mid_march 180) < 1440)%Z /\
  (0 <= last_midnight (mid_march 180) < 1440)%Z /\
  (100 <= JS.year (mid_march 180) <= 9999)%Z /\
  (0 <= JS.month (mid_march 180) <= 11)%Z /\
  valid_day 2024 2 31 /\ valid_day 2024 1 29 /\
  month_range (mid_march 180) = ("2024-03-01", "2024-03-31") /\
  (in_range "2024-03-01" "2024-03-31"
     (mkTransaction 3 "2024-03-31" "Mercado" (-300) "expense" 1 (Some 4%Z) "") = true
   <-> 2024%Z = JS.year (mid_march 180) /\ 2%Z = JS.month (mid_march 180)) /\
  (in_range "2024-03-01" "2024-03-31" leap_day_purchase = true
   <-> 2024%Z = JS.year (mid_march 180) /\ 1%Z = JS.month (mid_march 180)).
Proof.
  assert (V1 : valid_day 2024 2 31) by (unfold valid_day; cbn; lia).
  assert (V2 : valid_day 2024 1 29) by (unfold valid_day; cbn; lia).
  assert (F : (0 <= first_midnight (mid_march 180) < 1440)%Z) by (cbn; lia).
  assert (L : (0 <= last_midnight (mid_march 180) < 1440)%Z) by (cbn; lia).
  assert (Y : (100 <= JS.year (mid_march 180) <= 9999)%Z) by (cbn; lia).
  assert (M : (0 <= JS.month (mid_march 180) <= 11)%Z) by (cbn; lia).
  repeat (split; [assumption|]). split; [reflexivity|]. split.
  - exact (month_filter_exact_west (mid_march 180) 2024 2 31
             (mkTransaction 3 "2024-03-31" "Mercado" (-300) "expense" 1 (Some 4%Z) "")
             F L Y M V1 eq_refl).
  - exact (month_filter_exact_west (mid_march 180) 2024 1 29 leap_day_purchase
             F L Y M V2 eq_refl).
Defined.

(** In London on 28 October 2024 the clocks are back on Greenwich time,
    but the month opened in summer time: the range runs from 30
    September to 31 October, so the last day of October is selected and
    so is the last day of September. *)
Lemma month_filter_shifted_east_witness :
  (-1440 <= first_midnight late_october_in_london < 1440)%Z /\
  (-1440 <= last_midnight late_october_in_london < 1440)%Z /\
  (100 <= JS.year late_october_in_london <= 9999)%Z /\
  (0 <= JS.month late_october_in_london <= 11)%Z /\
  JS.tzOffset late_october_in_london = 0%Z /\
  first_midnight late_october_in_london = (-60)%Z /\
  last_midnight late_october_in_london = 0%Z /\
  month_range late_october_in_london = ("2024-09-30", "2024-10-31") /\
  (in_range (fst (month_range late_october_in_london))
            (snd (month_range late_october_in_london))
            (mkTransaction 5 "2024-10-31" "Mercado" (-120) "expense" 1 (Some 4%Z) "") = true
   <-> (0 <= last_midnight late_october_in_london)%Z) /\
  (in_range (fst (month_range late_october_in_london))
            (snd (month_range late_october_in_london))
            (mkTransaction 4 "2024-09-30" "Mercado" (-80) "expense" 1 (Some 4%Z) "") = true
   <-> (first_midnight late_october_in_london < 0)%Z).
Proof.
  assert (F : (-1440 <= first_midnight late_october_in_london < 1440)%Z) by (cbn; lia).
  assert (L : (-1440 <= last_midnight late_october_in_london < 1440)%Z) by (cbn; lia).
  assert (Y : (100 <= JS.year late_october_in_london <= 9999)%Z) by (cbn; lia).
  assert (M : (0 <= JS.month late_october_in_london <= 11)%Z) by (cbn; lia).
  repeat (split; [assumption|]).
  split; [reflexivity|]. split; [reflexivity|]. split; [reflexivity|].
  split; [reflexivity|].
  exact (month_filter_shifted_east late_october_in_london
           (mkTransaction 5 "2024-10-31" "Mercado" (-120) "expense" 1 (Some 4%Z) "")
           (mkTransaction 4 "2024-09-30" "Mercado" (-80) "expense" 1 (Some 4%Z) "")
           F L Y M eq_refl eq_refl).
Defined.

End MonthFilter.

(** C8 (month filter), where the program departs from it.  On a device
    one hour ahead of UTC, in mid March 2024, the range is 29 February to
    30 March: local midnight is still the day before in UTC, which is
    what [toISOString] prints.  The purchase of 31 March, the last day of
    the month, is left out of the summary and the one of 29 February,
    the day before the first, is counted. *)
Theorem month_range_east_of_utc :
  JS.tzOffset (clock world_east_of_utc) = (-60)%Z /\
  month_range (clock world_east_of_utc) = ("2024-02-29", "2024-03-30") /\
  map (fun r => tdate (row r)) (month_rows world_east_of_utc)
  = ["2024-03-01"; "2024-03-05"; "2024-02-29"] /\
  exists s : Summary,
    fst (monthSummary world_east_of_utc) = Ok s /\ expense s == 1280.
Proof.
  split; [reflexivity|]. split; [reflexivity|]. split; [reflexivity|].
  eexists. split; reflexivity.
Qed.

(* ================================================================== *)
(** * The rest of the program *)
(* ================================================================== *)

(** Lists of distinct literals. *)
Ltac distinct :=
  repeat (constructor; [cbn; intuition discriminate|]); constructor.

Lemma monthSummary_world (w : World) :
  snd (monthSummary w)
  = after_reads (if hd false (faults w) then 1 else 2) w.
Proof.
  unfold monthSummary, getMonthRangeISO, getSetting, after_reads,
    bind, ret, new_Date, execSql, select_month_rows, select_setting.
  destruct w as [d fs al ck]; cbn [faults db alerts clock].
  destruct (month_range ck) as [start end_].
  destruct fs as [|[|] [|[|] fs]]; reflexivity.
Qed.

(** X6.  The summary only reads: whatever the store holds and whether
    or not it fails, [monthSummary] leaves every table, the notices and
    the clock as they were. *)
Theorem monthSummary_reads_only (w : World) :
  db (exec monthSummary w) = db w /\
  alerts (exec monthSummary w) = alerts w /\
  clock (exec monthSummary w) = clock w.
Proof.
  unfold exec. rewrite monthSummary_world. repeat split.
Qed.

Lemma totals_extra_filtered (cs : list Category) (p : Transaction -> bool)
    (l1 l2 : list Transaction) (t : Transaction) :
  p t = false ->
  totals (flat_map (left_join cs) (filter p (l1 ++ t :: l2)%list)) =
  totals (flat_map (left_join cs) (filter p (l1 ++ l2)%list)).
Proof.
  intros Hp. rewrite !filter_app. cbn [filter]. rewrite Hp. reflexivity.
Qed.

(** X7.  A transaction dated outside the range of the month, whatever
    its kind and wherever it sits in the table, changes nothing in what
    the summary returns. *)
Theorem monthSummary_ignores_other_months
    (w : World) (l1 l2 : list Transaction) (t : Transaction) :
  transactions (db w) = (l1 ++ l2)%list ->
  in_range (fst (month_range (clock w))) (snd (month_range (clock w))) t = false ->
  fst (monthSummary (with_extra w l1 t l2)) = fst (monthSummary w).
Proof.
  intros Hl Hr. destruct (calm 2 w) eqn:Hc.
  - rewrite (monthSummary_calm w Hc).
    rewrite (monthSummary_calm (with_extra w l1 t l2)) by exact Hc.
    cbn [fst]. do 2 f_equal.
    unfold month_rows, with_extra. cbn [db clock transactions categories with_transactions].
    rewrite Hl. apply totals_extra_filtered. exact Hr.
  - rewrite (monthSummary_throws w Hc).
    apply (monthSummary_throws (with_extra w l1 t l2)). exact Hc.
Qed.

(** The purchase of 29 February beside the example month. *)
Lemma monthSummary_ignores_other_months_witness :
  transactions (db (sample_world [])) = (march_transactions ++ [])%list /\
  in_range (fst (month_range (clock (sample_world []))))
           (snd (month_range (clock (sample_world [])))) leap_day_purchase = false /\
  fst (monthSummary (with_extra (sample_world []) march_transactions leap_day_purchase []))
  = fst (monthSummary (sample_world [])).
Proof.
  split; [reflexivity|]. split; [reflexivity|].
  exact (monthSummary_ignores_other_months (sample_world []) march_transactions []
           leap_day_purchase eq_refl eq_refl).
Defined.

Lemma sumQ_abs_nonneg (f : SummaryRow -> bool) (rows : list SummaryRow) :
  0 <= sumQ (map abs_amount (filter f rows)).
Proof.
  induction rows as [|r rows IH]; cbn [filter]; [cbn; lra|].
  destruct (f r); [|exact IH]. cbn [map sumQ fold_right]. fold (sumQ (map abs_amount (filter f rows))).
  pose proof (Qabs_nonneg (amount (row r))). unfold abs_amount at 1. lra.
Qed.

(** X8.  With the store answering, and whatever the signs of the stored
    amounts, the parts of the summary are ordered: fixedSpent and
    variableSpent lie between 0 and expense, and variableRemaining is at
    most variableBudget. *)
Theorem monthSummary_spending_bounds (w : World) :
  calm 2 w = true ->
  exists s : Summary,
    fst (monthSummary w) = Ok s /\
    0 <= fixedSpent s /\ fixedSpent s <= expense s /\
    0 <= variableSpent s /\ variableSpent s <= expense s /\
    variableRemaining s <= variableBudget s.
Proof.
  intros Hc. rewrite (monthSummary_calm w Hc). eexists; split; [reflexivity|].
  cbn [expense fixedSpent variableSpent variableBudget variableRemaining finish].
  destruct (totals_sums (month_rows w)) as (_ & _ & Hf & Hv).
  pose proof (fold_add_row_split (month_rows w) (mkTotals 0 0 0 0)) as Hsplit.
  cbn [t_expense t_fixedSpent t_variableSpent] in Hsplit.
  specialize (Hsplit ltac:(ring)). fold (totals (month_rows w)) in Hsplit.
  pose proof (sumQ_abs_nonneg (fun r => is_kind "expense" r && in_fixed_category r)
                (month_rows w)) as Pf.
  pose proof (sumQ_abs_nonneg (fun r => is_kind "expense" r && negb (in_fixed_category r))
                (month_rows w)) as Pv.
  rewrite <- Hf in Pf. rewrite <- Hv in Pv.
  repeat split; lra.
Qed.

(** The example month. *)
Lemma monthSummary_spending_bounds_witness :
  calm 2 (sample_world []) = true /\
  exists s : Summary,
    fst (monthSummary (sample_world [])) = Ok s /\
    0 <= fixedSpent s /\ fixedSpent s <= expense s /\
    0 <= variableSpent s /\ variableSpent s <= expense s /\
    variableRemaining s <= variableBudget s.
Proof.
  split; [reflexivity|].
  exact (monthSummary_spending_bounds (sample_world []) eq_refl).
Defined.

(** Under the sign convention the absolute value of an expense is its
    negation. *)
Lemma fold_add_row_net (rows : list SummaryRow) (a : Totals) :
  (forall r, In r rows -> sign_ok (row r)) ->
  let b := fold_left add_row rows a in
  t_income b - t_expense b
  == t_income a - t_expense a
     + sumQ (map amount_of
               (filter (fun r => is_kind "income" r || is_kind "expense" r) rows)) /\
  (0 <= t_income a -> 0 <= t_income b).
Proof.
  revert a. induction rows as [|r rows IH]; intros a Hs; cbn zeta.
  - unfold sumQ; cbn [fold_left filter map fold_right]. split; [ring | tauto].
  - cbn [fold_left filter].
    assert (Hs' : forall r', In r' rows -> sign_ok (row r'))
      by (intros r' Hr'; apply Hs; right; exact Hr').
    destruct (IH (add_row a r) Hs') as [H1 H2]. cbn zeta in H1, H2.
    destruct (Hs r (or_introl eq_refl)) as [He Hi].
    split.
    + rewrite H1. clear H1 H2. unfold add_row.
      fold (is_kind "income" r) (is_kind "expense" r).
      destruct (is_kind "income" r) eqn:Ki.
      * rewrite (kind_income_not_expense r Ki).
        unfold sumQ, amount_of;
          cbn [orb map fold_right t_income t_expense t_fixedSpent t_variableSpent].
        ring.
      * destruct (is_kind "expense" r) eqn:Ke; cbn [orb].
        -- unfold is_kind in Ke. apply String.eqb_eq in Ke. specialize (He Ke).
           assert (Ea : Qabs (amount (row r)) == - amount (row r))
             by (apply Qabs_neg; exact He).
           destruct (opt_Z_eqb (cat_fixed r) 1);
             unfold sumQ, amount_of;
             cbn [map fold_right t_income t_expense t_fixedSpent t_variableSpent];
             rewrite Ea; ring.
        -- ring.
    + intros Ha. apply H2. unfold add_row.
      fold (is_kind "income" r) (is_kind "expense" r).
      destruct (is_kind "income" r) eqn:Ki.
      * rewrite (kind_income_not_expense r Ki). cbn [t_income].
        unfold is_kind in Ki. apply String.eqb_eq in Ki. specialize (Hi Ki). lra.
      * destruct (is_kind "expense" r); [destruct (opt_Z_eqb (cat_fixed r) 1)|];
          cbn [t_income]; exact Ha.
Qed.

Lemma month_rows_sign_ok (w : World) :
  (forall t, In t (transactions (db w)) -> sign_ok t) ->
  forall r, In r (month_rows w) -> sign_ok (row r).
Proof.
  intros H r Hr. unfold month_rows in Hr. apply in_flat_map in Hr.
  destruct Hr as (t & Ht & Hr). rewrite (left_join_row _ _ _ Hr).
  apply H. apply filter_In in Ht. apply Ht.
Qed.

(** X9.  When every stored row keeps the sign convention, savings is the
    plain sum of the amounts of the month's income and expense rows, and
    income is not negative. *)
Theorem monthSummary_savings_is_net_amount (w : World) :
  calm 2 w = true ->
  (forall t, In t (transactions (db w)) -> sign_ok t) ->
  exists s : Summary,
    fst (monthSummary w) = Ok s /\
    savings s
    == sumQ (map amount_of
               (filter (fun r => is_kind "income" r || is_kind "expense" r)
                       (month_rows w))) /\
    0 <= income s.
Proof.
  intros Hc Hs. rewrite (monthSummary_calm w Hc). eexists; split; [reflexivity|].
  cbn [savings income finish].
  destruct (fold_add_row_net (month_rows w) (mkTotals 0 0 0 0)
              (month_rows_sign_ok w Hs)) as [H1 H2].
  cbn [t_income t_expense] in H1, H2. fold (totals (month_rows w)) in H1, H2.
  split; [rewrite H1; ring | apply H2; lra].
Qed.

Lemma monthSummary_savings_is_net_amount_witness :
  calm 2 (sample_world []) = true /\
  (forall t, In t (transactions (db (sample_world []))) -> sign_ok t) /\
  exists s : Summary,
    fst (monthSummary (sample_world [])) = Ok s /\
    savings s
    == sumQ (map amount_of
               (filter (fun r => is_kind "income" r || is_kind "expense" r)
                       (month_rows (sample_world [])))) /\
    0 <= income s.
Proof.
  assert (H : forall t, In t (transactions (db (sample_world []))) -> sign_ok t).
  { intros t [<-|[<-|[<-|[]]]]; split; cbn; intros E;
      first [discriminate E | discriminate]. }
  split; [reflexivity|]. split; [exact H|].
  exact (monthSummary_savings_is_net_amount (sample_world []) eq_refl H).
Defined.

Section Appends.

Lemma only_appends_refl (d : DB) : only_appends d d.
Proof.
  split; [exists []; symmetry; apply app_nil_r | repeat split].
Qed.

Lemma only_appends_trans (a b c : DB) :
  only_appends a b -> only_appends b c -> only_appends a c.
Proof.
  intros ((r1 & H1) & A1 & C1 & F1 & S1) ((r2 & H2) & A2 & C2 & F2 & S2).
  split; [exists (r1 ++ r2)%list; rewrite H2, H1, app_assoc; reflexivity|].
  repeat split; congruence.
Qed.

Lemma insert_transaction_appends (td de : string) (x : JS.number) (k : string)
    (acc : Z) (cat : option Z) (nt : string) :
  keeps only_appends (execSql (insert_transaction td de x k acc cat nt)).
Proof.
  apply keeps_execSql; [apply only_appends_refl|].
  intros d a d'. unfold insert_transaction.
  destruct x as [q| |b]; try discriminate. destruct (kind_ok k); [|discriminate].
  intros H. injection H as _ <-.
  split; [eexists; reflexivity | repeat split].
Qed.

Ltac stroll :=
  repeat first
    [ assumption
    | exact only_appends_refl
    | exact only_appends_trans
    | apply insert_transaction_appends
    | apply keeps_bind; [ | | intros ?]
    | apply keeps_for_of; [ | | intros ?]
    | apply keeps_ret | apply keeps_alert | apply keeps_new_Date | apply keeps_item0
    | apply keeps_select_account_id | apply keeps_select_category_id ].

Lemma generateMonth_appends (items : list FixedItem) :
  keeps only_appends (generateMonth items).
Proof. unfold generateMonth. stroll. Qed.

Lemma QuickAdd_submit_appends (st : QuickAddState) :
  keeps only_appends (QuickAdd_submit st).
Proof.
  unfold QuickAdd_submit.
  destruct (negb (JS.truthy (amount_of_input (qa_val st)))
            || negb (JS.nonempty (JS.trim (qa_desc st)))); [stroll|].
  destruct (JS.nonempty (qa_cat st)); stroll.
Qed.

End Appends.

(** X10.  The recurrence generator and quick add only append to the
    transactions table: whatever their input and however the store
    fails, the rows already there stay in place and in order, and the
    other tables stay as they were. *)
Theorem inserting_handlers_only_append :
  (forall (items : list FixedItem) (w : World),
      only_appends (db w) (db (exec (generateMonth items) w))) /\
  (forall (st : QuickAddState) (w : World),
      only_appends (db w) (db (exec (QuickAdd_submit st) w))).
Proof.
  split.
  - intros items. exact (generateMonth_appends items).
  - intros st. exact (QuickAdd_submit_appends st).
Qed.

Lemma item0_no_account (d : DB) :
  account_of d = None ->
  map acc_id (filter (fun a => acc_name a =? default_account) (accounts d)) = [].
Proof.
  unfold account_of. destruct (filter _ (accounts d)); [reflexivity | discriminate].
Qed.

(** X11.  Without the default account the generator fails on
    [acc.rows.item(0).id] right after the account lookup, with a
    TypeError: no row is written and no notice raised. *)
Theorem generateMonth_without_account (items : list FixedItem) (w : World) :
  account_of (db w) = None ->
  hd false (faults w) = false ->
  generateMonth items w = (Throw TypeError, after_reads 1 w).
Proof.
  intros Ha Hh. unfold generateMonth, bind at 1, execSql, select_account_id.
  rewrite (item0_no_account (db w) Ha). unfold after_reads.
  destruct w as [d fs al ck]. cbn [faults db alerts clock] in *.
  destruct fs as [|[|] fs]; try discriminate Hh; reflexivity.
Qed.

(** The recurrence generator on a store never set up. *)
Lemma generateMonth_without_account_witness :
  account_of (db blank_world) = None /\
  hd false (faults blank_world) = false /\
  generateMonth sample_items blank_world = (Throw TypeError, after_reads 1 blank_world).
Proof.
  split; [reflexivity|]. split; [reflexivity|].
  exact (generateMonth_without_account sample_items blank_world eq_refl eq_refl).
Defined.

Section GeneratedDates.

Lemma fixed_date_leb (y a b y' a' b' : Z) :
  (0 <= y <= 9999)%Z -> (0 <= a <= 99)%Z -> (0 <= b <= 99)%Z ->
  (0 <= y' <= 9999)%Z -> (0 <= a' <= 99)%Z -> (0 <= b' <= 99)%Z ->
  (fixed_date y a b <=? fixed_date y' a' b') = true <->
  (y < y' \/ (y = y' /\ (a < a' \/ (a = a' /\ b <= b'))))%Z.
Proof.
  intros Hy Ha Hb Hy' Ha' Hb'. unfold String.leb, fixed_date.
  rewrite compare_append, compare_dash by (rewrite !fixed_length; reflexivity).
  rewrite compare_append, compare_dash by (rewrite !fixed_length; reflexivity).
  rewrite !fixed_compare by (cbn; lia). unfold lex.
  destruct (Z.compare_spec y y'); [|split; [lia | reflexivity] | split; [discriminate | lia]].
  destruct (Z.compare_spec a a'); [|split; [lia | reflexivity] | split; [discriminate | lia]].
  destruct (Z.compare_spec b b');
    (split; [intros; try discriminate; lia | intros; try reflexivity; lia]).
Qed.

Lemma digit_char_zero (d : Z) : (0 <= d < 10)%Z -> digit_char d = "0"%char -> d = 0%Z.
Proof.
  intros Hd E. apply Z.compare_eq.
  rewrite <- (digit_char_compare d 0 Hd ltac:(lia)). rewrite E. reflexivity.
Qed.

Lemma repeat0_length (n : nat) : String.length (JS.repeat0 n) = n.
Proof. induction n as [|n IH]; cbn; [reflexivity | now rewrite IH]. Qed.

(** A year of four digits prints as its four digits. *)
Lemma String_of_year (y : Z) :
  (1000 <= y <= 9999)%Z -> JS.String_of y = fixed 4 y.
Proof.
  intros Hy.
  pose proof (padStart0_fixed 4 (100 * 100) y pads_as_fixed_4 ltac:(lia)) as E.
  unfold JS.padStart0 in E.
  destruct (4 - String.length (JS.String_of y))%nat as [|k] eqn:Ek; [exact E|].
  exfalso. cbn [JS.repeat0 String.append fixed] in E.
  replace (fixed 0 (y / 10 / 10 / 10 / 10)) with "" in E by reflexivity.
  cbn [String.append] in E. injection E as E _.
  symmetry in E. apply digit_char_zero in E; [|apply Z.mod_pos_bound; lia].
  rewrite !Z.div_div in E by lia. cbn in E.
  pose proof (Z.div_le_lower_bound y 1000 1 ltac:(lia) ltac:(lia)).
  pose proof (Z.div_lt_upper_bound y 1000 10 ltac:(lia) ltac:(lia)).
  rewrite Z.mod_small in E by lia. lia.
Qed.

Lemma fixed_tdate_fixed (y m d : Z) :
  (1000 <= y <= 9999)%Z -> (0 <= m <= 11)%Z -> (0 <= d <= 99)%Z ->
  fixed_tdate y (m + 1) d = fixed_date y (m + 1) d.
Proof.
  intros Hy Hm Hd. unfold fixed_tdate, fixed_date.
  rewrite (String_of_year y Hy).
  rewrite (padStart0_fixed 2 100 (m + 1) pads_as_fixed_2) by lia.
  rewrite (padStart0_fixed 2 100 d pads_as_fixed_2) by lia.
  reflexivity.
Qed.

End GeneratedDates.

(** X12.  On a device that is at or west of Greenwich at the first and
    at the last midnight of the month, in a year of four digits, the row
    generated for a template of day 0 to 99 falls in the range of the
    summary exactly when that day is a day of the current month: the row
    of a template of day 31, generated in a month of 30 days, is dated
    on a day that does not exist and is not counted in that month. *)
Theorem generated_row_counts_iff_day_in_month
    (now : JS.Date) (accId i : Z) (it : FixedItem) :
  (0 <= first_midnight now < 1440)%Z -> (0 <= last_midnight now < 1440)%Z ->
  (1000 <= JS.year now <= 9999)%Z -> (0 <= JS.month now <= 11)%Z ->
  (0 <= it_day it <= 99)%Z ->
  in_range (fst (month_range now)) (snd (month_range now))
           (generated accId (JS.year now) (JS.month now + 1) it i) = true
  <-> (1 <= it_day it <= JS.days_in_month (JS.year now) (JS.month now))%Z.
Proof.
  intros Hf Hl Hy Hm Hd.
  pose proof (days_in_month_bounds (JS.year now) (JS.month now)) as Hb.
  rewrite (month_range_west now Hf Hl ltac:(lia) Hm). cbn [fst snd].
  unfold in_range, generated. cbn [tdate].
  rewrite (fixed_tdate_fixed _ _ _ Hy Hm Hd).
  rewrite !iso_date_fixed by lia. fold (fixed_date (JS.year now) (JS.month now + 1) 1).
  fold (fixed_date (JS.year now) (JS.month now + 1)
                   (JS.days_in_month (JS.year now) (JS.month now))).
  rewrite andb_true_iff, !fixed_date_leb by lia. lia.
Qed.

(** The rent of day 5, generated in mid March. *)
Lemma generated_row_counts_iff_day_in_month_witness :
  (0 <= first_midnight (mid_march 180) < 1440)%Z /\
  (0 <= last_midnight (mid_march 180) < 1440)%Z /\
  (1000 <= JS.year (mid_march 180) <= 9999)%Z /\
  (0 <= JS.month (mid_march 180) <= 11)%Z /\
  (0 <= it_day (mkFixedItem 1 "Aluguel" 1200 5 (Some 1%Z)) <= 99)%Z /\
  (in_range (fst (month_range (mid_march 180))) (snd (month_range (mid_march 180)))
            (generated 1 (JS.year (mid_march 180)) (JS.month (mid_march 180) + 1)
                       (mkFixedItem 1 "Aluguel" 1200 5 (Some 1%Z)) 4) = true
   <-> (1 <= it_day (mkFixedItem 1 "Aluguel" 1200 5 (Some 1%Z))
        <= JS.days_in_month (JS.year (mid_march 180)) (JS.month (mid_march 180)))%Z).
Proof.
  assert (F : (0 <= first_midnight (mid_march 180) < 1440)%Z) by (cbn; lia).
  assert (L : (0 <= last_midnight (mid_march 180) < 1440)%Z) by (cbn; lia).
  assert (Y : (1000 <= JS.year (mid_march 180) <= 9999)%Z) by (cbn; lia).
  assert (M : (0 <= JS.month (mid_march 180) <= 11)%Z) by (cbn; lia).
  assert (D : (0 <= it_day (mkFixedItem 1 "Aluguel" 1200 5 (Some 1%Z)) <= 99)%Z)
    by (cbn; lia).
  repeat (split; [assumption|]).
  exact (generated_row_counts_iff_day_in_month (mid_march 180) 1 4
           (mkFixedItem 1 "Aluguel" 1200 5 (Some 1%Z)) F L Y M D).
Defined.

Section Settings.

Lemma stored_after_upsert_other (key value key' : string) (d d' : DB) :
  key' <> key ->
  upsert_setting key value d = Done tt d' -> stored key' d' = stored key' d.
Proof.
  intros Hk. unfold upsert_setting, stored. intros H. injection H as <-. cbn [settings].
  apply String.eqb_neq in Hk.
  assert (E : forall l,
             filter (fun kv => fst kv =? key')
                    (map (fun kv : string * string =>
                            if fst kv =? key then (key, value) else kv) l)
             = filter (fun kv => fst kv =? key') l).
  { induction l as [|kv l IH]; [reflexivity|]. cbn [map filter].
    destruct (fst kv =? key) eqn:E.
    - cbn [fst]. apply String.eqb_eq in E. rewrite E.
      rewrite String.eqb_sym, Hk. exact IH.
    - destruct (fst kv =? key'); rewrite IH; reflexivity. }
  destruct (existsb _ (settings d)).
  - rewrite E. reflexivity.
  - rewrite filter_app. cbn [filter fst]. rewrite String.eqb_sym, Hk, app_nil_r.
    reflexivity.
Qed.

Lemma getSetting_calm (key def : string) (w : World) :
  hd false (faults w) = false ->
  getSetting key def w
  = (Ok (match stored key (db w) with Some v => v | None => def end),
     after_reads 1 w).
Proof.
  intros Hh. unfold getSetting, bind, execSql, select_setting, stored, after_reads, ret.
  destruct w as [d fs al ck]. cbn [faults db alerts clock] in *.
  destruct fs as [|[|] fs]; try discriminate Hh;
    destruct (filter _ (settings d)); reflexivity.
Qed.

End Settings.

(** X13.  A setting written is the setting read: after [setSetting key
    val], with the store answering, [getSetting] returns val for the
    same key and, for another key, what it returned before: the stored
    value or the default. *)
Theorem setSetting_then_getSetting (key val key' def : string) (w : World) :
  calm 2 w = true ->
  fst ((setSetting key val ;;; getSetting key' def) w)
  = Ok (if key' =? key then val
        else match stored key' (db w) with Some v => v | None => def end).
Proof.
  intros Hc. apply calm_S in Hc. destruct Hc as [Hh Hc].
  apply calm_S in Hc. destruct Hc as [Hh2 _]. cbn [faults] in Hh2.
  unfold bind at 1, setSetting, execSql.
  destruct (upsert_setting key val (db w)) as [[] d'|] eqn:E;
    [|unfold upsert_setting in E; discriminate E].
  assert (R : forall w', db w' = d' -> faults w' = tl (faults w) ->
               fst (getSetting key' def w')
               = Ok (if key' =? key then val
                     else match stored key' (db w) with Some v => v | None => def end)).
  { intros w' Hd Hf. rewrite getSetting_calm by (rewrite Hf; exact Hh2).
    cbn [fst]. rewrite Hd. destruct (key' =? key) eqn:Ek.
    - apply String.eqb_eq in Ek. subst key'.
      rewrite (stored_after_upsert key val (db w) d' E). reflexivity.
    - apply String.eqb_neq in Ek.
      rewrite (stored_after_upsert_other key val key' (db w) d' Ek E). reflexivity. }
  destruct (faults w) as [|[|] fs]; try discriminate Hh; apply R; reflexivity.
Qed.

(** Writing Y and reading it back. *)
Lemma setSetting_then_getSetting_witness :
  calm 2 (sample_world []) = true /\
  fst ((setSetting "Y" "1500" ;;; getSetting "Y" "0") (sample_world [])) = Ok "1500".
Proof.
  split; [reflexivity|].
  exact (setSetting_then_getSetting "Y" "1500" "Y" "0" (sample_world []) eq_refl).
Defined.

Lemma render_nonempty (lead : string) (n : Numeral) (rest : string) :
  well_formed n = true -> JS.nonempty (lead ++ render n ++ rest) = true.
Proof.
  destruct n as [ng [|c ip] fr]; [discriminate|]. intros _.
  destruct lead; [|reflexivity]. destruct ng; reflexivity.
Qed.

(** X14.  After the settings screen saves the text y, with the store
    answering, the Y of the summary is 0 when the field was left empty
    and when y starts with no numeral.  When y starts, after any white
    space, with a decimal numeral in the range of doubles, Y is the
    number the numeral denotes, whatever follows it that does not
    continue it: a decimal comma and the digits after it are dropped. *)
Theorem Config_save_sets_Y (y : string) (w : World) :
  calm 3 w = true ->
  exists s : Summary,
    fst ((Config_save y ;;; monthSummary) w) = Ok s /\
    (y = "" -> Y s == 0) /\
    (no_leading_numeral y = true -> Y s == 0) /\
    (forall (lead : string) (n : Numeral) (rest : string),
        JS.blank lead = true -> well_formed n = true ->
        ends_numeral rest = true -> double_range (numeral_value n) ->
        y = lead ++ render n ++ rest -> Y s == numeral_value n).
Proof.
  intros Hc. apply calm_S in Hc. destruct Hc as [Hh Hc].
  unfold bind at 1, Config_save, bind at 1, setSetting, execSql, alert.
  destruct (upsert_setting "fixed_monthly_budget" (if JS.nonempty y then y else "0") (db w))
    as [[] d'|] eqn:E; [|unfold upsert_setting in E; discriminate E].
  assert (R : forall w', db w' = d' -> faults w' = tl (faults w) ->
               exists s, fst (monthSummary w') = Ok s /\
                         Y s = Y_of_setting (if JS.nonempty y then y else "0")).
  { intros w' Hd Hf.
    assert (Hc' : calm 2 w' = true).
    { unfold calm in *. rewrite Hf. exact Hc. }
    rewrite (monthSummary_calm w' Hc'). eexists. split; [reflexivity|].
    cbn [Y finish]. rewrite Hd.
    change budget_key with "fixed_monthly_budget".
    rewrite (stored_after_upsert _ _ (db w) d' E). reflexivity. }
  assert (S : forall w', db w' = d' -> faults w' = tl (faults w) ->
               exists s, fst (monthSummary w') = Ok s /\
                 (y = "" -> Y s == 0) /\
                 (no_leading_numeral y = true -> Y s == 0) /\
                 (forall (lead : string) (n : Numeral) (rest : string),
                     JS.blank lead = true -> well_formed n = true ->
                     ends_numeral rest = true -> double_range (numeral_value n) ->
                     y = lead ++ render n ++ rest -> Y s == numeral_value n)).
  { intros w' Hd Hf. destruct (R w' Hd Hf) as (s & Hs & Hy).
    exists s. split; [exact Hs|]. rewrite Hy. split; [|split].
    - intros ->. reflexivity.
    - intros Hn. destruct y; [reflexivity|]. apply Y_of_setting_none, Hn.
    - intros lead n rest Hl Hn Hr _ ->.
      rewrite (render_nonempty lead n rest Hn). apply Y_of_setting_head; assumption. }
  destruct (faults w) as [|[|] fs]; try discriminate Hh; cbn [snd db faults alerts clock];
    apply S; reflexivity.
Qed.

(** "1500,75" saved: Y is 1500. *)
Lemma Config_save_sets_Y_witness :
  calm 3 (sample_world []) = true /\
  JS.blank "" = true /\ well_formed (mkNumeral false "1500" None) = true /\
  ends_numeral ",75" = true /\
  double_range (numeral_value (mkNumeral false "1500" None)) /\
  exists s : Summary,
    fst ((Config_save "1500,75" ;;; monthSummary) (sample_world [])) = Ok s /\
    Y s == 1500.
Proof.
  assert (R : double_range (numeral_value (mkNumeral false "1500" None))).
  { split; [|right]; vm_compute; reflexivity. }
  split; [reflexivity|]. split; [reflexivity|]. split; [reflexivity|].
  split; [reflexivity|]. split; [exact R|].
  destruct (Config_save_sets_Y "1500,75" (sample_world []) eq_refl)
    as (s & Hs & _ & _ & Hy).
  exists s. split; [exact Hs|].
  rewrite (Hy "" (mkNumeral false "1500" None) ",75" eq_refl eq_refl eq_refl R eq_refl).
  reflexivity.
Defined.

Section Delete.

Lemma deleteTransaction_calm (i : Z) (w : World) :
  hd false (faults w) = false ->
  deleteTransaction i w
  = (Ok tt,
     mkWorld (with_transactions (db w)
                (filter (fun t => negb (id t =? i)%Z) (transactions (db w)))
                (seq_transactions (db w)))
             (tl (faults w)) (alerts w) (clock w)).
Proof.
  intros Hh. unfold deleteTransaction, execSql, delete_transaction.
  destruct (faults w) as [|[|] fs]; try discriminate Hh; reflexivity.
Qed.

End Delete.

(** X15.  With the store answering, [deleteTransaction] removes exactly
    the rows of that id; deleting again changes nothing. *)
Theorem deleteTransaction_removes (i : Z) (w : World) :
  calm 2 w = true ->
  let w1 := exec (deleteTransaction i) w in
  (forall t, In t (transactions (db w1)) <->
             In t (transactions (db w)) /\ id t <> i) /\
  db (exec (deleteTransaction i) w1) = db w1.
Proof.
  intros Hc w1. apply calm_S in Hc. destruct Hc as [Hh Hc].
  apply calm_S in Hc. destruct Hc as [Hh2 _]. cbn [faults] in Hh2.
  unfold w1, exec. rewrite (deleteTransaction_calm i w Hh). cbn [snd].
  rewrite deleteTransaction_calm by exact Hh2.
  cbn [snd db transactions with_transactions seq_transactions]. split.
  - intros t. rewrite filter_In, negb_true_iff, Z.eqb_neq. reflexivity.
  - assert (E : forall l, filter (fun t => negb (id t =? i)%Z)
                            (filter (fun t => negb (id t =? i)%Z) l)
                          = filter (fun t => negb (id t =? i)%Z) l).
    { induction l as [|t l IH]; [reflexivity|]. cbn [filter].
      destruct (negb (id t =? i)%Z) eqn:Et; [|exact IH].
      cbn [filter]. rewrite Et, IH. reflexivity. }
    rewrite E. reflexivity.
Qed.

(** Deleting the rent of the example month. *)
Lemma deleteTransaction_removes_witness :
  calm 2 (sample_world []) = true /\
  (forall t, In t (transactions (db (exec (deleteTransaction 2) (sample_world [])))) <->
             In t (transactions (db (sample_world []))) /\ id t <> 2%Z) /\
  db (exec (deleteTransaction 2) (exec (deleteTransaction 2) (sample_world [])))
  = db (exec (deleteTransaction 2) (sample_world [])).
Proof.
  split; [reflexivity|].
  exact (deleteTransaction_removes 2 (sample_world []) eq_refl).
Defined.

Section Update.

Lemma category_lookup {B} (k : option Z -> M B) (w : World) (n : string) :
  hd false (faults w) = false ->
  (c <- (r <- execSql (select_category_id n) ;;
         ret (match r with c :: _ => Some c | [] => None end)) ;;
   k c) w
  = k (category_named n (db w)) (after_reads 1 w).
Proof.
  intros Hh. unfold bind, execSql, select_category_id, category_named, ret, after_reads.
  destruct w as [d fs al ck]. cbn [faults db alerts clock] in *.
  destruct fs as [|[|] fs]; try discriminate Hh;
    cbn [tl skipn]; destruct (filter _ (categories d)); reflexivity.
Qed.

Lemma update_statement (td de : string) (a : Q) (k : string) (acc : Z)
    (cat : option Z) (i : Z) (d : DB) :
  kind_ok k = true ->
  exists d',
    update_transaction td de (JS.Num a) k acc cat i d = Done tt d' /\
    transactions d'
    = map (fun t => if (id t =? i)%Z then rewritten td de a k acc cat t else t)
          (transactions d) /\
    accounts d' = accounts d /\ categories d' = categories d /\
    fixed_items d' = fixed_items d /\ settings d' = settings d.
Proof.
  intros Hk. unfold update_transaction. rewrite Hk.
  destruct (existsb (fun t => (id t =? i)%Z) (transactions d)) eqn:E.
  - eexists. split; [reflexivity|]. repeat split.
  - exists d. split; [reflexivity|]. repeat split.
    induction (transactions d) as [|t l IH]; [reflexivity|].
    cbn [existsb] in E. apply orb_false_iff in E. destruct E as [Et El].
    cbn [map]. rewrite Et, <- (IH El). reflexivity.
Qed.

(** The run of [updateTransaction] while the store answers. *)
Lemma updateTransaction_calm (i : Z) (td de : string) (a : Q) (k : string)
    (cn : option string) (w : World) (accId : Z) :
  account_of (db w) = Some accId ->
  calm 3 w = true ->
  kind_ok k = true ->
  exists d' n,
    (n <= 3)%nat /\
    updateTransaction i td de (JS.Num a) k cn w
    = (Ok tt, mkWorld d' (skipn n (faults w)) (alerts w) (clock w)) /\
    transactions d'
    = map (fun t =>
             if (id t =? i)%Z
             then rewritten td de a k accId
                    match cn with
                    | Some n => if JS.nonempty n then category_named n (db w) else None
                    | None => None
                    end t
             else t)
          (transactions (db w)) /\
    accounts d' = accounts (db w) /\ categories d' = categories (db w) /\
    fixed_items d' = fixed_items (db w) /\ settings d' = settings (db w).
Proof.
  intros Ha Hc Hk. apply calm_S in Hc. destruct Hc as [Hh Hc].
  apply calm_S in Hc. destruct Hc as [Hh2 Hc]. cbn [faults] in Hh2.
  apply calm_S in Hc. destruct Hc as [Hh3 _]. cbn [faults] in Hh3.
  unfold updateTransaction. rewrite (account_lookup _ w accId Ha Hh).
  set (cat := match cn with
              | Some n => if JS.nonempty n then category_named n (db w) else None
              | None => None
              end).
  assert (U : forall fs m, (m <= 3)%nat -> tl fs = skipn m (faults w) ->
     hd false fs = false ->
     exists d' n, (n <= 3)%nat /\
     execSql (update_transaction td de (JS.Num a) k accId cat i)
       (mkWorld (db w) fs (alerts w) (clock w))
     = (Ok tt, mkWorld d' (skipn n (faults w)) (alerts w) (clock w)) /\
     transactions d'
     = map (fun t => if (id t =? i)%Z then rewritten td de a k accId cat t else t)
           (transactions (db w)) /\
     accounts d' = accounts (db w) /\ categories d' = categories (db w) /\
     fixed_items d' = fixed_items (db w) /\ settings d' = settings (db w)).
  { intros fs m Hm Hfs Hf. unfold execSql. cbn [db faults alerts clock].
    destruct (update_statement td de a k accId cat i (db w) Hk) as (d' & -> & Hrest).
    exists d', m. split; [exact Hm|]. split; [|exact Hrest].
    rewrite <- Hfs. destruct fs as [|[|] fs]; try discriminate Hf; reflexivity. }
  subst cat. destruct cn as [n|]; [destruct (JS.nonempty n)|].
  - rewrite category_lookup by exact Hh2.
    apply (U _ 3%nat); [lia | | ].
    + cbn [after_reads faults]. destruct (faults w) as [|? [|? [|? ?]]]; reflexivity.
    + cbn [after_reads faults]. destruct (faults w) as [|? [|? [|? ?]]];
        first [reflexivity | exact Hh3].
  - unfold bind at 1, ret. apply (U _ 2%nat); [lia | | exact Hh2].
    destruct (faults w) as [|? [|? ?]]; reflexivity.
  - unfold bind at 1, ret. apply (U _ 2%nat); [lia | | exact Hh2].
    destruct (faults w) as [|? [|? ?]]; reflexivity.
Qed.

End Update.

(** X16.  With the default account in place and the store answering,
    [updateTransaction] rewrites date, description, amount, kind,
    account and category of the rows of that id, keeping id and note;
    the category is the one the name resolves to, NULL for no name, an
    empty one or one that no category has.  The other rows and the other
    tables stay as they were. *)
Theorem updateTransaction_rewrites_the_row
    (i : Z) (td de : string) (a : Q) (k : string) (cn : option string)
    (w : World) (accId : Z) :
  account_of (db w) = Some accId ->
  calm 3 w = true ->
  kind_ok k = true ->
  let cat := match cn with
             | Some n => if JS.nonempty n then category_named n (db w) else None
             | None => None
             end in
  let w' := exec (updateTransaction i td de (JS.Num a) k cn) w in
  fst (updateTransaction i td de (JS.Num a) k cn w) = Ok tt /\
  transactions (db w')
  = map (fun t => if (id t =? i)%Z then rewritten td de a k accId cat t else t)
        (transactions (db w)) /\
  accounts (db w') = accounts (db w) /\ categories (db w') = categories (db w) /\
  fixed_items (db w') = fixed_items (db w) /\ settings (db w') = settings (db w).
Proof.
  intros Ha Hc Hk cat w'.
  destruct (updateTransaction_calm i td de a k cn w accId Ha Hc Hk)
    as (d' & n & _ & Hrun & Hrest).
  unfold w', exec. rewrite Hrun. split; [reflexivity | exact Hrest].
Qed.

(** The rent moved to the 6th and raised to 1250. *)
Lemma updateTransaction_rewrites_the_row_witness :
  account_of (db (sample_world [])) = Some 1%Z /\
  calm 3 (sample_world []) = true /\
  kind_ok "expense" = true /\
  transactions
    (db (exec (updateTransaction 2 "2024-03-06" "Aluguel" (JS.Num (-1250)) "expense"
                 (Some "Aluguel/Condomínio")) (sample_world [])))
  = map (fun t => if (id t =? 2)%Z
                  then rewritten "2024-03-06" "Aluguel" (-1250) "expense" 1
                                 (category_named "Aluguel/Condomínio" (db (sample_world [])))
                                 t
                  else t)
        (transactions (db (sample_world []))).
Proof.
  split; [reflexivity|]. split; [reflexivity|]. split; [reflexivity|].
  exact (proj1 (proj2 (updateTransaction_rewrites_the_row 2 "2024-03-06" "Aluguel" (-1250)
                         "expense" (Some "Aluguel/Condomínio") (sample_world []) 1
                         eq_refl eq_refl eq_refl))).
Defined.

(** X17.  With a description, an amount that reads as a number other
    than zero in the range of doubles, one of the three kinds, the
    default account in place and the store answering, quick add appends
    exactly one row: dated on the
    UTC day of the clock, the description trimmed, the amount -|q| for an
    expense and |q| otherwise, under the default account and the
    category the name resolves to, with an empty note; and it raises the
    closing notice. *)
Theorem QuickAdd_submit_writes_one_row
    (st : QuickAddState) (w : World) (accId : Z) (q : Q) :
  JS.trim (qa_desc st) <> "" ->
  amount_of_input (qa_val st) = JS.Num q -> ~ q == 0 -> double_range q ->
  kind_ok (qa_kind st) = true ->
  account_of (db w) = Some accId ->
  calm 3 w = true ->
  let w' := exec (QuickAdd_submit st) w in
  fst (QuickAdd_submit st w) = Ok tt /\
  transactions (db w')
  = (transactions (db w) ++
     [mkTransaction
        (fresh_id (map id (transactions (db w))) (seq_transactions (db w)))
        (JS.toISOString_slice10 (clock w))
        (JS.trim (qa_desc st))
        (if qa_kind st =? "expense" then - Qabs q else Qabs q)
        (qa_kind st) accId
        (if JS.nonempty (qa_cat st) then category_named (qa_cat st) (db w) else None)
        ""])%list /\
  alerts w' = (alerts w ++ [("OK", "Lançamento adicionado.")])%list.
Proof.
  intros Hd Ha Hq _ Hk Hacc Hc w'. apply calm_S in Hc. destruct Hc as [Hh Hc].
  apply calm_S in Hc. destruct Hc as [Hh2 Hc]. cbn [faults] in Hh2.
  apply calm_S in Hc. destruct Hc as [Hh3 _]. cbn [faults] in Hh3.
  unfold w', exec, QuickAdd_submit. rewrite Ha. cbn [JS.truthy].
  replace (Qeq_bool q 0) with false
    by (symmetry; apply not_true_iff_false; intros E; apply Hq, Qeq_bool_iff, E).
  destruct (JS.trim (qa_desc st)) as [|c ds] eqn:Et; [contradiction|].
  cbn [negb JS.nonempty orb].
  rewrite !(account_lookup _ w accId Hacc Hh).
  set (amt := if qa_kind st =? "expense" then - Qabs q else Qabs q).
  assert (Es : signed_amount (qa_kind st) (JS.Num q) = JS.Num amt).
  { unfold signed_amount, amt. destruct (qa_kind st =? "expense"); reflexivity. }
  rewrite Es.
  assert (U : forall (cat : option Z) w1,
     db w1 = db w -> clock w1 = clock w -> alerts w1 = alerts w ->
     hd false (faults w1) = false ->
     let r := (now <- new_Date ;;
               execSql (insert_transaction (JS.toISOString_slice10 now) (String c ds)
                          (JS.Num amt) (qa_kind st) accId cat "") ;;;
               alert "OK" "Lançamento adicionado.") w1 in
     fst r = Ok tt /\
     transactions (db (snd r))
     = (transactions (db w) ++
        [mkTransaction
           (fresh_id (map id (transactions (db w))) (seq_transactions (db w)))
           (JS.toISOString_slice10 (clock w)) (String c ds) amt (qa_kind st) accId cat ""])%list /\
     alerts (snd r) = (alerts w ++ [("OK", "Lançamento adicionado.")])%list).
  { intros cat w1 Hdb Hck Hal Hf.
    unfold bind, new_Date, execSql, insert_transaction, alert. rewrite Hk.
    rewrite Hdb, Hck, Hal.
    destruct (faults w1) as [|[|] fs]; try discriminate Hf; cbn; repeat split. }
  destruct (JS.nonempty (qa_cat st)).
  - rewrite !category_lookup by exact Hh2. apply U; try reflexivity. exact Hh3.
  - unfold bind at 1 4, ret. apply U; try reflexivity. exact Hh2.
Qed.

(** A purchase of 45,90 at the market. *)
Lemma QuickAdd_submit_writes_one_row_witness :
  JS.trim (qa_desc quick_market) <> "" /\
  amount_of_input (qa_val quick_market) = JS.Num 45.90 /\ ~ 45.90 == 0 /\
  double_range 45.90 /\
  kind_ok (qa_kind quick_market) = true /\
  account_of (db (sample_world [])) = Some 1%Z /\
  calm 3 (sample_world []) = true /\
  fst (QuickAdd_submit quick_market (sample_world [])) = Ok tt /\
  transactions (db (exec (QuickAdd_submit quick_market) (sample_world [])))
  = (march_transactions ++
     [mkTransaction 4 "2024-03-15" "Mercado" (- Qabs 45.90) "expense" 1 (Some 4%Z) ""])%list.
Proof.
  assert (D : JS.trim (qa_desc quick_market) <> "") by (cbv; discriminate).
  assert (Q0 : ~ 45.90 == 0) by (cbv; discriminate).
  assert (R : double_range 45.90) by (split; [|right]; vm_compute; reflexivity).
  split; [exact D|]. split; [reflexivity|]. split; [exact Q0|]. split; [exact R|].
  split; [reflexivity|]. split; [reflexivity|]. split; [reflexivity|].
  pose proof (QuickAdd_submit_writes_one_row quick_market (sample_world []) 1 45.90
                D eq_refl Q0 R eq_refl eq_refl eq_refl) as H.
  cbv zeta in H. destruct H as (H1 & H2 & _). split; [exact H1 | exact H2].
Defined.

Section FixedItems.

Lemma adds_sound_items_refl (d : DB) : adds_sound_items d d.
Proof. split; [reflexivity | intros f H; left; exact H]. Qed.

Lemma adds_sound_items_trans (a b c : DB) :
  adds_sound_items a b -> adds_sound_items b c -> adds_sound_items a c.
Proof.
  intros [T1 H1] [T2 H2]. split; [congruence|].
  intros f Hf. destruct (H2 f Hf) as [Hb|Hs]; [apply H1, Hb | right; exact Hs].
Qed.

Lemma insert_fixed_item_sound (n : string) (x : JS.number) (dy cat : option Z) :
  n <> "" -> JS.le_zero x = false ->
  keeps adds_sound_items (execSql (insert_fixed_item n x dy cat)).
Proof.
  intros Hn Hx. apply keeps_execSql; [apply adds_sound_items_refl|].
  intros d a d'. unfold insert_fixed_item.
  destruct x as [q| |b]; try discriminate. destruct dy as [day|]; [|discriminate].
  intros H. injection H as _ <-. split; [reflexivity|].
  intros f Hf. cbn [fixed_items with_fixed_items] in Hf. apply in_app_iff in Hf.
  destruct Hf as [Hf|[<-|[]]]; [left; exact Hf|right].
  split; [|exact Hn]. cbn [it_amount]. cbn [JS.le_zero] in Hx.
  apply not_true_iff_false in Hx. rewrite Qle_bool_iff in Hx. lra.
Qed.

Lemma Fixos_add_sound (st : FixosForm) : keeps adds_sound_items (Fixos_add st).
Proof.
  unfold Fixos_add, Fixos_load.
  destruct (JS.trim (fx_name st)) as [|c n] eqn:En;
    [cbn [JS.nonempty negb orb]; apply keeps_alert, adds_sound_items_refl|].
  cbn [JS.nonempty negb orb].
  destruct (negb (JS.nonempty (fx_val st)) || negb (JS.nonempty (fx_day st)));
    [apply keeps_alert, adds_sound_items_refl|].
  destruct (JS.le_zero (amount_of_input (fx_val st))) eqn:El;
    [apply keeps_alert, adds_sound_items_refl|].
  apply keeps_bind; [exact adds_sound_items_trans | |intros r].
  - apply keeps_select_category_id, adds_sound_items_refl.
  - apply keeps_bind; [exact adds_sound_items_trans | |intros _].
    + apply insert_fixed_item_sound; [discriminate | exact El].
    + apply keeps_bind; [exact adds_sound_items_trans | |intros _];
        apply keeps_select_for_display, adds_sound_items_refl.
Qed.

End FixedItems.

(** X18.  Whatever the form holds and however the store behaves, the
    fixed-item form leaves the transactions alone, and every template it
    adds has a positive amount and a name that is not empty. *)
Theorem Fixos_add_keeps_items_sound (st : FixosForm) (w : World) :
  adds_sound_items (db w) (db (exec (Fixos_add st) w)).
Proof. exact (Fixos_add_sound st w). Qed.

Section InitDb.

Lemma only_seeds_refl (d : DB) : only_seeds d d.
Proof.
  split; [exists []; symmetry; apply app_nil_r|].
  split; [exists []; symmetry; apply app_nil_r|]. repeat split.
Qed.

Lemma only_seeds_trans (a b c : DB) :
  only_seeds a b -> only_seeds b c -> only_seeds a c.
Proof.
  intros ((la & A1) & (lc & C1) & T1 & F1 & S1 & Q1 & R1)
         ((la' & A2) & (lc' & C2) & T2 & F2 & S2 & Q2 & R2).
  split; [exists (la ++ la')%list; rewrite A2, A1, app_assoc; reflexivity|].
  split; [exists (lc ++ lc')%list; rewrite C2, C1, app_assoc; reflexivity|].
  repeat split; congruence.
Qed.

Lemma create_table_only_seeds : keeps only_seeds (execSql create_table_if_not_exists).
Proof.
  apply keeps_execSql; [apply only_seeds_refl|].
  intros d a d' H. injection H as _ <-. apply only_seeds_refl.
Qed.

Lemma insert_account_only_seeds (sq : Z) (n i t : string) :
  keeps only_seeds (execSql (insert_or_ignore_account sq n i t)).
Proof.
  apply keeps_execSql; [apply only_seeds_refl|].
  intros d a d'. unfold insert_or_ignore_account.
  destruct (existsb _ (accounts d)); intros H; injection H as _ <-.
  - apply only_seeds_refl.
  - split; [eexists; reflexivity|]. split; [exists []; symmetry; apply app_nil_r|].
    repeat split.
Qed.

Lemma insert_category_only_seeds (sq : Z) (n k : string) (f : Z) :
  keeps only_seeds (execSql (insert_or_ignore_category sq n k f)).
Proof.
  apply keeps_execSql; [apply only_seeds_refl|].
  intros d a d'. unfold insert_or_ignore_category.
  destruct (existsb _ (categories d) || negb (kind_ok k)); intros H; injection H as _ <-.
  - apply only_seeds_refl.
  - split; [exists []; symmetry; apply app_nil_r|]. split; [eexists; reflexivity|].
    repeat split.
Qed.

Lemma seed_loop_only_seeds (l : list (string * string * Z)) (sc : Z) :
  keeps only_seeds (seed_categories_from sc l).
Proof.
  revert sc. induction l as [|[[n k] f] l IH]; intros sc; cbn [seed_categories_from].
  - apply keeps_ret, only_seeds_refl.
  - apply keeps_bind; [exact only_seeds_trans | apply insert_category_only_seeds | ].
    intros sc'. apply IH.
Qed.

Lemma initDb_only_seeds (sa sc : Z) : keeps only_seeds (initDb sa sc).
Proof.
  unfold initDb.
  repeat (apply keeps_bind; [exact only_seeds_trans | apply create_table_only_seeds | intros _]).
  apply keeps_bind; [exact only_seeds_trans | apply insert_account_only_seeds | intros sa'].
  apply keeps_bind; [exact only_seeds_trans | apply seed_loop_only_seeds | intros sc'].
  apply keeps_ret, only_seeds_refl.
Qed.

(** A second launch finds every name taken. *)
Lemma unchanged_refl (d : DB) : unchanged_if_seeded d d.
Proof. intros _. reflexivity. Qed.

Lemma unchanged_trans (a b c : DB) :
  unchanged_if_seeded a b -> unchanged_if_seeded b c -> unchanged_if_seeded a c.
Proof.
  intros H1 H2 Hs. rewrite <- (H1 Hs). apply H2. rewrite (H1 Hs). exact Hs.
Qed.

Lemma seed_loop_unchanged (l : list (string * string * Z)) (sc : Z) :
  (forall n k f, In (n, k, f) l -> In (n, k, f) seeds) ->
  keeps unchanged_if_seeded (seed_categories_from sc l).
Proof.
  revert sc. induction l as [|[[n k] f] l IH]; intros sc Hin; cbn [seed_categories_from].
  - apply keeps_ret, unchanged_refl.
  - apply keeps_bind; [exact unchanged_trans | | ].
    + apply keeps_execSql; [apply unchanged_refl|].
      intros d a d' H [_ Hs]. unfold insert_or_ignore_category in H.
      specialize (Hs n k f (Hin n k f (or_introl eq_refl))).
      unfold has_category in Hs. rewrite Hs in H. cbn [orb] in H.
      injection H as _ <-. reflexivity.
    + intros sc'. apply IH. intros n' k' f' H. apply Hin. right. exact H.
Qed.

Lemma initDb_unchanged (sa sc : Z) : keeps unchanged_if_seeded (initDb sa sc).
Proof.
  unfold initDb.
  repeat (apply keeps_bind;
          [exact unchanged_trans
          | apply keeps_execSql; [apply unchanged_refl|];
            intros d a d' H _; injection H as _ <-; reflexivity
          | intros _]).
  apply keeps_bind; [exact unchanged_trans | | intros sa'].
  - apply keeps_execSql; [apply unchanged_refl|].
    intros d a d' H [Ha _]. unfold insert_or_ignore_account in H.
    change "Conta Padrão" with default_account in H. rewrite Ha in H.
    injection H as _ <-. reflexivity.
  - apply keeps_bind; [exact unchanged_trans | | intros sc'].
    + apply seed_loop_unchanged. auto.
    + apply keeps_ret, unchanged_refl.
Qed.

(** While the store answers, the loop leaves every seed name in the
    table. *)
Lemma has_category_app (n : string) (d : DB) (l : list Category) (d' : DB) :
  categories d' = (categories d ++ l)%list ->
  has_category n d = true -> has_category n d' = true.
Proof.
  unfold has_category. intros -> H. rewrite existsb_app, H. reflexivity.
Qed.

Lemma seed_loop_calm (l : list (string * string * Z)) (sc : Z) (w : World) :
  calm (List.length l) w = true ->
  (forall n k f, In (n, k, f) l -> kind_ok k = true) ->
  exists sc' d',
    seed_categories_from sc l w
    = (Ok sc', mkWorld d' (skipn (List.length l) (faults w)) (alerts w) (clock w)) /\
    accounts d' = accounts (db w) /\
    (exists lc, categories d' = (categories (db w) ++ lc)%list) /\
    forall n k f, In (n, k, f) l -> has_category n d' = true.
Proof.
  revert sc w. induction l as [|[[n k] f] l IH]; intros sc w Hc Hk.
  - exists sc, (db w). destruct w. cbn. repeat split.
    + exists []. symmetry. apply app_nil_r.
    + intros ? ? ? [].
  - cbn [List.length] in Hc. apply calm_S in Hc. destruct Hc as [Hh Hc].
    cbn [seed_categories_from]. unfold bind, execSql.
    destruct (insert_or_ignore_category sc n k f (db w)) as [sc1 d1|] eqn:E;
      [|unfold insert_or_ignore_category in E;
        destruct (existsb _ _ || _) in E; discriminate E].
    assert (P : accounts d1 = accounts (db w) /\
                (exists lc, categories d1 = (categories (db w) ++ lc)%list) /\
                has_category n d1 = true).
    { unfold insert_or_ignore_category in E.
      rewrite (Hk n k f (or_introl eq_refl)) in E. cbn [negb] in E.
      rewrite orb_false_r in E.
      destruct (existsb (fun c => cat_name c =? n) (categories (db w))) eqn:Ex;
        injection E as _ <-.
      - repeat split; [exists []; symmetry; apply app_nil_r | exact Ex].
      - repeat split; [eexists; reflexivity|].
        unfold has_category. cbn [categories with_categories].
        rewrite existsb_app. cbn. rewrite String.eqb_refl. apply orb_true_r. }
    destruct P as (Pa & (lc1 & Pc) & Ph).
    destruct (IH sc1 (mkWorld d1 (tl (faults w)) (alerts w) (clock w)) Hc)
      as (sc' & d' & Hrun & Ha & (lc & Hcat) & Hall).
    { intros n' k' f' H. apply (Hk n' k' f'). right. exact H. }
    cbn [db faults alerts clock] in Hrun, Ha, Hcat.
    exists sc', d'. split; [|split; [|split]].
    + destruct (faults w) as [|[|] fs]; try discriminate Hh;
        cbn [tl faults db alerts clock] in *; rewrite Hrun;
        rewrite ?skipn_nil; reflexivity.
    + rewrite Ha. exact Pa.
    + exists (lc1 ++ lc)%list. rewrite Hcat, Pc, app_assoc. reflexivity.
    + intros n' k' f' [H|H].
      * injection H as <- <- <-. apply (has_category_app n d1 lc d' Hcat Ph).
      * apply (Hall n' k' f' H).
Qed.

Lemma execSql_done {A} (q : statement A) (w : World) (a : A) (d' : DB) :
  hd false (faults w) = false -> q (db w) = Done a d' ->
  execSql q w = (Ok a, mkWorld d' (tl (faults w)) (alerts w) (clock w)).
Proof.
  intros Hh Hq. unfold execSql. rewrite Hq.
  destruct (faults w) as [|[|] fs]; try discriminate Hh; reflexivity.
Qed.

Lemma step_done {A B} (q : statement A) (k : A -> M B) (w : World) (a : A) (d' : DB) :
  hd false (faults w) = false -> q (db w) = Done a d' ->
  bind (execSql q) k w = k a (mkWorld d' (tl (faults w)) (alerts w) (clock w)).
Proof. intros Hh Hq. unfold bind. rewrite (execSql_done q w a d' Hh Hq). reflexivity. Qed.

Lemma seeded_account (d : DB) :
  seeded d -> exists accId, account_of d = Some accId.
Proof.
  intros [Ha _]. unfold account_of. apply existsb_exists in Ha.
  destruct Ha as (a & Hin & Hn).
  destruct (filter (fun a => acc_name a =? default_account) (accounts d)) as [|a0 l] eqn:E.
  - assert (In a []) as []. rewrite <- E. apply filter_In. split; assumption.
  - eexists. reflexivity.
Qed.

Lemma initDb_calm (sa sc : Z) (w : World) :
  calm 14 w = true ->
  exists sa' sc' d',
    initDb sa sc w = (Ok (sa', sc'), mkWorld d' (skipn 14 (faults w)) (alerts w) (clock w)) /\
    seeded d'.
Proof.
  intros Hc. unfold initDb.
  do 5 (apply calm_S in Hc; destruct Hc as [Hh Hc];
        rewrite (step_done create_table_if_not_exists _ _ tt _ Hh eq_refl);
        cbn [db faults alerts clock] in Hc; clear Hh).
  apply calm_S in Hc. destruct Hc as [Hh Hc]. cbn [db faults alerts clock] in Hh, Hc.
  destruct (insert_or_ignore_account sa "Conta Padrão" "Manual" "other" (db w))
    as [sa' d1|] eqn:Ea;
    [|unfold insert_or_ignore_account in Ea; destruct (existsb _ _) in Ea; discriminate Ea].
  rewrite step_done with (a := sa') (d' := d1); [ | exact Hh | exact Ea ].
  cbn [db faults alerts clock].
  assert (Hacc : existsb (fun a => acc_name a =? default_account) (accounts d1) = true).
  { unfold insert_or_ignore_account in Ea.
    destruct (existsb (fun a => acc_name a =? "Conta Padrão") (accounts (db w))) eqn:Ex;
      injection Ea as _ <-; [exact Ex|].
    cbn [accounts with_accounts]. rewrite existsb_app. cbn. apply orb_true_r. }
  destruct (seed_loop_calm seeds sc
              (mkWorld d1 (tl (tl (tl (tl (tl (tl (faults w)))))))
                       (alerts w) (clock w)) Hc)
    as (sc' & d' & Hrun & Ha & _ & Hall).
  { intros n k f H. cbn in H.
    repeat (destruct H as [H|H]; [injection H as <- <- <-; reflexivity|]).
    contradiction. }
  cbn [db faults alerts clock] in Hrun, Ha.
  exists sa', sc', d'. split.
  - unfold bind at 1. rewrite Hrun. cbn [ret]. unfold ret. do 2 f_equal.
    destruct (faults w) as [|f1 [|f2 [|f3 [|f4 [|f5 [|f6 fs]]]]]]; reflexivity.
  - split; [rewrite Ha; exact Hacc | exact Hall].
Qed.

Lemma fresh_id_bounded (ids : list Z) (sq : Z) :
  (forall i, In i ids -> (i <= sq)%Z) -> fresh_id ids sq = (sq + 1)%Z.
Proof.
  unfold fresh_id. intros H. f_equal.
  induction ids as [|x ids IH]; cbn [fold_left]; [reflexivity|].
  rewrite Z.max_l by (apply H; left; reflexivity).
  apply IH. intros i Hi. apply H. right. exact Hi.
Qed.

(** On a seeded store every insert of the loop is ignored and spends
    one id. *)
Lemma seed_loop_seeded (l : list (string * string * Z)) (sc : Z) (w : World) :
  calm (List.length l) w = true ->
  (forall n k f, In (n, k, f) l -> has_category n (db w) = true) ->
  (forall c, In c (categories (db w)) -> (cat_id c <= sc)%Z) ->
  seed_categories_from sc l w
  = (Ok (sc + Z.of_nat (List.length l))%Z,
     mkWorld (db w) (skipn (List.length l) (faults w)) (alerts w) (clock w)).
Proof.
  revert sc w. induction l as [|[[n k] f] l IH]; intros sc w Hc Hall Hb.
  - destruct w. cbn. rewrite Z.add_0_r. reflexivity.
  - cbn [List.length] in Hc |- *. apply calm_S in Hc. destruct Hc as [Hh Hc].
    cbn [seed_categories_from].
    assert (E : insert_or_ignore_category sc n k f (db w) = Done (sc + 1)%Z (db w)).
    { unfold insert_or_ignore_category. cbv zeta.
      pose proof (Hall n k f (or_introl eq_refl)) as Hn. unfold has_category in Hn.
      rewrite Hn. cbn [orb].
      rewrite fresh_id_bounded; [reflexivity|].
      intros i Hi. apply in_map_iff in Hi. destruct Hi as (c & <- & Hc'). apply Hb, Hc'. }
    rewrite step_done with (a := (sc + 1)%Z) (d' := db w); [ | exact Hh | exact E ].
    rewrite IH.
    + cbn [db faults alerts clock]. f_equal; [f_equal; lia|].
      destruct (faults w) as [|x fs]; cbn [tl skipn]; rewrite ?skipn_nil; reflexivity.
    + exact Hc.
    + intros n' k' f' H. apply (Hall n' k' f'). right. exact H.
    + cbn [db]. intros c Hc'. specialize (Hb c Hc'). lia.
Qed.

Lemma initDb_seeded (sa sc : Z) (w : World) :
  seeded (db w) ->
  (forall a, In a (accounts (db w)) -> (acc_id a <= sa)%Z) ->
  (forall c, In c (categories (db w)) -> (cat_id c <= sc)%Z) ->
  calm 14 w = true ->
  fst (initDb sa sc w) = Ok ((sa + 1)%Z, (sc + 8)%Z).
Proof.
  intros [Hacc Hcat] Ha Hb Hc. unfold initDb.
  do 5 (apply calm_S in Hc; destruct Hc as [Hh Hc];
        rewrite (step_done create_table_if_not_exists _ _ tt _ Hh eq_refl);
        cbn [db faults alerts clock] in Hc; clear Hh).
  apply calm_S in Hc. destruct Hc as [Hh Hc]. cbn [db faults alerts clock] in Hh, Hc.
  assert (E : insert_or_ignore_account sa "Conta Padrão" "Manual" "other" (db w)
              = Done (sa + 1)%Z (db w)).
  { unfold insert_or_ignore_account. cbv zeta.
    change "Conta Padrão" with default_account. rewrite Hacc.
    rewrite fresh_id_bounded; [reflexivity|].
    intros i Hi. apply in_map_iff in Hi. destruct Hi as (a & <- & Ha'). apply Ha, Ha'. }
  rewrite step_done with (a := (sa + 1)%Z) (d' := db w); [ | exact Hh | exact E ].
  cbn [db faults alerts clock]. unfold bind at 1.
  rewrite (seed_loop_seeded seeds sc _ Hc); [reflexivity | exact Hcat | exact Hb].
Qed.

End InitDb.

(** X19.  On any store, when its fourteen statements go through,
    [initDb] returns normally and the store then holds the default
    account and the eight seeded categories; accounts and categories are
    only appended to, and the other tables stay as they were. *)
Theorem initDb_seeds_the_store (sa sc : Z) (w : World) :
  calm 14 w = true ->
  let w' := exec (initDb sa sc) w in
  (exists p, fst (initDb sa sc w) = Ok p) /\
  seeded (db w') /\
  (exists accId, account_of (db w') = Some accId) /\
  only_seeds (db w) (db w').
Proof.
  intros Hc w'. destruct (initDb_calm sa sc w Hc) as (sa' & sc' & d' & Hrun & Hs).
  unfold w', exec.
  split; [rewrite Hrun; eexists; reflexivity|].
  split; [rewrite Hrun; exact Hs|].
  split; [rewrite Hrun; apply seeded_account, Hs|].
  exact (initDb_only_seeds sa sc w).
Qed.

(** The first launch, and the launch after it. *)
Lemma initDb_seeds_the_store_witness :
  calm 14 blank_world = true /\
  (exists p, fst (initDb 0 0 blank_world) = Ok p) /\
  seeded (db (exec (initDb 0 0) blank_world)) /\
  (exists accId, account_of (db (exec (initDb 0 0) blank_world)) = Some accId) /\
  only_seeds (db blank_world) (db (exec (initDb 0 0) blank_world)).
Proof.
  split; [reflexivity|].
  exact (initDb_seeds_the_store 0 0 blank_world eq_refl).
Defined.

(** X20.  On a store that holds the default account and the eight
    categories already, [initDb] changes no row of any table, however
    the store behaves; but its ignored inserts spend ids.  When the
    fourteen statements go through, with the sequences at or above the
    ids in use, the sequence of the accounts table has advanced by 1 and
    that of the categories table by 8. *)
Theorem initDb_second_launch (sa sc : Z) (w : World) :
  seeded (db w) ->
  db (exec (initDb sa sc) w) = db w /\
  ((forall a, In a (accounts (db w)) -> (acc_id a <= sa)%Z) ->
   (forall c, In c (categories (db w)) -> (cat_id c <= sc)%Z) ->
   calm 14 w = true ->
   fst (initDb sa sc w) = Ok ((sa + 1)%Z, (sc + 8)%Z)).
Proof.
  intros Hs. split.
  - exact (initDb_unchanged sa sc w Hs).
  - intros Ha Hb Hc. exact (initDb_seeded sa sc w Hs Ha Hb Hc).
Qed.

(** The second launch on the example store, whose sequences stand at 1
    and 8: they are at 2 and 16 afterwards. *)
Lemma initDb_second_launch_witness :
  seeded (db (sample_world [])) /\
  db (exec (initDb 1 8) (sample_world [])) = db (sample_world []) /\
  fst (initDb 1 8 (sample_world [])) = Ok (2%Z, 16%Z).
Proof.
  assert (S : seeded (db (sample_world []))).
  { split; [reflexivity|]. intros n k f H. cbn in H.
    repeat (destruct H as [H|H]; [injection H as <- <- <-; reflexivity|]).
    destruct H. }
  assert (A : forall a, In a (accounts (db (sample_world []))) -> (acc_id a <= 1)%Z).
  { intros a H. cbn in H. destruct H as [<-|[]]. cbn. lia. }
  assert (C : forall c, In c (categories (db (sample_world []))) -> (cat_id c <= 8)%Z).
  { intros c H. cbn in H.
    repeat (destruct H as [<-|H]; [cbn; lia|]). destruct H. }
  split; [exact S|].
  destruct (initDb_second_launch 1 8 (sample_world []) S) as [H1 H2].
  split; [exact H1 | exact (H2 A C eq_refl)].
Defined.

Section Categories.

Lemma fresh_id_above (ids : list Z) (sq : Z) :
  (sq < fresh_id ids sq)%Z /\ (forall i, In i ids -> i < fresh_id ids sq)%Z.
Proof.
  unfold fresh_id.
  assert (H : forall l a, (a <= fold_left Z.max l a)%Z /\
                          (forall i, In i l -> i <= fold_left Z.max l a)%Z).
  { induction l as [|x l IH]; intros a; cbn [fold_left].
    - split; [lia | intros i []].
    - destruct (IH (Z.max a x)) as [H1 H2]. split; [lia|].
      intros i [<-|Hi]; [lia | apply H2, Hi]. }
  destruct (H ids sq) as [H1 H2]. split; [lia|].
  intros i Hi. specialize (H2 i Hi). lia.
Qed.

Lemma NoDup_map_eq {A B} (f : A -> B) (l : list A) (a b : A) :
  NoDup (map f l) -> In a l -> In b l -> f a = f b -> a = b.
Proof.
  induction l as [|x l IH]; intros Hn Ha Hb E; [destruct Ha|].
  cbn [map] in Hn. inversion Hn as [|? ? Hx Hn']; subst.
  destruct Ha as [<-|Ha], Hb as [<-|Hb]; try reflexivity.
  - exfalso. apply Hx. rewrite E. apply in_map, Hb.
  - exfalso. apply Hx. rewrite <- E. apply in_map, Ha.
  - apply IH; assumption.
Qed.

Lemma Categories_save_store (sc : Z) (st : CategoryForm) (w : World) :
  JS.trim (cf_name st) <> "" -> kind_ok (cf_kind st) = true ->
  hd false (faults w) = false ->
  db (exec (Categories_save sc st) w)
  = with_categories (db w)
      (filter (fun c => negb (cat_name c =? JS.trim (cf_name st))) (categories (db w))
       ++ [mkCategory
             (fresh_id (map cat_id
                          (filter (fun c => negb (cat_name c =? JS.trim (cf_name st)))
                                  (categories (db w)))) sc)
             (JS.trim (cf_name st)) (cf_kind st)
             (Some (if cf_isFixed st then 1 else 0)%Z)])%list.
Proof.
  intros Hn Hk Hh. unfold exec, Categories_save, Categories_load.
  destruct (JS.trim (cf_name st)) as [|c n] eqn:En; [contradiction|].
  cbn [JS.nonempty negb]. unfold bind, execSql at 1, insert_or_replace_category.
  rewrite Hk.
  destruct (faults w) as [|[|] fs]; try discriminate Hh;
    cbn [snd db faults]; unfold execSql, select_for_display;
    cbn [faults db]; repeat (match goal with |- context [match ?l with _ => _ end] =>
                                               destruct l end; cbn [snd db]);
    reflexivity.
Qed.

End Categories.

(** X21.  Saving a category under a name that exists replaces the row:
    the new row has an id above every id in use, and no category keeps
    the old id.  So a transaction recorded under the old id joins no
    category any more, and the summary counts it as variable spending.
    The categories of other names and the transactions table stay as
    they were. *)
Theorem Categories_save_renumbers
    (sc : Z) (st : CategoryForm) (w : World) (c0 : Category) :
  JS.trim (cf_name st) <> "" -> kind_ok (cf_kind st) = true ->
  hd false (faults w) = false ->
  In c0 (categories (db w)) -> cat_name c0 = JS.trim (cf_name st) ->
  NoDup (map cat_id (categories (db w))) ->
  (forall c, In c (categories (db w)) -> (cat_id c <= sc)%Z) ->
  let d' := db (exec (Categories_save sc st) w) in
  (exists c, In c (categories d') /\ cat_name c = JS.trim (cf_name st) /\
             (sc < cat_id c)%Z /\ cat_kind c = cf_kind st /\
             is_fixed c = Some (if cf_isFixed st then 1 else 0)%Z) /\
  (forall c, In c (categories d') -> cat_id c <> cat_id c0) /\
  (forall t, category_id t = Some (cat_id c0) ->
             left_join (categories d') t = [mkRow t None]) /\
  (forall c, In c (categories (db w)) -> cat_name c <> JS.trim (cf_name st) ->
             In c (categories d')) /\
  transactions d' = transactions (db w).
Proof.
  intros Hn Hk Hh Hin Hname Hnd Hsq d'.
  unfold d'. rewrite (Categories_save_store sc st w Hn Hk Hh).
  cbn [categories transactions with_categories].
  set (n := JS.trim (cf_name st)) in *.
  set (rest := filter (fun c => negb (cat_name c =? n)) (categories (db w))).
  destruct (fresh_id_above (map cat_id rest) sc) as [Hf1 Hf2].
  assert (Hids : forall c, In c (rest ++ [mkCategory (fresh_id (map cat_id rest) sc) n
                                             (cf_kind st)
                                             (Some (if cf_isFixed st then 1 else 0)%Z)])%list ->
                           cat_id c <> cat_id c0).
  { intros c Hc. apply in_app_iff in Hc. destruct Hc as [Hc|[<-|[]]].
    - unfold rest in Hc. apply filter_In in Hc. destruct Hc as [Hc Hcn].
      apply negb_true_iff, String.eqb_neq in Hcn. intros E. apply Hcn.
      rewrite (NoDup_map_eq cat_id _ c c0 Hnd Hc Hin E). exact Hname.
    - cbn [cat_id]. specialize (Hsq c0 Hin). lia. }
  split; [|split; [exact Hids|split; [|split; [|reflexivity]]]].
  - eexists. split; [apply in_app_iff; right; left; reflexivity|].
    cbn [cat_name cat_id cat_kind is_fixed]. repeat split. exact Hf1.
  - intros t Ht. unfold left_join. rewrite Ht.
    rewrite (no_category_joins _ (cat_id c0) Hids). reflexivity.
  - intros c Hc Hcn. apply in_app_iff. left. apply filter_In. split; [exact Hc|].
    apply negb_true_iff, String.eqb_neq. exact Hcn.
Qed.

(** "Mercado" saved again, as a fixed expense. *)
Lemma Categories_save_renumbers_witness :
  JS.trim (cf_name market_form) <> "" /\ kind_ok (cf_kind market_form) = true /\
  hd false (faults (sample_world [])) = false /\
  In (mkCategory 4 "Mercado" "expense" (Some 0%Z)) (categories (db (sample_world []))) /\
  NoDup (map cat_id (categories (db (sample_world [])))) /\
  (forall c, In c (categories (db (sample_world []))) -> (cat_id c <= 8)%Z) /\
  (forall c, In c (categories (db (exec (Categories_save 8 market_form) (sample_world []))))
             -> cat_id c <> 4%Z) /\
  (forall t, category_id t = Some 4%Z ->
             left_join (categories (db (exec (Categories_save 8 market_form)
                                          (sample_world [])))) t
             = [mkRow t None]).
Proof.
  assert (N : JS.trim (cf_name market_form) <> "") by (cbv; discriminate).
  assert (I : In (mkCategory 4 "Mercado" "expense" (Some 0%Z))
                 (categories (db (sample_world [])))).
  { cbn. tauto. }
  assert (D : NoDup (map cat_id (categories (db (sample_world []))))) by distinct.
  assert (B : forall c, In c (categories (db (sample_world []))) -> (cat_id c <= 8)%Z).
  { intros c H. cbn in H.
    repeat (destruct H as [<-|H]; [cbn; lia|]). destruct H. }
  split; [exact N|]. split; [reflexivity|]. split; [reflexivity|].
  split; [exact I|]. split; [exact D|]. split; [exact B|].
  pose proof (Categories_save_renumbers 8 market_form (sample_world [])
                (mkCategory 4 "Mercado" "expense" (Some 0%Z))
                N eq_refl eq_refl I eq_refl D B) as H.
  cbv zeta in H. destruct H as (_ & H2 & H3 & _). split; [exact H2 | exact H3].
Defined.

Section History.

Lemma monthRange_is_month_range (w : World) :
  monthRange w = (Ok (month_range (clock w)), w).
Proof. reflexivity. Qed.

Lemma In_place (x r : HistoryRow) (l : list HistoryRow) :
  In x (place r l) <-> x = r \/ In x l.
Proof.
  induction l as [|y l IH]; cbn [place].
  - cbn. intuition.
  - destruct (goes_before r y); cbn [In]; [intuition|].
    rewrite IH. intuition.
Qed.

Lemma In_order (x : HistoryRow) (l : list HistoryRow) :
  In x (order_by_tdate_id_desc l) <-> In x l.
Proof.
  unfold order_by_tdate_id_desc. induction l as [|y l IH]; cbn [fold_right].
  - reflexivity.
  - rewrite In_place, IH. cbn. intuition.
Qed.

Lemma goes_before_total (r x : HistoryRow) :
  goes_before r x = false -> goes_before x r = true.
Proof.
  unfold goes_before. rewrite (String.compare_antisym (h_tdate x) (h_tdate r)).
  destruct (String.compare (h_tdate r) (h_tdate x)); cbn [CompOpp];
    intros H; try discriminate H; try reflexivity.
  apply Z.leb_gt in H. apply Z.leb_le. lia.
Qed.

Lemma place_sorted (r : HistoryRow) (l : list HistoryRow) :
  Sorted (fun a b => goes_before a b = true) l ->
  Sorted (fun a b => goes_before a b = true) (place r l).
Proof.
  induction l as [|y l IH]; intros Hs; cbn [place].
  - repeat constructor.
  - destruct (goes_before r y) eqn:E.
    + constructor; [exact Hs | constructor; exact E].
    + inversion Hs as [|? ? Hs' Hhd]; subst. constructor; [apply IH, Hs'|].
      destruct l as [|z l]; cbn [place].
      * constructor. apply goes_before_total, E.
      * destruct (goes_before r z); constructor.
        -- apply goes_before_total, E.
        -- inversion Hhd; assumption.
Qed.

Lemma order_sorted (l : list HistoryRow) :
  Sorted (fun a b => goes_before a b = true) (order_by_tdate_id_desc l).
Proof.
  unfold order_by_tdate_id_desc. induction l as [|y l IH]; cbn [fold_right].
  - constructor.
  - apply place_sorted, IH.
Qed.

Lemma history_join_ids (d : DB) (t : Transaction) (h : HistoryRow) :
  In h (history_join d t) ->
  h_id h = id t /\ h_tdate h = tdate t /\ h_description h = description t /\
  h_amount h = amount t /\ h_kind h = kind t.
Proof.
  unfold history_join. intros H. apply in_flat_map in H.
  destruct H as (a & _ & H). apply in_map_iff in H.
  destruct H as (c & <- & _). repeat split.
Qed.

Lemma history_join_nonempty (d : DB) (t : Transaction) :
  exists h, In h (history_join d t).
Proof.
  unfold history_join.
  destruct (filter (fun a => (acc_id a =? account_id t)%Z) (accounts d)) as [|a la];
    destruct (filter (fun c => opt_Z_eqb (category_id t) (cat_id c)) (categories d))
      as [|c lc];
    cbn; eexists; left; reflexivity.
Qed.

Lemma left_join_nonempty (cs : list Category) (t : Transaction) :
  exists r, In r (left_join cs t).
Proof.
  unfold left_join. destruct (filter _ cs) as [|c l]; cbn; eexists; left; reflexivity.
Qed.

Lemma listMonthTransactions_calm (w : World) :
  hd false (faults w) = false ->
  listMonthTransactions w
  = (Ok (order_by_tdate_id_desc
           (flat_map (history_join (db w))
                     (filter (in_range (fst (month_range (clock w)))
                                       (snd (month_range (clock w))))
                             (transactions (db w))))),
     after_reads 1 w).
Proof.
  intros Hh. unfold listMonthTransactions, bind. rewrite monthRange_is_month_range.
  destruct (month_range (clock w)) as [start end_]. cbn [fst snd].
  unfold execSql, select_history, after_reads.
  destruct (faults w) as [|[|] fs]; try discriminate Hh; reflexivity.
Qed.

End History.

(** X22.  The history list shows the transactions the summary counts:
    when the store answers, [listMonthTransactions] returns rows with the
    ids of the month's summary rows, ordered by date and then id, both
    descending, and writes nothing. *)
Theorem listMonthTransactions_lists_the_summary_rows (w : World) :
  hd false (faults w) = false ->
  exists rows : list HistoryRow,
    fst (listMonthTransactions w) = Ok rows /\
    (forall i, In i (map h_id rows)
               <-> In i (map (fun r => id (row r)) (month_rows w))) /\
    Sorted (fun a b => goes_before a b = true) rows /\
    db (exec listMonthTransactions w) = db w.
Proof.
  intros Hh. unfold exec. rewrite (listMonthTransactions_calm w Hh).
  eexists. split; [reflexivity|]. cbn [snd]. split; [|split; [apply order_sorted|reflexivity]].
  intros i. unfold month_rows. rewrite !in_map_iff. split.
  - intros (h & <- & Hin). rewrite In_order in Hin. apply in_flat_map in Hin.
    destruct Hin as (t & Ht & Hin).
    destruct (left_join_nonempty (categories (db w)) t) as (r & Hr).
    exists r. split.
    + rewrite (left_join_row _ _ _ Hr).
      symmetry. apply (history_join_ids _ _ _ Hin).
    + apply in_flat_map. exists t. split; assumption.
  - intros (r & <- & Hin). apply in_flat_map in Hin.
    destruct Hin as (t & Ht & Hin).
    destruct (history_join_nonempty (db w) t) as (h & Hhj).
    exists h. split.
    + rewrite (left_join_row _ _ _ Hin). apply (history_join_ids _ _ _ Hhj).
    + rewrite In_order. apply in_flat_map. exists t. split; assumption.
Qed.

(** The history list of the example month. *)
Lemma listMonthTransactions_lists_the_summary_rows_witness :
  hd false (faults (sample_world [])) = false /\
  exists rows : list HistoryRow,
    fst (listMonthTransactions (sample_world [])) = Ok rows /\
    (forall i, In i (map h_id rows)
               <-> In i (map (fun r => id (row r)) (month_rows (sample_world [])))) /\
    Sorted (fun a b => goes_before a b = true) rows /\
    db (exec listMonthTransactions (sample_world [])) = db (sample_world []).
Proof.
  split; [reflexivity|].
  exact (listMonthTransactions_lists_the_summary_rows (sample_world []) eq_refl).
Defined.

Section Amounts.














End Amounts.



(** X24.  With name, value and day filled in, a value that reads as a
    positive number in the range of doubles, a day that [parseInt]
    reads as an integer below 2^53 in magnitude, which a double holds
    exactly, and the store answering, the fixed-item form appends exactly one template: a fresh
    id, the name trimmed, the amount, the day and the category the name
    resolves to.  No transaction is written and no notice raised. *)
Theorem Fixos_add_writes_one_item
    (st : FixosForm) (w : World) (q : Q) (dy : Z) :
  JS.trim (fx_name st) <> "" -> fx_val st <> "" -> fx_day st <> "" ->
  amount_of_input (fx_val st) = JS.Num q -> 0 < q -> double_range q ->
  JS.parseInt (fx_day st) = Some dy -> (Z.abs dy < 2 ^ 53)%Z ->
  calm 4 w = true ->
  let w' := exec (Fixos_add st) w in
  fst (Fixos_add st w) = Ok tt /\
  fixed_items (db w')
  = (fixed_items (db w) ++
     [mkFixedItem
        (fresh_id (map it_id (fixed_items (db w))) (seq_fixed_items (db w)))
        (JS.trim (fx_name st)) q dy (category_named (fx_cat st) (db w))])%list /\
  transactions (db w') = transactions (db w) /\
  alerts w' = alerts w.
Proof.
  intros Hn Hv Hd Ha Hq _ Hp _ Hc w'. apply calm_S in Hc. destruct Hc as [Hh Hc].
  apply calm_S in Hc. destruct Hc as [Hh2 Hc]. cbn [faults] in Hh2.
  apply calm_S in Hc. destruct Hc as [Hh3 Hc]. cbn [faults] in Hh3.
  apply calm_S in Hc. destruct Hc as [Hh4 _]. cbn [faults] in Hh4.
  unfold w', exec, Fixos_add, Fixos_load.
  destruct (JS.trim (fx_name st)) as [|c n] eqn:En; [contradiction|].
  destruct (fx_val st) as [|cv v] eqn:Ev; [contradiction|].
  destruct (fx_day st) as [|cd d] eqn:Ed; [contradiction|].
  cbn [JS.nonempty negb orb]. rewrite Ha, Hp. cbn [JS.le_zero].
  replace (Qle_bool q 0) with false
    by (symmetry; apply not_true_iff_false; rewrite Qle_bool_iff; lra).
  unfold bind, execSql, select_category_id, insert_fixed_item, select_for_display,
    category_named.
  destruct w as [db0 fs al ck]. cbn [faults db alerts clock] in *.
  destruct fs as [|[|] [|[|] [|[|] [|[|] fs]]]];
    try discriminate Hh; try discriminate Hh2; try discriminate Hh3;
    try discriminate Hh4;
    cbn [tl faults db alerts clock fst snd];
    destruct (filter (fun c0 => cat_name c0 =? fx_cat st) (categories db0));
    repeat split.
Qed.

(** A gym fee of 89,00 on day 15. *)
Lemma Fixos_add_writes_one_item_witness :
  JS.trim (fx_name gym_form) <> "" /\ fx_val gym_form <> "" /\ fx_day gym_form <> "" /\
  amount_of_input (fx_val gym_form) = JS.Num 89.00 /\ 0 < 89.00 /\
  double_range 89.00 /\
  JS.parseInt (fx_day gym_form) = Some 15%Z /\ (Z.abs 15 < 2 ^ 53)%Z /\
  calm 4 (sample_world []) = true /\
  fst (Fixos_add gym_form (sample_world [])) = Ok tt /\
  fixed_items (db (exec (Fixos_add gym_form) (sample_world [])))
  = [mkFixedItem 1 "Academia" 89.00 15 (Some 6%Z)].
Proof.
  assert (N : JS.trim (fx_name gym_form) <> "") by (cbv; discriminate).
  assert (V : fx_val gym_form <> "") by (cbv; discriminate).
  assert (D : fx_day gym_form <> "") by (cbv; discriminate).
  assert (P : 0 < 89.00) by reflexivity.
  assert (R : double_range 89.00) by (split; [|right]; vm_compute; reflexivity).
  split; [exact N|]. split; [exact V|]. split; [exact D|]. split; [reflexivity|].
  split; [exact P|]. split; [exact R|]. split; [reflexivity|]. split; [reflexivity|].
  split; [reflexivity|].
  pose proof (Fixos_add_writes_one_item gym_form (sample_world []) 89.00 15
                N V D eq_refl P R eq_refl eq_refl eq_refl) as H.
  cbv zeta in H. destruct H as (H1 & H2 & _). split; [exact H1 | exact H2].
Defined.

Section QuickAddRuns.

Lemma QuickAdd_submit_calm (st : QuickAddState) (w : World) (accId : Z) (q : Q) :
  JS.trim (qa_desc st) <> "" ->
  amount_of_input (qa_val st) = JS.Num q -> ~ q == 0 ->
  kind_ok (qa_kind st) = true ->
  account_of (db w) = Some accId ->
  calm 3 w = true ->
  QuickAdd_submit st w
  = (Ok tt,
     mkWorld (with_transactions (db w)
                (transactions (db w) ++ [quick_row st w accId q])%list
                (id (quick_row st w accId q)))
             (skipn (if JS.nonempty (qa_cat st) then 3 else 2) (faults w))
             (alerts w ++ [("OK", "Lançamento adicionado.")])%list
             (clock w)).
Proof.
  intros Hd Ha Hq Hk Hacc Hc. apply calm_S in Hc. destruct Hc as [Hh Hc].
  apply calm_S in Hc. destruct Hc as [Hh2 Hc]. cbn [faults] in Hh2.
  apply calm_S in Hc. destruct Hc as [Hh3 _]. cbn [faults] in Hh3.
  unfold QuickAdd_submit, quick_row. rewrite Ha. cbn [JS.truthy].
  replace (Qeq_bool q 0) with false
    by (symmetry; apply not_true_iff_false; intros E; apply Hq, Qeq_bool_iff, E).
  destruct (JS.trim (qa_desc st)) as [|c ds] eqn:Et; [contradiction|].
  cbn [negb JS.nonempty orb].
  rewrite (account_lookup _ w accId Hacc Hh).
  assert (Es : signed_amount (qa_kind st) (JS.Num q)
               = JS.Num (if qa_kind st =? "expense" then - Qabs q else Qabs q)).
  { unfold signed_amount. destruct (qa_kind st =? "expense"); reflexivity. }
  rewrite Es.
  unfold bind, new_Date, execSql, select_category_id, insert_transaction, alert, ret,
    category_named.
  rewrite Hk.
  destruct w as [d fs al ck]. cbn [faults db alerts clock] in *.
  destruct (JS.nonempty (qa_cat st));
    destruct fs as [|[|] [|[|] [|[|] fs]]];
    try discriminate Hh; try discriminate Hh2; try discriminate Hh3;
    cbn [tl faults db alerts clock fst snd skipn];
    try destruct (filter (fun c0 => cat_name c0 =? qa_cat st) (categories d));
    reflexivity.
Qed.

(** West of Greenwich the UTC day is the local day until the offset
    carries the clock past midnight, and the next day from then on. *)
Lemma utc_day_west (now : JS.Date) :
  (0 <= JS.tzOffset now < 1440)%Z -> (0 <= JS.minutes now < 1440)%Z ->
  JS.utc_day now
  = if (JS.minutes now + JS.tzOffset now <? 1440)%Z
    then (JS.year now, JS.month now, JS.day now)
    else JS.next_day (JS.year now, JS.month now, JS.day now).
Proof.
  intros Htz Hm. unfold JS.utc_day.
  destruct (JS.minutes now + JS.tzOffset now <? 1440)%Z eqn:E.
  - apply Z.ltb_lt in E. rewrite Z.div_small by lia. reflexivity.
  - apply Z.ltb_ge in E.
    replace ((JS.minutes now + JS.tzOffset now) / 1440)%Z with 1%Z
      by (apply Z.div_unique with (r := (JS.minutes now + JS.tzOffset now - 1440)%Z); lia).
    reflexivity.
Qed.

Lemma today_in_month (now : JS.Date) :
  (0 <= JS.tzOffset now < 1440)%Z -> (0 <= JS.minutes now < 1440)%Z ->
  (0 <= first_midnight now < 1440)%Z -> (0 <= last_midnight now < 1440)%Z ->
  (100 <= JS.year now <= 9998)%Z ->
  valid_day (JS.year now) (JS.month now) (JS.day now) ->
  ((fst (month_range now) <=? JS.toISOString_slice10 now)
   && (JS.toISOString_slice10 now <=? snd (month_range now)) = true
   <-> (JS.minutes now + JS.tzOffset now < 1440
        \/ JS.day now < JS.days_in_month (JS.year now) (JS.month now))%Z).
Proof.
  intros Htz Hmin Hf Hl Hy (_ & Hm & Hd).
  pose proof (days_in_month_bounds (JS.year now) (JS.month now)) as Hb.
  rewrite (month_range_west now Hf Hl ltac:(lia) Hm). cbn [fst snd].
  unfold JS.toISOString_slice10. rewrite (utc_day_west now Htz Hmin).
  destruct (JS.minutes now + JS.tzOffset now <? 1440)%Z eqn:E.
  - apply Z.ltb_lt in E. rewrite slice_iso_date by lia.
    rewrite andb_true_iff, !iso_date_leb by lia. lia.
  - apply Z.ltb_ge in E. unfold JS.next_day.
    destruct (JS.day now <? JS.days_in_month (JS.year now) (JS.month now))%Z eqn:El.
    + apply Z.ltb_lt in El. rewrite slice_iso_date by lia.
      rewrite andb_true_iff, !iso_date_leb by lia. lia.
    + apply Z.ltb_ge in El. destruct (JS.month now <? 11)%Z eqn:Em.
      * apply Z.ltb_lt in Em. rewrite slice_iso_date by lia.
        rewrite andb_true_iff, !iso_date_leb by lia. lia.
      * apply Z.ltb_ge in Em. rewrite slice_iso_date by lia.
        rewrite andb_true_iff, !iso_date_leb by lia. lia.
Qed.

End QuickAddRuns.

(** X25.  On a device that is at or west of Greenwich now and at the
    first and the last midnight of the month, the row quick add dates
    "today" falls in the range of the summary unless it is entered on
    the last day of the month at a local time that is the next day in
    UTC already: then it is dated on the first of the next month and
    this month's summary leaves it out. *)
Theorem QuickAdd_row_counts_unless_late_on_last_day (now : JS.Date) (t : Transaction) :
  (0 <= JS.tzOffset now < 1440)%Z -> (0 <= JS.minutes now < 1440)%Z ->
  (0 <= first_midnight now < 1440)%Z -> (0 <= last_midnight now < 1440)%Z ->
  (100 <= JS.year now <= 9998)%Z ->
  valid_day (JS.year now) (JS.month now) (JS.day now) ->
  tdate t = JS.toISOString_slice10 now ->
  in_range (fst (month_range now)) (snd (month_range now)) t = true
  <-> (JS.minutes now + JS.tzOffset now < 1440
       \/ JS.day now < JS.days_in_month (JS.year now) (JS.month now))%Z.
Proof.
  intros Htz Hmin Hf Hl Hy Hv Ht. unfold in_range. rewrite Ht.
  apply today_in_month; assumption.
Qed.

(** Noon of 15 March, in Brazil. *)
Lemma QuickAdd_row_counts_unless_late_on_last_day_witness :
  (0 <= JS.tzOffset (mid_march 180) < 1440)%Z /\
  (0 <= JS.minutes (mid_march 180) < 1440)%Z /\
  (0 <= first_midnight (mid_march 180) < 1440)%Z /\
  (0 <= last_midnight (mid_march 180) < 1440)%Z /\
  (100 <= JS.year (mid_march 180) <= 9998)%Z /\
  valid_day (JS.year (mid_march 180)) (JS.month (mid_march 180)) (JS.day (mid_march 180)) /\
  tdate (quick_row quick_market (sample_world []) 1 45.90)
  = JS.toISOString_slice10 (mid_march 180) /\
  (in_range (fst (month_range (mid_march 180))) (snd (month_range (mid_march 180)))
            (quick_row quick_market (sample_world []) 1 45.90) = true
   <-> (JS.minutes (mid_march 180) + JS.tzOffset (mid_march 180) < 1440
        \/ JS.day (mid_march 180)
           < JS.days_in_month (JS.year (mid_march 180)) (JS.month (mid_march 180)))%Z).
Proof.
  assert (T : (0 <= JS.tzOffset (mid_march 180) < 1440)%Z) by (cbn; lia).
  assert (Mi : (0 <= JS.minutes (mid_march 180) < 1440)%Z) by (cbn; lia).
  assert (F : (0 <= first_midnight (mid_march 180) < 1440)%Z) by (cbn; lia).
  assert (L : (0 <= last_midnight (mid_march 180) < 1440)%Z) by (cbn; lia).
  assert (Y : (100 <= JS.year (mid_march 180) <= 9998)%Z) by (cbn; lia).
  assert (V : valid_day (JS.year (mid_march 180)) (JS.month (mid_march 180))
                        (JS.day (mid_march 180))) by (unfold valid_day; cbn; lia).
  repeat (split; [assumption|]). split; [reflexivity|].
  exact (QuickAdd_row_counts_unless_late_on_last_day (mid_march 180)
           (quick_row quick_market (sample_world []) 1 45.90) T Mi F L Y V eq_refl).
Defined.

Section QuickAddSummary.

(** The summary joins the row quick add has written to the category the
    form names, and to that one only. *)
Lemma left_join_quick_row (st : QuickAddState) (w : World) (accId : Z) (q : Q) :
  NoDup (map cat_id (categories (db w))) ->
  left_join (categories (db w)) (quick_row st w accId q)
  = [mkRow (quick_row st w accId q) (joined_flag (qa_cat st) (db w))].
Proof.
  intros Hn. unfold left_join, joined_flag. cbn [category_id quick_row].
  destruct (JS.nonempty (qa_cat st));
    [|rewrite null_category_joins_none; reflexivity].
  unfold category_named.
  destruct (filter (fun c => cat_name c =? qa_cat st) (categories (db w)))
    as [|c0 l] eqn:E; [rewrite null_category_joins_none; reflexivity|].
  assert (Hin : In c0 (categories (db w))).
  { assert (H : In c0 (c0 :: l)) by (left; reflexivity).
    rewrite <- E in H. apply filter_In in H. apply H. }
  rewrite (single_match _ c0 Hn Hin). reflexivity.
Qed.

Lemma totals_snoc (rows : list SummaryRow) (r : SummaryRow) :
  totals (rows ++ [r])%list = add_row (totals rows) r.
Proof. unfold totals. rewrite fold_left_app. reflexivity. Qed.

End QuickAddSummary.

(** X26.  Quick add, then the summary.  With an amount that reads as a
    number other than zero in the range of doubles, and when the new row
    falls in the range of the month, the summary after it differs from the one before by |q| in
    income for an income; by |q| in expense for an expense, and in
    fixedSpent or else in variableSpent according to the is_fixed flag
    of the category the name resolves to; income and expense are the
    same for a transfer.  Y is the same. *)
Theorem QuickAdd_then_summary
    (st : QuickAddState) (w : World) (accId : Z) (q : Q) :
  JS.trim (qa_desc st) <> "" ->
  amount_of_input (qa_val st) = JS.Num q -> ~ q == 0 -> double_range q ->
  kind_ok (qa_kind st) = true ->
  account_of (db w) = Some accId ->
  calm 5 w = true ->
  NoDup (map cat_id (categories (db w))) ->
  in_range (fst (month_range (clock w))) (snd (month_range (clock w)))
           (quick_row st w accId q) = true ->
  exists s s' : Summary,
    fst (monthSummary w) = Ok s /\
    fst (monthSummary (exec (QuickAdd_submit st) w)) = Ok s' /\
    Y s' = Y s /\
    (qa_kind st = "income" ->
     income s' == income s + Qabs q /\ expense s' == expense s) /\
    (qa_kind st = "expense" ->
     expense s' == expense s + Qabs q /\ income s' == income s /\
     (joined_flag (qa_cat st) (db w) = Some 1%Z ->
      fixedSpent s' == fixedSpent s + Qabs q /\ variableSpent s' == variableSpent s) /\
     (joined_flag (qa_cat st) (db w) <> Some 1%Z ->
      variableSpent s' == variableSpent s + Qabs q /\ fixedSpent s' == fixedSpent s)) /\
    (qa_kind st = "transfer" -> income s' = income s /\ expense s' = expense s).
Proof.
  intros Hd Ha Hq _ Hk Hacc Hc Hn Hr.
  assert (Hc3 : calm 3 w = true).
  { apply (calm_add 3 2 w Hc). }
  assert (Hc2 : calm 2 w = true).
  { apply (calm_add 2 3 w Hc). }
  unfold exec. rewrite (QuickAdd_submit_calm st w accId q Hd Ha Hq Hk Hacc Hc3). cbn [snd].
  set (w1 := mkWorld _ _ _ _).
  assert (Hc1 : calm 2 w1 = true).
  { unfold w1. destruct (JS.nonempty (qa_cat st)).
    - apply (calm_add 3 2 w Hc).
    - destruct (calm_add 2 3 w Hc) as [_ H]. 
      apply (calm_add 2 1 _ H). }
  rewrite (monthSummary_calm w Hc2), (monthSummary_calm w1 Hc1).
  eexists _, _. split; [reflexivity|]. split; [reflexivity|].
  assert (Er : month_rows w1
               = (month_rows w ++ [mkRow (quick_row st w accId q)
                                         (joined_flag (qa_cat st) (db w))])%list).
  { unfold month_rows, w1. cbn [db clock transactions categories with_transactions].
    rewrite filter_app, flat_map_app. cbn [filter]. rewrite Hr. cbn [flat_map].
    rewrite app_nil_r, (left_join_quick_row st w accId q Hn). reflexivity. }
  rewrite Er, totals_snoc.
  assert (Es : stored budget_key (db w1) = stored budget_key (db w)) by reflexivity.
  rewrite Es. cbn [Y income expense fixedSpent variableSpent finish].
  split; [reflexivity|].
  unfold add_row. cbn [row kind amount cat_fixed quick_row].
  split; [|split].
  - intros ->. cbn [String.eqb Ascii.eqb Bool.eqb]. 
    cbn [t_income t_expense]. split; reflexivity.
  - intros ->. change ("expense" =? "income") with false.
    change ("expense" =? "expense") with true. cbv iota.
    assert (Eabs : Qabs (- Qabs q) == Qabs q)
      by (rewrite Qabs_opp; apply Qabs_pos, Qabs_nonneg).
    split; [|split; [|split]].
    + destruct (opt_Z_eqb _ 1); cbn [t_expense]; rewrite Eabs; reflexivity.
    + destruct (opt_Z_eqb _ 1); reflexivity.
    + intros ->. cbn [opt_Z_eqb Z.eqb Pos.eqb t_fixedSpent t_variableSpent].
      rewrite Eabs. split; reflexivity.
    + intros Hf.
      replace (opt_Z_eqb (joined_flag (qa_cat st) (db w)) 1) with false.
      * cbn [t_fixedSpent t_variableSpent]. rewrite Eabs. split; reflexivity.
      * symmetry. destruct (joined_flag (qa_cat st) (db w)) as [z|]; [|reflexivity].
        cbn [opt_Z_eqb]. apply Z.eqb_neq. intros ->. apply Hf. reflexivity.
  - intros ->. split; reflexivity.
Qed.

(** The purchase of 45,90, then the summary. *)
Lemma QuickAdd_then_summary_witness :
  JS.trim (qa_desc quick_market) <> "" /\
  amount_of_input (qa_val quick_market) = JS.Num 45.90 /\ ~ 45.90 == 0 /\
  double_range 45.90 /\
  kind_ok (qa_kind quick_market) = true /\
  account_of (db (sample_world [])) = Some 1%Z /\
  calm 5 (sample_world []) = true /\
  NoDup (map cat_id (categories (db (sample_world [])))) /\
  in_range (fst (month_range (clock (sample_world []))))
           (snd (month_range (clock (sample_world []))))
           (quick_row quick_market (sample_world []) 1 45.90) = true /\
  exists s s' : Summary,
    fst (monthSummary (sample_world [])) = Ok s /\
    fst (monthSummary (exec (QuickAdd_submit quick_market) (sample_world []))) = Ok s' /\
    expense s' == expense s + Qabs 45.90 /\
    variableSpent s' == variableSpent s + Qabs 45.90 /\
    fixedSpent s' == fixedSpent s.
Proof.
  assert (D : JS.trim (qa_desc quick_market) <> "") by (cbv; discriminate).
  assert (Q0 : ~ 45.90 == 0) by (cbv; discriminate).
  assert (N : NoDup (map cat_id (categories (db (sample_world []))))) by distinct.
  assert (R : double_range 45.90) by (split; [|right]; vm_compute; reflexivity).
  split; [exact D|]. split; [reflexivity|]. split; [exact Q0|]. split; [exact R|].
  split; [reflexivity|]. split; [reflexivity|]. split; [reflexivity|].
  split; [exact N|]. split; [reflexivity|].
  destruct (QuickAdd_then_summary quick_market (sample_world []) 1 45.90
              D eq_refl Q0 R eq_refl eq_refl eq_refl N eq_refl)
    as (s & s' & H1 & H2 & _ & _ & He & _).
  exists s, s'. split; [exact H1|]. split; [exact H2|].
  destruct (He eq_refl) as (E1 & _ & _ & E2).
  split; [exact E1|]. apply E2. cbv. discriminate.
Defined.

Section EditRoundTrip.

Lemma calm_hd (n m : nat) (w : World) :
  calm (S m) w = true -> (n <= m)%nat -> hd false (skipn n (faults w)) = false.
Proof.
  unfold calm. generalize (faults w) as fs. revert m.
  induction n as [|n IH]; intros m fs H Hn.
  - destruct fs as [|[|] fs]; [reflexivity | discriminate H | reflexivity].
  - destruct fs as [|f fs]; [reflexivity|]. cbn [skipn].
    destruct m as [|m]; [lia|]. apply (IH m); [|lia].
    cbn [firstn forallb] in H. apply andb_true_iff in H. apply H.
Qed.

(** Saving the edit form, while the store answers. *)
Lemma Historico_saveEdit_calm (e : Editing) (w : World) (accId : Z) (a : Q) :
  e_description e <> "" -> e_tdate e <> "" ->
  signed_amount (e_kind e) (amount_of_field (e_amount e)) = JS.Num a ->
  kind_ok (e_kind e) = true ->
  account_of (db w) = Some accId ->
  calm 4 w = true ->
  fst (Historico_saveEdit e w) = Ok tt /\
  transactions (db (exec (Historico_saveEdit e) w))
  = map (fun t =>
           if (id t =? e_id e)%Z
           then rewritten (e_tdate e) (JS.trim (e_description e)) a (e_kind e) accId
                          (if JS.nonempty (e_category e)
                           then category_named (e_category e) (db w) else None) t
           else t)
        (transactions (db w)).
Proof.
  intros Hd Ht Ha Hk Hacc Hc.
  assert (Hc3 : calm 3 w = true) by (apply (calm_add 3 1 w), Hc).
  destruct (updateTransaction_calm (e_id e) (e_tdate e) (JS.trim (e_description e)) a
              (e_kind e)
              (if JS.nonempty (e_category e) then Some (e_category e) else None)
              w accId Hacc Hc3 Hk) as (d' & n & Hn & Hrun & Htx & _).
  pose proof (calm_hd n 3 w Hc Hn) as Hf.
  unfold exec, Historico_saveEdit.
  destruct (e_description e) as [|c ds] eqn:Ed; [contradiction|].
  destruct (e_tdate e) as [|ct dt] eqn:Et; [contradiction|].
  cbn [JS.nonempty negb orb]. rewrite Ha. unfold bind. rewrite Hrun.
  unfold Historico_load, execSql, select_for_display. cbn [db faults alerts clock].
  assert (Ec : (if JS.nonempty (e_category e)
                then category_named (e_category e) (db w) else None)
               = match (if JS.nonempty (e_category e) then Some (e_category e) else None) with
                 | Some n => if JS.nonempty n then category_named n (db w) else None
                 | None => None
                 end).
  { destruct (JS.nonempty (e_category e)) eqn:En; [rewrite En|]; reflexivity. }
  rewrite Ec.
  destruct (skipn n (faults w)) as [|[|] fs]; try discriminate Hf;
    cbn [fst snd db]; split; first [reflexivity | exact Htx].
Qed.

Lemma signed_amount_of_signed (k : string) (a : Q) :
  (k = "expense" -> a <= 0) -> (k <> "expense" -> 0 <= a) ->
  signed_amount k (JS.Num a) = JS.Num a.
Proof.
  intros He Hn. unfold signed_amount. destruct a as [n d].
  destruct (k =? "expense") eqn:E; cbn [JS.abs JS.neg]; f_equal.
  - apply String.eqb_eq in E. specialize (He E).
    unfold Qle in He. cbn in He. unfold Qabs, Qopp. cbn [Qnum Qden]. f_equal.
    rewrite Z.abs_neq by lia. lia.
  - apply String.eqb_neq in E. specialize (Hn E).
    unfold Qle in Hn. cbn in Hn. unfold Qabs. f_equal. apply Z.abs_eq. lia.
Qed.

Lemma first_named (l : list Category) (c0 : Category) :
  NoDup (map cat_name l) -> In c0 l ->
  filter (fun c => cat_name c =? cat_name c0) l = [c0].
Proof.
  induction l as [|c l IH]; intros Hn Hin; [destruct Hin|].
  cbn [map] in Hn. inversion Hn as [|? ? Hx Hn']; subst.
  cbn [filter]. destruct Hin as [->|Hin].
  - rewrite String.eqb_refl. f_equal.
    assert (E : forall l', (forall c, In c l' -> cat_name c <> cat_name c0) ->
                           filter (fun c => cat_name c =? cat_name c0) l' = []).
    { induction l' as [|c l' IH']; intros H; [reflexivity|]. cbn [filter].
      replace (cat_name c =? cat_name c0) with false.
      - apply IH'. intros c' Hc'. apply H. right. exact Hc'.
      - symmetry. apply String.eqb_neq. apply H. left. reflexivity. }
    apply E. intros c Hc Ec. apply Hx. rewrite <- Ec. apply in_map, Hc.
  - replace (cat_name c =? cat_name c0) with false; [apply IH; assumption|].
    symmetry. apply String.eqb_neq. intros E. apply Hx. rewrite E. apply in_map, Hin.
Qed.

(** The category name the history list shows for [t] resolves back to
    the category of [t]. *)
Lemma listed_category_resolves (d : DB) (t : Transaction) (h : HistoryRow) :
  NoDup (map cat_id (categories d)) -> NoDup (map cat_name (categories d)) ->
  match category_id t with
  | None => True
  | Some c => exists c0, In c0 (categories d) /\ cat_id c0 = c /\ cat_name c0 <> ""
  end ->
  In h (history_join d t) ->
  let e := startEdit h in
  (if JS.nonempty (e_category e) then category_named (e_category e) d else None)
  = category_id t.
Proof.
  intros Hni Hnn Hcat Hin e. unfold e, startEdit. cbn [e_category].
  unfold history_join in Hin. apply in_flat_map in Hin.
  destruct Hin as (an & _ & Hin). apply in_map_iff in Hin.
  destruct Hin as (cp & <- & Hcp). cbn [h_category].
  destruct (category_id t) as [c|].
  - destruct Hcat as (c0 & Hc0 & <- & Hname).
    rewrite (single_match _ c0 Hni Hc0) in Hcp. cbn [map] in Hcp.
    destruct Hcp as [<-|[]]. cbn [fst].
    destruct (cat_name c0) as [|x n] eqn:En; [contradiction|].
    cbn [JS.nonempty]. unfold category_named. rewrite <- En.
    rewrite (first_named _ c0 Hnn Hc0). reflexivity.
  - rewrite null_category_joins_none in Hcp. destruct Hcp as [<-|[]]. reflexivity.
Qed.

End EditRoundTrip.

(** X27.  Opening a line of the history list in the edit form and saving
    it as it stands leaves the transactions table as it was, for a row
    as the program writes them (a trimmed description and a date that
    are not empty, a non-zero amount of the sign of its kind, the
    default account, a category that exists under a name or none) in a
    store whose ids and category names are unique. *)
Theorem edit_without_change_keeps_the_row
    (w : World) (t : Transaction) (h : HistoryRow) (accId : Z) :
  In t (transactions (db w)) -> In h (history_join (db w) t) ->
  NoDup (map id (transactions (db w))) ->
  NoDup (map cat_id (categories (db w))) ->
  NoDup (map cat_name (categories (db w))) ->
  match category_id t with
  | None => True
  | Some c => exists c0, In c0 (categories (db w)) /\ cat_id c0 = c /\ cat_name c0 <> ""
  end ->
  description t <> "" -> JS.trim (description t) = description t ->
  tdate t <> "" ->
  ~ amount t == 0 ->
  (kind t = "expense" -> amount t <= 0) -> (kind t <> "expense" -> 0 <= amount t) ->
  kind_ok (kind t) = true ->
  account_of (db w) = Some accId -> account_id t = accId ->
  calm 4 w = true ->
  fst (Historico_saveEdit (startEdit h) w) = Ok tt /\
  transactions (db (exec (Historico_saveEdit (startEdit h)) w)) = transactions (db w).
Proof.
  intros Ht Hh Hnt Hni Hnn Hcat Hd Htrim Htd Hnz Hexp Hinc Hk Hacc Hacct Hc.
  pose proof (listed_category_resolves (db w) t h Hni Hnn Hcat Hh) as Ecat.
  cbn zeta in Ecat.
  destruct (history_join_ids (db w) t h Hh) as (Ei & Etd & Ede & Eam & Eki).
  assert (Ea : signed_amount (e_kind (startEdit h)) (amount_of_field (e_amount (startEdit h)))
               = JS.Num (amount t)).
  { unfold startEdit. cbn [e_kind e_amount amount_of_field JS.truthy].
    rewrite Eam, Eki.
    replace (Qeq_bool (amount t) 0) with false
      by (symmetry; apply not_true_iff_false; intros E; apply Hnz, Qeq_bool_iff, E).
    cbn [negb]. apply signed_amount_of_signed; assumption. }
  destruct (Historico_saveEdit_calm (startEdit h) w accId (amount t)) as [R1 R2];
    try assumption.
  - unfold startEdit. cbn [e_description]. rewrite Ede. exact Hd.
  - unfold startEdit. cbn [e_tdate]. rewrite Etd. exact Htd.
  - unfold startEdit. cbn [e_kind]. rewrite Eki. exact Hk.
  - split; [exact R1|]. rewrite R2, Ecat. clear R1 R2.
    unfold startEdit. cbn [e_id e_tdate e_description e_kind].
    rewrite Ei, Etd, Ede, Eki, Htrim.
    assert (E : forall l, (forall t', In t' l -> id t' = id t -> t' = t) ->
                map (fun t' => if (id t' =? id t)%Z
                               then rewritten (tdate t) (description t) (amount t) (kind t)
                                              accId (category_id t) t'
                               else t') l = l).
    { induction l as [|t' l IH]; intros H; [reflexivity|]. cbn [map].
      rewrite IH by (intros x Hx; apply H; right; exact Hx). f_equal.
      destruct (id t' =? id t)%Z eqn:Ex; [|reflexivity].
      apply Z.eqb_eq in Ex. rewrite (H t' (or_introl eq_refl) Ex).
      rewrite <- Hacct. destruct t; reflexivity. }
    apply E. intros t' Ht' Eid. exact (NoDup_map_eq id _ t' t Hnt Ht' Ht Eid).
Qed.

(** The rent, opened in the edit form and saved as it stands. *)
Lemma edit_without_change_keeps_the_row_witness :
  In rent (transactions (db (sample_world []))) /\
  In rent_listed (history_join (db (sample_world [])) rent) /\
  NoDup (map id (transactions (db (sample_world [])))) /\
  NoDup (map cat_id (categories (db (sample_world [])))) /\
  NoDup (map cat_name (categories (db (sample_world [])))) /\
  calm 4 (sample_world []) = true /\
  fst (Historico_saveEdit (startEdit rent_listed) (sample_world [])) = Ok tt /\
  transactions (db (exec (Historico_saveEdit (startEdit rent_listed)) (sample_world [])))
  = transactions (db (sample_world [])).
Proof.
  assert (I : In rent (transactions (db (sample_world [])))) by (cbn; tauto).
  assert (J : In rent_listed (history_join (db (sample_world [])) rent))
    by (left; reflexivity).
  assert (N1 : NoDup (map id (transactions (db (sample_world []))))) by distinct.
  assert (N2 : NoDup (map cat_id (categories (db (sample_world []))))) by distinct.
  assert (N3 : NoDup (map cat_name (categories (db (sample_world []))))) by distinct.
  repeat (split; [assumption|]). split; [reflexivity|].
  apply (edit_without_change_keeps_the_row (sample_world []) rent rent_listed 1);
    try assumption; try reflexivity.
  - exists (mkCategory 1 "Aluguel/Condomínio" "expense" (Some 1%Z)).
    split; [cbn; tauto|]. split; [reflexivity | discriminate].
  - cbv; discriminate.
  - cbv; discriminate.
  - cbv; discriminate.
  - intros _. cbv. discriminate.
  - intros H. exfalso. apply H. reflexivity.
Defined.
